(** * Borrowing, fine and reservation lifecycle of the library service

    A shallow embedding of the Mongoose models (book, user, transaction,
    fine, reservation) and of the controllers that move copies, loans,
    fines and reservations, followed by the properties of the lifecycle
    engine.

    Conventions of the embedding:
    - a [Date] is its [getTime()] value, an integer number of milliseconds;
      [new Date()] and [Date.now] read the clock of the request, [now];
      the difference of two dates is exact and [Math.ceil] is taken on the
      exact quotient;
    - an [ObjectId] is a natural number; the identifier the driver
      generates for a new document is read from the request environment,
      [newObjectId], and the unique index on [_id] rejects a duplicate;
    - copy counts and priorities are integers ([Z]); money amounts are
      rationals ([Q]); the code adds amounts as doubles where the
      embedding adds them exactly, so that of a sum of amounts only the
      sign and whether it is zero are stated, never the value;
    - a string is ASCII text, and [trim] strips the white space of such a
      text; no property states what [trim] leaves of a note;
    - a request body is typed: an optional field is an [option], an
      enumerated field is a value of its enumeration;
    - a collection is the list of its documents in insertion order;
      [findOne] returns the first match in that order;
    - a handler threads the store and stops either with the JSON response
      it sent or with the exception it threw; what was written before an
      exception stays written, as there is no transaction around a
      handler; requests are served one after the other;
    - a read-only handler is the function from the store to the data of
      its reply; of a populated reference the identifier is kept; [page]
      and [limit] of a listing are those [validatePagination] lets
      through. *)

From Stdlib Require Import ZArith QArith Qround List String Ascii Bool Lia Lqa
  Permutation DecimalString Sorted.
Import ListNotations.

Local Open Scope string_scope.
Local Open Scope Z_scope.

Definition ObjectId := nat.
Bind Scope nat_scope with ObjectId.
Definition Date := Z.

(** ** Enumerations of the schemas *)

Module Role.
Inductive t := admin | librarian | borrower.
Definition eqb (a b : t) : bool :=
  match a, b with
  | admin, admin | librarian, librarian | borrower, borrower => true
  | _, _ => false
  end.
End Role.

Module UserStatus.
Inductive t := active | inactive.
Definition eqb (a b : t) : bool :=
  match a, b with
  | active, active | inactive, inactive => true
  | _, _ => false
  end.
End UserStatus.

Module BookStatus.
Inductive t := available | unavailable | maintenance.
Definition eqb (a b : t) : bool :=
  match a, b with
  | available, available | unavailable, unavailable
  | maintenance, maintenance => true
  | _, _ => false
  end.
End BookStatus.

Module TxStatus.
Inductive t := issued | returned | overdue | lost.
Definition eqb (a b : t) : bool :=
  match a, b with
  | issued, issued | returned, returned | overdue, overdue | lost, lost => true
  | _, _ => false
  end.
End TxStatus.

Module Reason.
Inductive t := overdue | damage | lost | other.
End Reason.

Module PaymentStatus.
Inductive t := pending | paid | waived.
Definition eqb (a b : t) : bool :=
  match a, b with
  | pending, pending | paid, paid | waived, waived => true
  | _, _ => false
  end.
End PaymentStatus.

Module PaymentMethod.
Inductive t := cash | card | online | check.
End PaymentMethod.

Module ResStatus.
Inductive t := active | fulfilled | expired | cancelled.
Definition eqb (a b : t) : bool :=
  match a, b with
  | active, active | fulfilled, fulfilled | expired, expired
  | cancelled, cancelled => true
  | _, _ => false
  end.
End ResStatus.

(** ** Documents

    Only the fields the lifecycle reads or writes are kept; [createdAt]
    and the catalogue metadata of a book are never read by it. *)

Module User.
Record t := mk {
  _id : ObjectId;
  role : Role.t;
  status : UserStatus.t
}.
End User.

Module Book.
Record t := mk {
  _id : ObjectId;
  totalCopies : Z;
  availableCopies : Z;
  status : BookStatus.t;
  updatedAt : Date
}.
End Book.

Module Transaction.
Record t := mk {
  _id : ObjectId;
  userId : ObjectId;
  bookId : ObjectId;
  issueDate : Date;
  dueDate : Date;
  returnDate : option Date;
  fineAmount : Q;
  status : TxStatus.t;
  issuedBy : ObjectId;
  returnedBy : option ObjectId;
  notes : option string;
  updatedAt : Date
}.
End Transaction.

Module Fine.
Record t := mk {
  _id : ObjectId;
  userId : ObjectId;
  transactionId : ObjectId;
  amount : Q;
  reason : Reason.t;
  paymentStatus : PaymentStatus.t;
  paymentDate : option Date;
  paymentMethod : option PaymentMethod.t;
  processedBy : option ObjectId;
  notes : option string;
  updatedAt : Date
}.
End Fine.

Module Reservation.
Record t := mk {
  _id : ObjectId;
  userId : ObjectId;
  bookId : ObjectId;
  reservationDate : Date;
  expiryDate : Date;
  status : ResStatus.t;
  priority : Z;
  fulfilledBy : option ObjectId;
  fulfilledDate : option Date;
  updatedAt : Date
}.
End Reservation.

(** ** The store and the handler monad *)

Record Store := mkStore {
  users : list User.t;
  books : list Book.t;
  transactions : list Transaction.t;
  fines : list Fine.t;
  reservations : list Reservation.t
}.

Record Response := mkResponse {
  code : nat;
  success : bool;
  message : string
}.

Inductive Outcome (A : Type) : Type :=
| Next (a : A)
| Sent (r : Response)
| Thrown (e : string).
Arguments Next {A} a.
Arguments Sent {A} r.
Arguments Thrown {A} e.

Definition Handler (A : Type) : Type := Store -> Store * Outcome A.

Definition ret {A} (a : A) : Handler A := fun s => (s, Next a).

Definition bind {A B} (m : Handler A) (k : A -> Handler B) : Handler B :=
  fun s =>
    match m s with
    | (s', Next a) => k a s'
    | (s', Sent r) => (s', Sent r)
    | (s', Thrown e) => (s', Thrown e)
    end.

Declare Scope handler_scope.
Delimit Scope handler_scope with handler.
Notation "x <- m ;; k" := (bind m (fun x => k))
  (at level 100, m at next level, right associativity) : handler_scope.
Notation "m ;; k" := (bind m (fun _ => k))
  (at level 100, right associativity) : handler_scope.
Local Open Scope handler_scope.

(** [return res.status(c).json({ success, message })]. *)
Definition json {A} (c : nat) (ok : bool) (msg : string) : Handler A :=
  fun s => (s, Sent (mkResponse c ok msg)).

Definition throw {A} (e : string) : Handler A := fun s => (s, Thrown e).

Definition gets {A} (f : Store -> A) : Handler A := fun s => (s, Next (f s)).

Definition modify (f : Store -> Store) : Handler unit :=
  fun s => (f s, Next tt).

(** [if (c) { return res.status(..).json(..) }]. *)
Definition when_ (c : bool) (h : Handler unit) : Handler unit :=
  if c then h else ret tt.

(** A document that must be there: [if (!doc) return ...]. *)
Definition orElse {A} (o : option A) (h : Handler A) : Handler A :=
  match o with Some a => ret a | None => h end.

(** What reaches the client. [asyncHandler] forwards a rejected promise to
    the error middleware of the application. *)
Inductive Reply :=
| Json (r : Response)
| NextErr (e : string)
| NoReply.

Definition asyncHandler {A} (h : Handler A) (s : Store) : Store * Reply :=
  match h s with
  | (s', Sent r) => (s', Json r)
  | (s', Thrown e) => (s', NextErr e)
  | (s', Next _) => (s', NoReply)
  end.

Definition failed (r : Reply) : bool :=
  match r with
  | Json r => negb (success r)
  | NextErr _ => true
  | NoReply => false
  end.

Definition succeeded (r : Reply) : bool :=
  match r with
  | Json r => success r
  | _ => false
  end.

Record AuthUser := mkAuthUser {
  auth_id : ObjectId;
  auth_role : Role.t
}.

Record Env := mkEnv {
  now : Date;
  newObjectId : ObjectId
}.

(** ** JavaScript helpers *)

Definition isSome {A} (o : option A) : bool :=
  match o with Some _ => true | None => false end.

(** Truthiness of an optional string: [undefined] and [''] are falsy. *)
Definition truthy (o : option string) : bool :=
  match o with
  | Some EmptyString | None => false
  | Some _ => true
  end.

(** A value spliced into a template literal. *)
Definition splice (o : option string) : string :=
  match o with Some s => s | None => "undefined" end.

Definition showZ (z : Z) : string := NilZero.string_of_int (Z.to_int z).

Definition newline : string := String (ascii_of_nat 10) EmptyString.

Definition isSpace (c : ascii) : bool :=
  match nat_of_ascii c with
  | 9%nat | 10%nat | 11%nat | 12%nat | 13%nat | 32%nat => true
  | _ => false
  end.

Fixpoint trimStart (s : string) : string :=
  match s with
  | EmptyString => EmptyString
  | String c s' => if isSpace c then trimStart s' else s
  end.

Fixpoint trimEnd (s : string) : string :=
  match s with
  | EmptyString => EmptyString
  | String c s' =>
      match trimEnd s' with
      | EmptyString => if isSpace c then EmptyString else String c EmptyString
      | t => String c t
      end
  end.

(** The [trim: true] setter of a schema string (ASCII white space). *)
Definition trim (s : string) : string := trimEnd (trimStart s).

Definition msPerDay : Z := 1000 * 60 * 60 * 24.

(** [Math.ceil(ms / (1000 * 60 * 60 * 24))] on a difference of dates. *)
Definition ceilDays (ms : Z) : Z := Qceiling (inject_Z ms / inject_Z msPerDay).

(** ** Collections *)

Module Coll.
Section Collection.
Context {D : Type} (id : D -> ObjectId).

Definition hasId (i : ObjectId) (d : D) : bool := Nat.eqb (id d) i.

Definition findById (i : ObjectId) (c : list D) : option D :=
  find (hasId i) c.

Definition countDocuments (p : D -> bool) (c : list D) : Z :=
  Z.of_nat (List.length (filter p c)).

Definition replaceOne (d : D) (c : list D) : list D :=
  map (fun x => if hasId (id d) x then d else x) c.

Definition insertOne (d : D) (c : list D) : list D := c ++ [d].

Definition deleteOne (i : ObjectId) (c : list D) : list D :=
  filter (fun d => negb (hasId i d)) c.

(** [doc.save()] on a loaded document: the stored document with the same
    [_id] is overwritten; a document that is gone is an error. *)
Definition saveExisting (d : D) (get : Store -> list D)
    (set : list D -> Store -> Store) : Handler unit :=
  c <- gets get ;;
  if isSome (findById (id d) c)
  then modify (set (replaceOne d c))
  else throw "DocumentNotFoundError".

(** Insertion of a new document under the unique index on [_id]. *)
Definition insertNew (d : D) (get : Store -> list D)
    (set : list D -> Store -> Store) : Handler unit :=
  c <- gets get ;;
  if isSome (findById (id d) c)
  then throw "E11000 duplicate key error"
  else modify (set (insertOne d c)).
End Collection.
End Coll.

Definition check (o : option string) : Handler unit :=
  match o with Some e => throw e | None => ret tt end.

Definition set_books (c : list Book.t) (s : Store) : Store :=
  mkStore (users s) c (transactions s) (fines s) (reservations s).
Definition set_transactions (c : list Transaction.t) (s : Store) : Store :=
  mkStore (users s) (books s) c (fines s) (reservations s).
Definition set_fines (c : list Fine.t) (s : Store) : Store :=
  mkStore (users s) (books s) (transactions s) c (reservations s).
Definition set_reservations (c : list Reservation.t) (s : Store) : Store :=
  mkStore (users s) (books s) (transactions s) (fines s) c.

(** ** Models: validators, save hooks and queries *)

Module Users.
Definition findById (i : ObjectId) : Handler (option User.t) :=
  gets (fun s => Coll.findById User._id i (users s)).
End Users.

Module Books.
Import Book.

(** [min: 0] on [totalCopies] and [availableCopies]. *)
Definition validate (b : Book.t) : option string :=
  if totalCopies b <? 0
  then Some "Book validation failed: totalCopies"
  else if availableCopies b <? 0
  then Some "Book validation failed: availableCopies"
  else None.

(** [bookSchema.pre('save')]. *)
Definition preSave (b : Book.t) : option string :=
  if availableCopies b >? totalCopies b
  then Some "Available copies cannot exceed total copies"
  else None.

Definition findById (i : ObjectId) : Handler (option Book.t) :=
  gets (fun s => Coll.findById Book._id i (books s)).

Definition save (b : Book.t) : Handler unit :=
  check (validate b) ;;
  check (preSave b) ;;
  Coll.saveExisting Book._id b books set_books.

Definition with_copies (total available : Z) (at_ : Date) (b : Book.t) : Book.t :=
  mk (_id b) total available (status b) at_.

Definition with_availableCopies (v : Z) (b : Book.t) : Book.t :=
  mk (_id b) (totalCopies b) v (status b) (updatedAt b).
End Books.

Module Transactions.
Import Transaction.

(** [min: 0] on [fineAmount]. *)
Definition validate (t : Transaction.t) : option string :=
  if Qle_bool 0 (fineAmount t)
  then None
  else Some "Transaction validation failed: fineAmount".

(** [transactionSchema.pre('save')]. *)
Definition preSave (t : Transaction.t) : option string :=
  match returnDate t with
  | Some r =>
      if r <? issueDate t
      then Some "Return date cannot be before issue date"
      else None
  | None => None
  end.

Definition findById (i : ObjectId) : Handler (option Transaction.t) :=
  gets (fun s => Coll.findById Transaction._id i (transactions s)).

Definition findOne (p : Transaction.t -> bool) : Handler (option Transaction.t) :=
  gets (fun s => find p (transactions s)).

Definition countDocuments (p : Transaction.t -> bool) : Handler Z :=
  gets (fun s => Coll.countDocuments p (transactions s)).

Definition save (t : Transaction.t) : Handler unit :=
  check (validate t) ;;
  check (preSave t) ;;
  Coll.saveExisting Transaction._id t transactions set_transactions.

(** [Transaction.create({ userId, bookId, dueDate, issuedBy })] with the
    defaults of the schema. *)
Definition create (env : Env) (user book : ObjectId) (due : Date)
    (staff : ObjectId) : Handler Transaction.t :=
  let t := mk (newObjectId env) user book (now env) due None 0
              TxStatus.issued staff None None (now env) in
  check (validate t) ;;
  check (preSave t) ;;
  Coll.insertNew Transaction._id t transactions set_transactions ;;
  ret t.

(** The open loan of a borrower for a book. *)
Definition isOpenLoan (user book : ObjectId) (t : Transaction.t) : bool :=
  Nat.eqb (userId t) user && Nat.eqb (bookId t) book
  && TxStatus.eqb (status t) TxStatus.issued.

Definition isOpenLoanOf (user : ObjectId) (t : Transaction.t) : bool :=
  Nat.eqb (userId t) user && TxStatus.eqb (status t) TxStatus.issued.
End Transactions.

Module Fines.
Import Fine.

(** [min: 0] on [amount]. *)
Definition validate (f : Fine.t) : option string :=
  if Qle_bool 0 (amount f)
  then None
  else Some "Fine validation failed: amount".

(** [fineSchema.pre('save')]: a paid fine gets a payment date. *)
Definition preSave (at_ : Date) (f : Fine.t) : Fine.t :=
  match paymentStatus f, paymentDate f with
  | PaymentStatus.paid, None =>
      mk (_id f) (userId f) (transactionId f) (amount f) (reason f)
         (paymentStatus f) (Some at_) (paymentMethod f) (processedBy f)
         (notes f) (updatedAt f)
  | _, _ => f
  end.

Definition findById (i : ObjectId) : Handler (option Fine.t) :=
  gets (fun s => Coll.findById Fine._id i (fines s)).

Definition findOne (p : Fine.t -> bool) : Handler (option Fine.t) :=
  gets (fun s => find p (fines s)).

Definition find (p : Fine.t -> bool) : Handler (list Fine.t) :=
  gets (fun s => filter p (fines s)).

Definition save (env : Env) (f : Fine.t) : Handler unit :=
  check (validate f) ;;
  Coll.saveExisting Fine._id (preSave (now env) f) fines set_fines.

(** [Fine.create({ userId, transactionId, amount, reason, notes })]. *)
Definition create (env : Env) (user tx : ObjectId) (amt : Q)
    (why : Reason.t) (note : option string) : Handler Fine.t :=
  let f := mk (newObjectId env) user tx amt why PaymentStatus.pending
              None None None (option_map trim note) (now env) in
  check (validate f) ;;
  Coll.insertNew Fine._id (preSave (now env) f) fines set_fines ;;
  ret f.

Definition findByIdAndDelete (i : ObjectId) : Handler unit :=
  modify (fun s => set_fines (Coll.deleteOne Fine._id i (fines s)) s).

Definition isPendingOf (user : ObjectId) (f : Fine.t) : bool :=
  Nat.eqb (userId f) user
  && PaymentStatus.eqb (paymentStatus f) PaymentStatus.pending.
End Fines.

Module Reservations.
Import Reservation.

(** [min: 1] on [priority]. *)
Definition validate (r : Reservation.t) : option string :=
  if priority r <? 1
  then Some "Reservation validation failed: priority"
  else None.

(** [reservationSchema.pre('save')]. *)
Definition preSave (r : Reservation.t) : option string :=
  if expiryDate r <=? reservationDate r
  then Some "Expiry date must be after reservation date"
  else None.

Definition isActive (r : Reservation.t) : bool :=
  ResStatus.eqb (status r) ResStatus.active.

Definition isActiveFor (book : ObjectId) (r : Reservation.t) : bool :=
  Nat.eqb (bookId r) book && isActive r.

Definition isActiveOf (user : ObjectId) (r : Reservation.t) : bool :=
  Nat.eqb (userId r) user && isActive r.

Definition isActiveOfFor (user book : ObjectId) (r : Reservation.t) : bool :=
  Nat.eqb (userId r) user && Nat.eqb (bookId r) book && isActive r.

(** The partial unique index on [(userId, bookId, status)] over the active
    reservations: another active reservation of the same borrower for the
    same book is a duplicate key. *)
Definition uniqueIndex (r : Reservation.t) (c : list Reservation.t)
    : option string :=
  if isActive r
     && existsb (fun x => negb (Nat.eqb (_id x) (_id r))
                          && isActiveOfFor (userId r) (bookId r) x) c
  then Some "E11000 duplicate key error"
  else None.

Definition findById (i : ObjectId) : Handler (option Reservation.t) :=
  gets (fun s => Coll.findById Reservation._id i (reservations s)).

Definition findOne (p : Reservation.t -> bool) : Handler (option Reservation.t) :=
  gets (fun s => List.find p (reservations s)).

Definition countDocuments (p : Reservation.t -> bool) : Handler Z :=
  gets (fun s => Coll.countDocuments p (reservations s)).

(** Stable insertion by [reservationDate] as [sort({ reservationDate: 1 })]:
    equal dates keep the order of the collection. *)
Fixpoint insertByDate (r : Reservation.t) (l : list Reservation.t)
    : list Reservation.t :=
  match l with
  | [] => [r]
  | x :: l' =>
      if reservationDate r <? reservationDate x
      then r :: l
      else x :: insertByDate r l'
  end.

Definition sortByDate (l : list Reservation.t) : list Reservation.t :=
  fold_right insertByDate [] l.

Definition findSorted (p : Reservation.t -> bool) : Handler (list Reservation.t) :=
  gets (fun s => sortByDate (filter p (reservations s))).

Definition save (r : Reservation.t) : Handler unit :=
  check (validate r) ;;
  check (preSave r) ;;
  c <- gets reservations ;;
  check (uniqueIndex r c) ;;
  Coll.saveExisting Reservation._id r reservations set_reservations.

(** [Reservation.create({ userId, bookId, expiryDate, priority })]. *)
Definition create (env : Env) (user book : ObjectId) (expiry : Date)
    (prio : Z) : Handler Reservation.t :=
  let r := mk (newObjectId env) user book (now env) expiry ResStatus.active
              prio None None (now env) in
  check (validate r) ;;
  check (preSave r) ;;
  c <- gets reservations ;;
  check (uniqueIndex r c) ;;
  Coll.insertNew Reservation._id r reservations set_reservations ;;
  ret r.

(** [Reservation.updateMany(filter, update)]: no validator and no hook runs;
    the result is [modifiedCount]. *)
Definition updateMany (p : Reservation.t -> bool)
    (f : Reservation.t -> Reservation.t) : Handler Z :=
  n <- countDocuments p ;;
  modify (fun s =>
    set_reservations (map (fun r => if p r then f r else r) (reservations s)) s) ;;
  ret n.

Definition with_status (st : ResStatus.t) (at_ : Date) (r : Reservation.t)
    : Reservation.t :=
  mk (_id r) (userId r) (bookId r) (reservationDate r) (expiryDate r) st
     (priority r) (fulfilledBy r) (fulfilledDate r) at_.

Definition with_priority (p : Z) (r : Reservation.t) : Reservation.t :=
  mk (_id r) (userId r) (bookId r) (reservationDate r) (expiryDate r)
     (status r) p (fulfilledBy r) (fulfilledDate r) (updatedAt r).

Definition fulfilled_by (staff : ObjectId) (at_ : Date) (r : Reservation.t)
    : Reservation.t :=
  mk (_id r) (userId r) (bookId r) (reservationDate r) (expiryDate r)
     ResStatus.fulfilled (priority r) (Some staff) (Some at_) at_.
End Reservations.

(** ** Transaction controller *)

Record IssueBody := mkIssueBody {
  issue_userId : ObjectId;
  issue_bookId : ObjectId;
  issue_dueDate : Date
}.

Definition msgUserNotFound := "User not found".
Definition msgUserInactive := "User account is not active".
Definition msgBookNotFound := "Book not found".
Definition msgBookUnavailable := "Book is not available for borrowing".
Definition msgDuplicateLoan := "User already has this book issued".
Definition msgLimit (limit : Z) :=
  ("User has reached the borrowing limit of " ++ showZ limit ++ " books")%string.
Definition msgOutstandingFine :=
  "User has outstanding fines. Please clear them before borrowing.".
Definition nullDeref := "TypeError: Cannot read properties of null".

Definition borrowingLimit (r : Role.t) : Z :=
  if Role.eqb r Role.borrower then 5 else 10.

Definition issueBook (env : Env) (staff : AuthUser) (body : IssueBody)
    : Handler unit :=
  let userId := issue_userId body in
  let bookId := issue_bookId body in
  u <- Users.findById userId ;;
  user <- orElse u (json 404 false msgUserNotFound) ;;
  when_ (negb (UserStatus.eqb (User.status user) UserStatus.active))
        (json 400 false msgUserInactive) ;;
  b <- Books.findById bookId ;;
  book <- orElse b (json 404 false msgBookNotFound) ;;
  when_ ((Book.availableCopies book <=? 0)
         || negb (BookStatus.eqb (Book.status book) BookStatus.available))
        (json 400 false msgBookUnavailable) ;;
  existingTransaction <- Transactions.findOne (Transactions.isOpenLoan userId bookId) ;;
  when_ (isSome existingTransaction) (json 400 false msgDuplicateLoan) ;;
  activeTransactions <- Transactions.countDocuments (Transactions.isOpenLoanOf userId) ;;
  when_ (activeTransactions >=? borrowingLimit (User.role user))
        (json 400 false (msgLimit (borrowingLimit (User.role user)))) ;;
  outstandingFines <- Fines.findOne (Fines.isPendingOf userId) ;;
  when_ (isSome outstandingFines) (json 400 false msgOutstandingFine) ;;
  Transactions.create env userId bookId (issue_dueDate body) (auth_id staff) ;;
  Books.save (Books.with_availableCopies (Book.availableCopies book - 1) book) ;;
  json 201 true "Book issued successfully".

(** The fixed daily rate: [overdueDays * 1]. *)
Definition dailyRate : Q := 1.

Definition returned_ (at_ : Date) (fine : Q) (staff : ObjectId)
    (notes : option string) (t : Transaction.t) : Transaction.t :=
  Transaction.mk (Transaction._id t) (Transaction.userId t)
    (Transaction.bookId t) (Transaction.issueDate t) (Transaction.dueDate t)
    (Some at_) fine TxStatus.returned (Transaction.issuedBy t) (Some staff)
    (option_map trim notes) (Transaction.updatedAt t).

Definition returnBook (env : Env) (staff : AuthUser) (id : ObjectId)
    (notes : option string) : Handler unit :=
  t <- Transactions.findById id ;;
  (* populate('userId') and populate('bookId'): null when the document is gone *)
  populatedUser <- match t with
                   | Some t => Users.findById (Transaction.userId t)
                   | None => ret None
                   end ;;
  populatedBook <- match t with
                   | Some t => Books.findById (Transaction.bookId t)
                   | None => ret None
                   end ;;
  transaction <- orElse t (json 404 false "Transaction not found") ;;
  when_ (negb (TxStatus.eqb (Transaction.status transaction) TxStatus.issued))
        (json 400 false "Book is not currently issued") ;;
  let returnDate := now env in
  fineAmount <-
    (if returnDate >? Transaction.dueDate transaction
     then
       let overdueDays := ceilDays (returnDate - Transaction.dueDate transaction) in
       let fineAmount := (inject_Z overdueDays * dailyRate)%Q in
       user <- orElse populatedUser (throw nullDeref) ;;
       Fines.create env (User._id user) (Transaction._id transaction)
                    fineAmount Reason.overdue None ;;
       ret fineAmount
     else ret 0%Q) ;;
  Transactions.save (returned_ returnDate fineAmount (auth_id staff) notes transaction) ;;
  bookRef <- orElse populatedBook (throw nullDeref) ;;
  b <- Books.findById (Book._id bookRef) ;;
  book <- orElse b (throw nullDeref) ;;
  Books.save (Books.with_availableCopies (Book.availableCopies book + 1) book) ;;
  json 200 true "Book returned successfully".

Record ExtendBody := mkExtendBody {
  newDueDate : option Date;
  extend_reason : option string
}.

Definition extended (due : Date) (notes : string) (at_ : Date)
    (t : Transaction.t) : Transaction.t :=
  Transaction.mk (Transaction._id t) (Transaction.userId t)
    (Transaction.bookId t) (Transaction.issueDate t) due
    (Transaction.returnDate t) (Transaction.fineAmount t)
    (Transaction.status t) (Transaction.issuedBy t) (Transaction.returnedBy t)
    (Some (trim notes)) at_.

Definition extendDueDate (env : Env) (id : ObjectId) (body : ExtendBody)
    : Handler unit :=
  t <- Transactions.findById id ;;
  transaction <- orElse t (json 404 false "Transaction not found") ;;
  when_ (negb (TxStatus.eqb (Transaction.status transaction) TxStatus.issued))
        (json 400 false "Can only extend due date for issued books") ;;
  let notes :=
    (if truthy (Transaction.notes transaction)
     then splice (Transaction.notes transaction) ++ newline
          ++ "Due date extended: " ++ splice (extend_reason body)
     else "Due date extended: " ++ splice (extend_reason body))%string in
  (* the required validator of dueDate runs when the document is saved *)
  due <- orElse (newDueDate body)
                (throw "Transaction validation failed: dueDate") ;;
  Transactions.save (extended due notes (now env) transaction) ;;
  json 200 true "Due date extended successfully".

(** The query-time predicate of an overdue loan:
    [{ status: 'issued', dueDate: { $lt: new Date() } }]. *)
Definition isOverdue (at_ : Date) (t : Transaction.t) : bool :=
  TxStatus.eqb (Transaction.status t) TxStatus.issued
  && (Transaction.dueDate t <? at_).

(** ** Book controller *)

Record AvailabilityBody := mkAvailabilityBody {
  body_availableCopies : option Z;
  body_totalCopies : option Z
}.

Definition updateBookAvailability (env : Env) (id : ObjectId)
    (body : AvailabilityBody) : Handler unit :=
  b <- Books.findById id ;;
  book <- orElse b (json 404 false msgBookNotFound) ;;
  let total :=
    match body_totalCopies body with
    | Some v => v
    | None => Book.totalCopies book
    end in
  let available :=
    match body_availableCopies body with
    | Some v => v
    | None => Book.availableCopies book
    end in
  Books.save (Books.with_copies total available (now env) book) ;;
  json 200 true "Book availability updated successfully".

(** ** Fine controller *)

Record CreateFineBody := mkCreateFineBody {
  cf_userId : ObjectId;
  cf_transactionId : ObjectId;
  cf_amount : Q;
  cf_reason : Reason.t;
  cf_notes : option string
}.

Definition createFine (env : Env) (body : CreateFineBody) : Handler unit :=
  u <- Users.findById (cf_userId body) ;;
  _ <- orElse u (json 404 false msgUserNotFound) ;;
  t <- Transactions.findById (cf_transactionId body) ;;
  _ <- orElse t (json 404 false "Transaction not found") ;;
  existingFine <- Fines.findOne
    (fun f => Nat.eqb (Fine.transactionId f) (cf_transactionId body)) ;;
  when_ (isSome existingFine)
        (json 400 false "Fine already exists for this transaction") ;;
  Fines.create env (cf_userId body) (cf_transactionId body) (cf_amount body)
               (cf_reason body) (cf_notes body) ;;
  json 201 true "Fine created successfully".

Record PayBody := mkPayBody {
  pay_method : option PaymentMethod.t;
  pay_notes : option string
}.

Definition isPaid (f : Fine.t) : bool :=
  PaymentStatus.eqb (Fine.paymentStatus f) PaymentStatus.paid.
Definition isWaived (f : Fine.t) : bool :=
  PaymentStatus.eqb (Fine.paymentStatus f) PaymentStatus.waived.

Definition processFinePayment (env : Env) (staff : AuthUser) (id : ObjectId)
    (body : PayBody) : Handler unit :=
  f <- Fines.findById id ;;
  fine <- orElse f (json 404 false "Fine not found") ;;
  when_ (isPaid fine) (json 400 false "Fine is already paid") ;;
  when_ (isWaived fine) (json 400 false "Fine has been waived") ;;
  let notes :=
    if truthy (pay_notes body)
    then Some (trim ((if truthy (Fine.notes fine)
                      then splice (Fine.notes fine) else "")
                     ++ newline ++ "Payment: " ++ splice (pay_notes body))%string)
    else Fine.notes fine in
  Fines.save env
    (Fine.mk (Fine._id fine) (Fine.userId fine) (Fine.transactionId fine)
       (Fine.amount fine) (Fine.reason fine) PaymentStatus.paid
       (Some (now env)) (pay_method body) (Some (auth_id staff)) notes
       (now env)) ;;
  json 200 true "Fine payment processed successfully".

Definition waiveFine (env : Env) (staff : AuthUser) (id : ObjectId)
    (reason : option string) : Handler unit :=
  f <- Fines.findById id ;;
  fine <- orElse f (json 404 false "Fine not found") ;;
  when_ (isPaid fine) (json 400 false "Cannot waive a paid fine") ;;
  when_ (isWaived fine) (json 400 false "Fine is already waived") ;;
  let notes :=
    (if truthy (Fine.notes fine)
     then splice (Fine.notes fine) ++ newline ++ "Waived: " ++ splice reason
     else "Waived: " ++ splice reason)%string in
  Fines.save env
    (Fine.mk (Fine._id fine) (Fine.userId fine) (Fine.transactionId fine)
       (Fine.amount fine) (Fine.reason fine) PaymentStatus.waived
       (Fine.paymentDate fine) (Fine.paymentMethod fine)
       (Some (auth_id staff)) (Some (trim notes)) (now env)) ;;
  json 200 true "Fine waived successfully".

Record UpdateFineBody := mkUpdateFineBody {
  uf_amount : option Q;
  uf_reason : option Reason.t;
  uf_notes : option string
}.

Definition updateFine (env : Env) (id : ObjectId) (body : UpdateFineBody)
    : Handler unit :=
  f <- Fines.findById id ;;
  fine <- orElse f (json 404 false "Fine not found") ;;
  when_ (isPaid fine) (json 400 false "Cannot update a paid fine") ;;
  let amount :=
    match uf_amount body with Some a => a | None => Fine.amount fine end in
  let reason :=
    match uf_reason body with Some r => r | None => Fine.reason fine end in
  let notes :=
    if truthy (uf_notes body)
    then option_map trim (uf_notes body)
    else Fine.notes fine in
  Fines.save env
    (Fine.mk (Fine._id fine) (Fine.userId fine) (Fine.transactionId fine)
       amount reason (Fine.paymentStatus fine) (Fine.paymentDate fine)
       (Fine.paymentMethod fine) (Fine.processedBy fine) notes (now env)) ;;
  json 200 true "Fine updated successfully".

Definition deleteFine (id : ObjectId) : Handler unit :=
  f <- Fines.findById id ;;
  fine <- orElse f (json 404 false "Fine not found") ;;
  when_ (isPaid fine) (json 400 false "Cannot delete a paid fine") ;;
  Fines.findByIdAndDelete id ;;
  json 200 true "Fine deleted successfully".

(** [totalOutstanding] of [getUserOutstandingFines]:
    [fines.reduce((sum, fine) => sum + fine.amount, 0)] over the pending
    fines of the borrower. *)
Definition totalOutstanding (user : ObjectId) (s : Store) : Q :=
  fold_left (fun sum fine => (sum + Fine.amount fine)%Q)
            (filter (Fines.isPendingOf user) (fines s)) 0%Q.

(** ** Reservation controller *)

Record ReserveBody := mkReserveBody {
  reserve_bookId : ObjectId;
  reserve_expiryDate : Date
}.

Definition msgBookAvailable := "Book is currently available. No need to reserve.".

Definition reservationLimit (r : Role.t) : Z :=
  if Role.eqb r Role.borrower then 3 else 5.

Definition createReservation (env : Env) (user : AuthUser) (body : ReserveBody)
    : Handler unit :=
  let bookId := reserve_bookId body in
  let userId := auth_id user in
  b <- Books.findById bookId ;;
  book <- orElse b (json 404 false msgBookNotFound) ;;
  when_ ((Book.availableCopies book >? 0)
         && BookStatus.eqb (Book.status book) BookStatus.available)
        (json 400 false msgBookAvailable) ;;
  existingReservation <- Reservations.findOne (Reservations.isActiveOfFor userId bookId) ;;
  when_ (isSome existingReservation)
        (json 400 false "You already have an active reservation for this book") ;;
  activeTransaction <- Transactions.findOne (Transactions.isOpenLoan userId bookId) ;;
  when_ (isSome activeTransaction)
        (json 400 false "You currently have this book issued") ;;
  activeReservations <- Reservations.countDocuments (Reservations.isActiveOf userId) ;;
  when_ (activeReservations >=? reservationLimit (auth_role user))
        (json 400 false
           ("You have reached the reservation limit of "
            ++ showZ (reservationLimit (auth_role user)) ++ " books")%string) ;;
  n <- Reservations.countDocuments (Reservations.isActiveFor bookId) ;;
  let queuePosition := n + 1 in
  Reservations.create env userId bookId (reserve_expiryDate body) queuePosition ;;
  json 201 true "Reservation created successfully".

(** The loop of [updateReservationPriorities]: [priority = i + 1] and a
    save, document after document; a save that throws ends the loop. *)
Fixpoint renumber (i : Z) (l : list Reservation.t) : Handler unit :=
  match l with
  | [] => ret tt
  | r :: l' =>
      Reservations.save (Reservations.with_priority (i + 1) r) ;;
      renumber (i + 1) l'
  end.

Definition updateReservationPriorities (bookId : ObjectId) : Handler unit :=
  activeReservations <- Reservations.findSorted (Reservations.isActiveFor bookId) ;;
  renumber 0 activeReservations.

Definition isStaff (r : Role.t) : bool :=
  Role.eqb r Role.admin || Role.eqb r Role.librarian.

Definition cancelReservation (env : Env) (user : AuthUser) (id : ObjectId)
    : Handler unit :=
  r <- Reservations.findById id ;;
  reservation <- orElse r (json 404 false "Reservation not found") ;;
  let isOwner := Nat.eqb (Reservation.userId reservation) (auth_id user) in
  when_ (negb isOwner && negb (isStaff (auth_role user)))
        (json 403 false "Access denied") ;;
  when_ (negb (Reservations.isActive reservation))
        (json 400 false "Can only cancel active reservations") ;;
  Reservations.save
    (Reservations.with_status ResStatus.cancelled (now env) reservation) ;;
  updateReservationPriorities (Reservation.bookId reservation) ;;
  json 200 true "Reservation cancelled successfully".

Definition fulfillReservation (env : Env) (staff : AuthUser) (id : ObjectId)
    : Handler unit :=
  r <- Reservations.findById id ;;
  reservation <- orElse r (json 404 false "Reservation not found") ;;
  when_ (negb (Reservations.isActive reservation))
        (json 400 false "Can only fulfill active reservations") ;;
  b <- Books.findById (Reservation.bookId reservation) ;;
  book <- orElse b (throw nullDeref) ;;
  when_ (Book.availableCopies book <=? 0)
        (json 400 false "Book is not available") ;;
  Reservations.save
    (Reservations.fulfilled_by (auth_id staff) (now env) reservation) ;;
  updateReservationPriorities (Reservation.bookId reservation) ;;
  json 200 true "Reservation fulfilled successfully".

Definition isExpiredAt (at_ : Date) (r : Reservation.t) : bool :=
  Reservations.isActive r && (Reservation.expiryDate r <? at_).

Definition autoExpireReservations (env : Env) : Handler unit :=
  expiredCount <- Reservations.updateMany
    (isExpiredAt (now env))
    (Reservations.with_status ResStatus.expired (now env)) ;;
  json 200 true (showZ expiredCount ++ " reservations expired")%string.

(** * Specification vocabulary *)

(** A store predicate kept by a handler, whatever its outcome. *)
Definition preserves (P : Store -> Prop) {A} (h : Handler A) : Prop :=
  forall s, P s -> P (fst (h s)).

(** ** The copy-count invariant of the inventory ledger *)

Definition copiesInvariant (b : Book.t) : Prop :=
  0 <= Book.availableCopies b <= Book.totalCopies b.

Definition ledgerInvariant (s : Store) : Prop :=
  Forall copiesInvariant (books s).

(** A request to the inventory ledger. *)
Inductive LedgerOp :=
| IssueBook (env : Env) (staff : AuthUser) (body : IssueBody)
| ReturnBook (env : Env) (staff : AuthUser) (id : ObjectId)
    (notes : option string)
| UpdateBookAvailability (env : Env) (id : ObjectId) (body : AvailabilityBody).

Definition ledgerRequest (op : LedgerOp) (s : Store) : Store * Reply :=
  match op with
  | IssueBook env staff body => asyncHandler (issueBook env staff body) s
  | ReturnBook env staff id notes =>
      asyncHandler (returnBook env staff id notes) s
  | UpdateBookAvailability env id body =>
      asyncHandler (updateBookAvailability env id body) s
  end.

(** The requests are served one after the other. *)
Definition serveLedger (ops : list LedgerOp) (s : Store) : Store :=
  fold_left (fun s op => fst (ledgerRequest op s)) ops s.

Definition demoStore : Store :=
  mkStore
    [User.mk 1 Role.borrower UserStatus.active;
     User.mk 2 Role.borrower UserStatus.active;
     User.mk 9 Role.librarian UserStatus.active]
    [Book.mk 100 1 1 BookStatus.available 0]
    [] [] [].

Definition librarian9 : AuthUser := mkAuthUser 9 Role.librarian.

Definition demoLedgerOps : list LedgerOp :=
  [IssueBook (mkEnv 0 1000) librarian9 (mkIssueBody 1 100 (14 * msPerDay));
   UpdateBookAvailability (mkEnv 5 0) 100 (mkAvailabilityBody (Some 1) None);
   ReturnBook (mkEnv (20 * msPerDay) 3000) librarian9 1000 None;
   UpdateBookAvailability (mkEnv 6 0) 100 (mkAvailabilityBody (Some 7) (Some 3))].

(** ** The preconditions of a loan *)

Inductive IssueError :=
| UserNotFound
| BorrowerInactive
| BookNotFound
| Unavailable
| DuplicateLoan
| LimitExceeded
| OutstandingFine.

Definition borrowerOf (s : Store) (body : IssueBody) : option User.t :=
  Coll.findById User._id (issue_userId body) (users s).

Definition bookOf (s : Store) (body : IssueBody) : option Book.t :=
  Coll.findById Book._id (issue_bookId body) (books s).

Definition openLoans (user : ObjectId) (s : Store) : Z :=
  Z.of_nat (List.length (filter (Transactions.isOpenLoanOf user) (transactions s))).

(** The precondition [e] of a loan fails in store [s] for the request
    [body]. *)
Definition violated (e : IssueError) (s : Store) (body : IssueBody) : bool :=
  match e with
  | UserNotFound => negb (isSome (borrowerOf s body))
  | BorrowerInactive =>
      match borrowerOf s body with
      | Some u => negb (UserStatus.eqb (User.status u) UserStatus.active)
      | None => false
      end
  | BookNotFound => negb (isSome (bookOf s body))
  | Unavailable =>
      match bookOf s body with
      | Some b => (Book.availableCopies b <=? 0)
                  || negb (BookStatus.eqb (Book.status b) BookStatus.available)
      | None => false
      end
  | DuplicateLoan =>
      existsb (Transactions.isOpenLoan (issue_userId body) (issue_bookId body))
              (transactions s)
  | LimitExceeded =>
      match borrowerOf s body with
      | Some u => borrowingLimit (User.role u) <=? openLoans (issue_userId body) s
      | None => false
      end
  | OutstandingFine =>
      existsb (Fines.isPendingOf (issue_userId body)) (fines s)
  end.

(** The error each failing precondition is answered with. *)
Definition errorOf (e : IssueError) (s : Store) (body : IssueBody) : Response :=
  match e with
  | UserNotFound => mkResponse 404 false msgUserNotFound
  | BorrowerInactive => mkResponse 400 false msgUserInactive
  | BookNotFound => mkResponse 404 false msgBookNotFound
  | Unavailable => mkResponse 400 false msgBookUnavailable
  | DuplicateLoan => mkResponse 400 false msgDuplicateLoan
  | LimitExceeded =>
      mkResponse 400 false
        (msgLimit (match borrowerOf s body with
                   | Some u => borrowingLimit (User.role u)
                   | None => 0
                   end))
  | OutstandingFine => mkResponse 400 false msgOutstandingFine
  end.

(** The checks of [issueBook] in the order the handler makes them. *)
Definition firstViolated (s : Store) (body : IssueBody) : option IssueError :=
  find (fun e => violated e s body)
       [UserNotFound; BorrowerInactive; BookNotFound; Unavailable;
        DuplicateLoan; LimitExceeded; OutstandingFine].

(** The position of a check in the handler. *)
Definition rank (e : IssueError) : nat :=
  match e with
  | UserNotFound => 0
  | BorrowerInactive => 1
  | BookNotFound => 2
  | Unavailable => 3
  | DuplicateLoan => 4
  | LimitExceeded => 5
  | OutstandingFine => 6
  end.

(** What [issueBook] does once every check has passed. *)
Definition issueCommit (env : Env) (staff : AuthUser) (body : IssueBody)
    (book : Book.t) : Handler unit :=
  Transactions.create env (issue_userId body) (issue_bookId body)
                      (issue_dueDate body) (auth_id staff) ;;
  Books.save (Books.with_availableCopies (Book.availableCopies book - 1) book) ;;
  json 201 true "Book issued successfully".

Definition inactiveStore : Store :=
  mkStore
    [User.mk 1 Role.borrower UserStatus.inactive]
    [Book.mk 100 1 0 BookStatus.available 0]
    [] [] [].

(** The end of [returnBook]: the copy goes back to the book that
    [populate('bookId')] found. *)
Definition releaseCopy (populatedBook : option Book.t) : Handler unit :=
  bookRef <- orElse populatedBook (throw nullDeref) ;;
  b <- Books.findById (Book._id bookRef) ;;
  book <- orElse b (throw nullDeref) ;;
  Books.save (Books.with_availableCopies (Book.availableCopies book + 1) book) ;;
  json 200 true "Book returned successfully".

(** The fine [returnBook] creates for a late return. *)
Definition overdueFine (env : Env) (t : Transaction.t) (u : User.t) : Fine.t :=
  Fine.mk (newObjectId env) (User._id u) (Transaction._id t)
    (inject_Z (ceilDays (now env - Transaction.dueDate t)) * dailyRate)%Q
    Reason.overdue PaymentStatus.pending None None None None (now env).

(** A document that passes the validators and the save hook of its
    schema, as every document written by [save] or [create] does. *)
Definition validTransaction (t : Transaction.t) : Prop :=
  Transactions.validate t = None /\ Transactions.preSave t = None.

(** The fine amount stored on a loan. *)
Definition storedFineAmount (id : ObjectId) (s : Store) : option Q :=
  option_map Transaction.fineAmount
             (Coll.findById Transaction._id id (transactions s)).

Definition lateStore : Store :=
  mkStore
    [User.mk 1 Role.borrower UserStatus.active]
    [Book.mk 100 1 0 BookStatus.available 0]
    [Transaction.mk 1000 1 100 0 (14 * msPerDay) None 0 TxStatus.issued 9
                    None None 0]
    [] [].

Definition lateEnv : Env := mkEnv (15 * msPerDay) 3000.

Definition lateLoan : Transaction.t :=
  Transaction.mk 1000 1 100 0 (14 * msPerDay) None 0 TxStatus.issued 9
                 None None 0.

(** The loan [issueBook] creates and the store it leaves on success. *)
Definition issuedLoan (env : Env) (staff : AuthUser) (body : IssueBody)
    : Transaction.t :=
  Transaction.mk (newObjectId env) (issue_userId body) (issue_bookId body)
    (now env) (issue_dueDate body) None 0 TxStatus.issued (auth_id staff)
    None None (now env).

Definition issuedStore (env : Env) (staff : AuthUser) (body : IssueBody)
    (book : Book.t) (s : Store) : Store :=
  set_books
    (Coll.replaceOne Book._id
       (Books.with_availableCopies (Book.availableCopies book - 1) book)
       (books s))
    (set_transactions
       (Coll.insertOne (issuedLoan env staff body) (transactions s)) s).

(** The available copies of a book of the store. *)
Definition availableOf (book : ObjectId) (s : Store) : option Z :=
  option_map Book.availableCopies (Coll.findById Book._id book (books s)).

Definition sameDayIssue : IssueBody := mkIssueBody 1 100 (14 * msPerDay).
Definition sameDayIssueEnv : Env := mkEnv 0 1000.
Definition sameDayReturnEnv : Env := mkEnv 3600000 3000.

(** ** The outstanding-fine gate *)

(** Every precondition of a loan other than the one on fines holds. *)
Definition otherPreconditionsHold (s : Store) (body : IssueBody) : Prop :=
  forall e, e <> OutstandingFine -> violated e s body = false.

Definition hasPendingFine (user : ObjectId) (s : Store) : Prop :=
  exists f, In f (fines s) /\ Fine.userId f = user
            /\ Fine.paymentStatus f = PaymentStatus.pending.

(** Every fine of the borrower is paid or waived. *)
Definition allSettled (user : ObjectId) (s : Store) : Prop :=
  forall f, In f (fines s) -> Fine.userId f = user ->
            Fine.paymentStatus f = PaymentStatus.paid
            \/ Fine.paymentStatus f = PaymentStatus.waived.

(** Borrower 1 borrows book 100 and returns it in time; staff then records
    a fine of amount 0 on that loan. *)
Definition zeroFineStore : Store :=
  fst (asyncHandler
         (createFine (mkEnv 7200000 3001)
                     (mkCreateFineBody 1 1000 0 Reason.other None))
         (fst (asyncHandler (returnBook sameDayReturnEnv librarian9 1000 None)
                 (fst (asyncHandler
                         (issueBook sameDayIssueEnv librarian9 sameDayIssue)
                         demoStore))))).

Definition secondIssueEnv : Env := mkEnv 10800000 1001.

(** ** Reservations: vocabulary *)

Definition bookAvailableError : Response := mkResponse 400 false msgBookAvailable.

(** Book 100 is under maintenance with one copy on the shelf. *)
Definition maintenanceStore : Store :=
  mkStore
    [User.mk 2 Role.borrower UserStatus.active]
    [Book.mk 100 1 1 BookStatus.maintenance 0]
    [] [] [].

Definition borrower2 : AuthUser := mkAuthUser 2 Role.borrower.
Definition reserveEnv : Env := mkEnv 2 2000.
Definition reserve100 : ReserveBody := mkReserveBody 100 (30 * msPerDay).

(** ** Fines: vocabulary *)

(** A request on a fine. *)
Inductive FineOp :=
| ProcessFinePayment (env : Env) (staff : AuthUser) (body : PayBody)
| WaiveFine (env : Env) (staff : AuthUser) (reason : option string)
| UpdateFine (env : Env) (body : UpdateFineBody)
| DeleteFine.

Definition fineRequest (op : FineOp) (id : ObjectId) (s : Store)
    : Store * Reply :=
  match op with
  | ProcessFinePayment env staff body =>
      asyncHandler (processFinePayment env staff id body) s
  | WaiveFine env staff reason => asyncHandler (waiveFine env staff id reason) s
  | UpdateFine env body => asyncHandler (updateFine env id body) s
  | DeleteFine => asyncHandler (deleteFine id) s
  end.

Definition isPayOrWaive (op : FineOp) : bool :=
  match op with
  | ProcessFinePayment _ _ _ | WaiveFine _ _ _ => true
  | UpdateFine _ _ | DeleteFine => false
  end.

(** The loan of [lateStore] comes back one day late, which creates fine
    3000 of amount 1, and staff waives that fine. *)
Definition waivedStore : Store :=
  fst (asyncHandler
         (waiveFine (mkEnv (16 * msPerDay) 0) librarian9 3000 (Some "goodwill"))
         (fst (asyncHandler (returnBook lateEnv librarian9 1000 None) lateStore))).

Definition raiseAmount : FineOp :=
  UpdateFine (mkEnv (17 * msPerDay) 0)
             (mkUpdateFineBody (Some 99%Q) (Some Reason.damage) None).

Definition paidStore : Store :=
  fst (asyncHandler
         (processFinePayment (mkEnv (16 * msPerDay) 0) librarian9 3000
            (mkPayBody (Some PaymentMethod.cash) None))
         (fst (asyncHandler (returnBook lateEnv librarian9 1000 None) lateStore))).

Definition extendEnv : Env := mkEnv (10 * msPerDay) 0.

(** ** The reservation queue of a book *)

Definition activePriorities (book : ObjectId) (s : Store) : list Z :=
  map Reservation.priority
      (filter (Reservations.isActiveFor book) (reservations s)).

Definition ranks (n : nat) : list Z := map Z.of_nat (seq 1 n).

(** The priorities of the active reservations of a book are [1..N], each
    exactly once, [N] being the number of those reservations. *)
Definition queueInvariant (book : ObjectId) (s : Store) : Prop :=
  Permutation (activePriorities book s)
              (ranks (List.length (activePriorities book s))).

(** A request to the reservation queue. *)
Inductive QueueOp :=
| CreateReservation (env : Env) (user : AuthUser) (body : ReserveBody)
| CancelReservation (env : Env) (user : AuthUser) (id : ObjectId)
| FulfillReservation (env : Env) (staff : AuthUser) (id : ObjectId)
| AutoExpireReservations (env : Env).

Definition queueRequest (op : QueueOp) (s : Store) : Store * Reply :=
  match op with
  | CreateReservation env user body =>
      asyncHandler (createReservation env user body) s
  | CancelReservation env user id =>
      asyncHandler (cancelReservation env user id) s
  | FulfillReservation env staff id =>
      asyncHandler (fulfillReservation env staff id) s
  | AutoExpireReservations env => asyncHandler (autoExpireReservations env) s
  end.

Definition serveQueue (ops : list QueueOp) (s : Store) : Store :=
  fold_left (fun s op => fst (queueRequest op s)) ops s.

(** Book 100 has its only copy on loan; nobody has reserved it yet. *)
Definition queueStore : Store :=
  mkStore
    [User.mk 1 Role.borrower UserStatus.active;
     User.mk 2 Role.borrower UserStatus.active;
     User.mk 3 Role.borrower UserStatus.active;
     User.mk 9 Role.librarian UserStatus.active]
    [Book.mk 100 1 0 BookStatus.available 0]
    [] [] [].

Definition borrower1 : AuthUser := mkAuthUser 1 Role.borrower.
Definition borrower3 : AuthUser := mkAuthUser 3 Role.borrower.

(** Borrower 1 reserves until time 10, borrower 2 until time 100. *)
Definition twoReservations : list QueueOp :=
  [CreateReservation (mkEnv 0 2001) borrower1 (mkReserveBody 100 10);
   CreateReservation (mkEnv 1 2002) borrower2 (mkReserveBody 100 100)].

Definition sweepEnv : Env := mkEnv 50 0.

(** ... and the sweep runs at time 50. *)
Definition sweepOps : list QueueOp :=
  (twoReservations ++ [AutoExpireReservations sweepEnv])%list.

(** ... and borrower 3 reserves after the sweep. *)
Definition sweepThenReserve : list QueueOp :=
  (sweepOps ++ [CreateReservation (mkEnv 60 2003) borrower3
                                  (mkReserveBody 100 200)])%list.

(** Scenario D: three borrowers reserve in turn, the first one cancels. *)
Definition scenarioD : list QueueOp :=
  [CreateReservation (mkEnv 0 2001) borrower1 (mkReserveBody 100 1000);
   CreateReservation (mkEnv 1 2002) borrower2 (mkReserveBody 100 1000);
   CreateReservation (mkEnv 2 2003) borrower3 (mkReserveBody 100 1000);
   CancelReservation (mkEnv 3 0) borrower1 2001].

Definition statusOf (id : ObjectId) (s : Store) : option ResStatus.t :=
  option_map Reservation.status
             (Coll.findById Reservation._id id (reservations s)).

(** The rank the loop of [updateReservationPriorities] gives to the
    reservation [id]: its position in the list [l], counted from [i + 1]. *)
Fixpoint rankIn (l : list Reservation.t) (i : Z) (id : ObjectId) : option Z :=
  match l with
  | [] => None
  | r :: l' =>
      if Nat.eqb (Reservation._id r) id
      then Some (i + 1)
      else rankIn l' (i + 1) id
  end.

Definition reranked (l : list Reservation.t) (i : Z) (r : Reservation.t)
    : Reservation.t :=
  match rankIn l i (Reservation._id r) with
  | Some k => Reservations.with_priority k r
  | None => r
  end.

(** What the partial unique index guarantees of a collection. *)
Definition uniqueActive (c : list Reservation.t) : Prop :=
  forall a b, In a c -> In b c ->
    Reservations.isActive a = true -> Reservations.isActive b = true ->
    Reservation.userId a = Reservation.userId b ->
    Reservation.bookId a = Reservation.bookId b ->
    Reservation._id a = Reservation._id b.

(** A well-formed reservation collection: unique identifiers, documents
    that pass the save hook, and the unique index. *)
Definition collectionWf (c : list Reservation.t) : Prop :=
  NoDup (map Reservation._id c)
  /\ Forall (fun r => Reservations.preSave r = None) c
  /\ uniqueActive c.

(** ... in which every queue is ranked [1..N]. *)
Definition queueWf (s : Store) : Prop :=
  collectionWf (reservations s) /\ forall book, queueInvariant book s.

Definition isSweep (op : QueueOp) : bool :=
  match op with
  | AutoExpireReservations _ => true
  | _ => false
  end.

(** * Further vocabulary: the whole lifecycle *)

(** ** Every request of the lifecycle *)

Inductive Request :=
| Ledger (op : LedgerOp)
| ExtendDueDate (env : Env) (id : ObjectId) (body : ExtendBody)
| CreateFine (env : Env) (body : CreateFineBody)
| OnFine (op : FineOp) (id : ObjectId)
| Queue (op : QueueOp).

Definition handle (r : Request) (s : Store) : Store * Reply :=
  match r with
  | Ledger op => ledgerRequest op s
  | ExtendDueDate env id body => asyncHandler (extendDueDate env id body) s
  | CreateFine env body => asyncHandler (createFine env body) s
  | OnFine op id => fineRequest op id s
  | Queue op => queueRequest op s
  end.

(** The requests are served one after the other. *)
Definition serve (rs : list Request) (s : Store) : Store :=
  fold_left (fun s r => fst (handle r s)) rs s.

(** A staff adjustment of the copy counts. *)
Definition isAdjustment (r : Request) : bool :=
  match r with
  | Ledger (UpdateBookAvailability _ _ _) => true
  | _ => false
  end.

(** ** Loans *)

Definition isOpenLoanFor (book : ObjectId) (t : Transaction.t) : bool :=
  Nat.eqb (Transaction.bookId t) book
  && TxStatus.eqb (Transaction.status t) TxStatus.issued.

(** The copies of a book that are out on loan. *)
Definition openLoansFor (book : ObjectId) (s : Store) : Z :=
  Coll.countDocuments (isOpenLoanFor book) (transactions s).

(** A stored loan: it passes its validators and save hook, an issued loan
    has no return date and a returned one has. *)
Definition loanWf (t : Transaction.t) : Prop :=
  validTransaction t
  /\ (Transaction.status t = TxStatus.issued -> Transaction.returnDate t = None)
  /\ (Transaction.status t = TxStatus.returned ->
      exists r, Transaction.returnDate t = Some r
                /\ Transaction.issueDate t <= r).

Definition withinLimit (s : Store) : Prop :=
  forall uid u,
    Coll.findById User._id uid (users s) = Some u ->
    openLoans uid s <= borrowingLimit (User.role u).

Definition noDuplicateLoan (s : Store) : Prop :=
  forall uid bid,
    Coll.countDocuments (Transactions.isOpenLoan uid bid) (transactions s) <= 1.

Definition circulationWf (s : Store) : Prop :=
  NoDup (map Transaction._id (transactions s))
  /\ Forall loanWf (transactions s)
  /\ withinLimit s
  /\ noDuplicateLoan s.

(** Every copy of every book is either on the shelf or out on loan. *)
Definition accounted (s : Store) : Prop :=
  forall b, In b (books s) ->
    Book.availableCopies b + openLoansFor (Book._id b) s = Book.totalCopies b.

Definition accountingWf (s : Store) : Prop :=
  NoDup (map Transaction._id (transactions s))
  /\ ledgerInvariant s
  /\ accounted s.

(** The stores [returnBook] can leave for an issued loan [t]: [s0] after
    the fine step, then the loan marked returned, then the copy released.
    Each later step may fail and leave the earlier writes in place. *)
Definition afterFine (env : Env) (t : Transaction.t) (s : Store)
    (fa : Q) (s0 : Store) : Prop :=
  (now env <= Transaction.dueDate t /\ fa = 0%Q /\ s0 = s)
  \/ (Transaction.dueDate t < now env
      /\ exists u,
           Coll.findById User._id (Transaction.userId t) (users s) = Some u
           /\ Coll.findById Fine._id (newObjectId env) (fines s) = None
           /\ fa = Fine.amount (overdueFine env t u)
           /\ s0 = set_fines (Coll.insertOne (overdueFine env t u) (fines s)) s).

Definition afterRelease (t : Transaction.t) (s s1 s' : Store) : Prop :=
  match Coll.findById Book._id (Transaction.bookId t) (books s) with
  | None => s' = s1
  | Some b =>
      let b' := Books.with_availableCopies (Book.availableCopies b + 1) b in
      (copiesInvariant b'
       /\ s' = set_books (Coll.replaceOne Book._id b' (books s)) s1)
      \/ (~ copiesInvariant b' /\ s' = s1)
  end.

(** [1] for a document that matches a filter, [0] otherwise. *)
Definition indicator (b : bool) : Z := if b then 1 else 0.

(** A well-formed store with no loan and one shelf copy of book 100, and
    requests of every kind on it. *)
Definition busyDay : list Request :=
  [Ledger (IssueBook (mkEnv 0 1000) librarian9 (mkIssueBody 1 100 (14 * msPerDay)));
   Queue (CreateReservation (mkEnv 5 2000) borrower2 reserve100);
   ExtendDueDate (mkEnv 6 0) 1000 (mkExtendBody (Some (15 * msPerDay)) None);
   Ledger (ReturnBook (mkEnv (20 * msPerDay) 3000) librarian9 1000 None);
   OnFine (ProcessFinePayment (mkEnv (21 * msPerDay) 0) librarian9
             (mkPayBody (Some PaymentMethod.cash) None)) 3000;
   Queue (FulfillReservation (mkEnv (22 * msPerDay) 0) librarian9 2000);
   Ledger (IssueBook (mkEnv (23 * msPerDay) 1001) librarian9
             (mkIssueBody 2 100 (40 * msPerDay)))].

Definition notIssuedError : Response :=
  mkResponse 400 false "Book is not currently issued".

(** The loan as [returnBook] stores it. *)
Definition returnedLoan (id : ObjectId) (s : Store) : Prop :=
  exists d, Coll.findById Transaction._id id (transactions s) = Some d
            /\ Transaction.status d = TxStatus.returned.

(** Book 100 with its single copy on the shelf although loan 1000 is
    still out: staff has reset the counts by hand. *)
Definition fullShelfStore : Store :=
  mkStore
    [User.mk 1 Role.borrower UserStatus.active]
    [Book.mk 100 1 1 BookStatus.available 0]
    [Transaction.mk 1000 1 100 0 (14 * msPerDay) None 0 TxStatus.issued 9
                    None None 0]
    [] [].

Definition onTimeEnv : Env := mkEnv msPerDay 3000.

(** Two loans that differ at most in what [extendDueDate] writes. *)
Definition sameButDueDate (t t' : Transaction.t) : Prop :=
  Transaction._id t' = Transaction._id t
  /\ Transaction.userId t' = Transaction.userId t
  /\ Transaction.bookId t' = Transaction.bookId t
  /\ Transaction.issueDate t' = Transaction.issueDate t
  /\ Transaction.returnDate t' = Transaction.returnDate t
  /\ Transaction.fineAmount t' = Transaction.fineAmount t
  /\ Transaction.status t' = Transaction.status t
  /\ Transaction.issuedBy t' = Transaction.issuedBy t
  /\ Transaction.returnedBy t' = Transaction.returnedBy t.

Definition extendNotIssuedError : Response :=
  mkResponse 400 false "Can only extend due date for issued books".

(** ** Fines *)

(** Two fines that charge the same: same borrower, loan, amount, reason. *)
Definition sameCharge (f f' : Fine.t) : Prop :=
  Fine.userId f' = Fine.userId f
  /\ Fine.transactionId f' = Fine.transactionId f
  /\ Fine.amount f' = Fine.amount f
  /\ Fine.reason f' = Fine.reason f.

(** One write to the fine collection, as the handlers perform it:
    [Fine.create], the save of [processFinePayment] and [waiveFine], the
    save of [updateFine], [Fine.findByIdAndDelete]. *)
Inductive FineStep (c : list Fine.t) : list Fine.t -> Prop :=
| fs_same : FineStep c c
| fs_created f :
    Coll.findById Fine._id (Fine._id f) c = None ->
    Fine.paymentStatus f = PaymentStatus.pending ->
    Fine.paymentDate f = None ->
    Fine.processedBy f = None ->
    Qle_bool 0 (Fine.amount f) = true ->
    FineStep c (Coll.insertOne f c)
| fs_settled f f' :
    Coll.findById Fine._id (Fine._id f') c = Some f ->
    Fine.paymentStatus f = PaymentStatus.pending ->
    Fine.paymentStatus f' <> PaymentStatus.pending ->
    sameCharge f f' ->
    Qle_bool 0 (Fine.amount f') = true ->
    Fine.processedBy f' <> None ->
    (Fine.paymentStatus f' = PaymentStatus.paid /\ Fine.paymentDate f' <> None
     \/ Fine.paymentStatus f' = PaymentStatus.waived
        /\ Fine.paymentDate f' = Fine.paymentDate f) ->
    FineStep c (Coll.replaceOne Fine._id f' c)
| fs_updated f f' :
    Coll.findById Fine._id (Fine._id f') c = Some f ->
    Fine.paymentStatus f <> PaymentStatus.paid ->
    Fine.userId f' = Fine.userId f ->
    Fine.transactionId f' = Fine.transactionId f ->
    Fine.paymentStatus f' = Fine.paymentStatus f ->
    Fine.paymentDate f' = Fine.paymentDate f ->
    Fine.processedBy f' = Fine.processedBy f ->
    Qle_bool 0 (Fine.amount f') = true ->
    FineStep c (Coll.replaceOne Fine._id f' c)
| fs_deleted i f :
    Coll.findById Fine._id i c = Some f ->
    Fine.paymentStatus f <> PaymentStatus.paid ->
    FineStep c (Coll.deleteOne Fine._id i c).

(** A stored fine: a non-negative amount, a payment date exactly when it
    is paid, a processing staff member exactly when it is settled. *)
Definition fineWf (f : Fine.t) : Prop :=
  Qle 0 (Fine.amount f)
  /\ (Fine.paymentDate f <> None <-> Fine.paymentStatus f = PaymentStatus.paid)
  /\ (Fine.processedBy f <> None
      <-> Fine.paymentStatus f <> PaymentStatus.pending).

Definition finesWf (s : Store) : Prop :=
  NoDup (map Fine._id (fines s)) /\ Forall fineWf (fines s).

(** A paid fine no request can touch, and requests that try. *)
Definition tamperWithPaid : list Request :=
  [OnFine raiseAmount 3000;
   OnFine DeleteFine 3000;
   OnFine (WaiveFine (mkEnv (18 * msPerDay) 0) librarian9 None) 3000;
   CreateFine (mkEnv (19 * msPerDay) 3000)
              (mkCreateFineBody 1 1000 5%Q Reason.damage None)].



(** ** Reservations *)

(** The collection once [updateReservationPriorities book] has run to
    its end: every active reservation of the book carries its rank in the
    order of [reservationDate]. *)
Definition rerankedQueue (book : ObjectId) (c : list Reservation.t)
    : list Reservation.t :=
  map (reranked
         (Reservations.sortByDate (filter (Reservations.isActiveFor book) c)) 0)
      c.

(** The collection after the sweep of [autoExpireReservations]. *)
Definition swept (at_ : Date) (c : list Reservation.t) : list Reservation.t :=
  map (fun r => if isExpiredAt at_ r
                then Reservations.with_status ResStatus.expired at_ r
                else r) c.

(** Two reservations that differ at most in their priority. *)
Definition sameButPriority (r r' : Reservation.t) : Prop :=
  Reservation._id r' = Reservation._id r
  /\ Reservation.userId r' = Reservation.userId r
  /\ Reservation.bookId r' = Reservation.bookId r
  /\ Reservation.reservationDate r' = Reservation.reservationDate r
  /\ Reservation.expiryDate r' = Reservation.expiryDate r
  /\ Reservation.status r' = Reservation.status r
  /\ Reservation.fulfilledBy r' = Reservation.fulfilledBy r
  /\ Reservation.fulfilledDate r' = Reservation.fulfilledDate r.

(** The requests that may take the reservation [r], stored under [id],
    out of its queue: a cancellation by its owner or by staff, its
    fulfilment, and a sweep after its expiry date. *)
Definition mayClose (req : Request) (id : ObjectId) (r : Reservation.t)
    : bool :=
  match req with
  | Queue (CancelReservation _ user id') =>
      Nat.eqb id' id
      && (Nat.eqb (Reservation.userId r) (auth_id user)
          || isStaff (auth_role user))
  | Queue (FulfillReservation _ _ id') => Nat.eqb id' id
  | Queue (AutoExpireReservations env) => Reservation.expiryDate r <? now env
  | _ => false
  end.

(** One write to the reservation collection, as the handlers perform it
    on a well-formed collection. *)
Inductive QueueStep (c : list Reservation.t) : list Reservation.t -> Prop :=
| qs_same : QueueStep c c
| qs_joined r :
    Reservations.preSave r = None ->
    Reservations.uniqueIndex r c = None ->
    Coll.findById Reservation._id (Reservation._id r) c = None ->
    Reservations.isActive r = true ->
    QueueStep c (Coll.insertOne r c)
| qs_left r r' :
    Coll.findById Reservation._id (Reservation._id r') c = Some r ->
    Reservations.isActive r = true ->
    Reservations.isActive r' = false ->
    Reservation.userId r' = Reservation.userId r ->
    Reservation.bookId r' = Reservation.bookId r ->
    Reservations.preSave r' = None ->
    QueueStep c (rerankedQueue (Reservation.bookId r)
                   (Coll.replaceOne Reservation._id r' c))
| qs_swept at_ : QueueStep c (swept at_ c).

(** The book whose queue a request re-ranks: the book of the reservation
    a cancellation or a fulfilment addresses. *)
Definition closedBook (op : QueueOp) (s : Store) : option ObjectId :=
  match op with
  | CancelReservation _ _ id | FulfillReservation _ _ id =>
      option_map Reservation.bookId
                 (Coll.findById Reservation._id id (reservations s))
  | _ => None
  end.

(** Borrowers 1 and 2 are queued for book 100. *)
Definition twoQueued : Store :=
  serve (map Queue twoReservations) queueStore.

(** ** Queries: sort, skip, limit *)

Section Queries.
Context {D : Type}.

(** [sort({ key: 1 })] on an integer or date key, stable. *)
Fixpoint insertBy (key : D -> Z) (d : D) (l : list D) : list D :=
  match l with
  | [] => [d]
  | x :: l' => if key d <? key x then d :: l else x :: insertBy key d l'
  end.

Definition sortBy (key : D -> Z) (l : list D) : list D :=
  fold_right (insertBy key) [] l.
End Queries.

(** [getBookReservationQueue]: the [reservations] of the reply;
    [queueLength] is their number. *)
Definition getBookReservationQueue (bookId : ObjectId) (s : Store)
    : list Reservation.t :=
  sortBy Reservation.priority
         (filter (Reservations.isActiveFor bookId) (reservations s)).

(** After the sweep has left the queue of book 100 with priorities 2 and
    2, borrower 2 cancels. *)
Definition brokenQueue : Store :=
  serve (map Queue sweepThenReserve) queueStore.

Definition cancelSecond : QueueOp :=
  CancelReservation (mkEnv 70 0) borrower2 2002.

(** ** Paginated listings *)

(** [req.query.page] and [req.query.limit] as [parseInt] reads them;
    [None] for an absent parameter. *)
Record PageQuery := mkPageQuery {
  q_page : option Z;
  q_limit : option Z
}.

(** [validatePagination], the middleware in front of every paginated
    route: [page] an integer from 1, [limit] an integer from 1 to 100,
    both optional. *)
Definition validatePagination (q : PageQuery) : bool :=
  match q_page q with Some p => 1 <=? p | None => true end
  && match q_limit q with Some l => (1 <=? l) && (l <=? 100) | None => true end.

(** [parseInt(x) || d]: an absent parameter and [0] give the default. *)
Definition orDefault (o : option Z) (d : Z) : Z :=
  match o with
  | Some n => if n =? 0 then d else n
  | None => d
  end.

Definition pageOf (q : PageQuery) : Z := orDefault (q_page q) 1.
Definition limitOf (q : PageQuery) : Z := orDefault (q_limit q) 10.

(** [.skip((page - 1) * limit).limit(limit)], for the values
    [validatePagination] lets through. *)
Definition skipLimit {D} (q : PageQuery) (l : list D) : list D :=
  firstn (Z.to_nat (limitOf q))
         (skipn (Z.to_nat ((pageOf q - 1) * limitOf q)) l).

Record Pagination := mkPagination {
  p_page : Z;
  p_limit : Z;
  p_total : Z;
  p_pages : Z
}.

(** [{ page, limit, total, pages: Math.ceil(total / limit) }]. *)
Definition pagination (q : PageQuery) (total : Z) : Pagination :=
  mkPagination (pageOf q) (limitOf q) total
               (Qceiling (inject_Z total / inject_Z (limitOf q))).

(** [getOverdueTransactions]: the transactions of the reply, each with
    its [overdueDays], and the pagination. *)
Definition getOverdueTransactions (env : Env) (q : PageQuery) (s : Store)
    : list (Transaction.t * Z) * Pagination :=
  let transactions_ :=
    skipLimit q (sortBy Transaction.dueDate
                   (filter (isOverdue (now env)) (transactions s))) in
  let total := Coll.countDocuments (isOverdue (now env)) (transactions s) in
  (map (fun t => (t, ceilDays (now env - Transaction.dueDate t))) transactions_,
   pagination q total).

(** [getExpiredReservations]. *)
Definition getExpiredReservations (env : Env) (q : PageQuery) (s : Store)
    : list Reservation.t * Pagination :=
  (skipLimit q (sortBy Reservation.expiryDate
                  (filter (isExpiredAt (now env)) (reservations s))),
   pagination q (Coll.countDocuments (isExpiredAt (now env)) (reservations s))).

(** The listing page by page, [1 .. pages]. *)
Definition allPages {D} (lim : option Z) (l : list D) : list (list D) :=
  map (fun p => skipLimit (mkPageQuery (Some p) lim) l)
      (ranks (Z.to_nat (p_pages (pagination (mkPageQuery None lim)
                                            (Z.of_nat (List.length l)))))).

Definition firstPageOfFive : PageQuery := mkPageQuery (Some 1) (Some 5).

(** The counts [updateBookAvailability] saves: those of the request, and
    for a count the request leaves out the one stored. *)
Definition requestedCopies (body : AvailabilityBody) (b : Book.t) : Z * Z :=
  (match body_totalCopies body with
   | Some v => v
   | None => Book.totalCopies b
   end,
   match body_availableCopies body with
   | Some v => v
   | None => Book.availableCopies b
   end).

(** [getUserOutstandingFines]: the pending fines of the borrower, which
    the handler lists, counts and adds up; here in collection order. *)
Definition outstandingFines (user : ObjectId) (s : Store) : list Fine.t :=
  filter (Fines.isPendingOf user) (fines s).

(** ** User controller *)

Definition set_users (c : list User.t) (s : Store) : Store :=
  mkStore c (books s) (transactions s) (fines s) (reservations s).

(** [deleteUser]: the account is removed whatever loans, fines or
    reservations refer to it. *)
Definition deleteUser (admin : AuthUser) (id : ObjectId) : Handler unit :=
  u <- Users.findById id ;;
  user <- orElse u (json 404 false msgUserNotFound) ;;
  when_ (Nat.eqb (User._id user) (auth_id admin))
        (json 400 false "Cannot delete your own account") ;;
  modify (fun s => set_users (Coll.deleteOne User._id id (users s)) s) ;;
  json 200 true "User deleted successfully".

Definition admin8 : AuthUser := mkAuthUser 8 Role.admin.

(** Borrower 1 borrows book 100 until day 14 ... *)
Definition issuedDemoStore : Store :=
  fst (asyncHandler (issueBook sameDayIssueEnv librarian9 sameDayIssue)
                    demoStore).

(** ... and the administrator deletes the account of borrower 1 while
    the loan is out. *)
Definition orphanedLoanStore : Store :=
  fst (asyncHandler (deleteUser admin8 1) issuedDemoStore).

(** Loan 1000 of [lateStore] comes back two days and one millisecond
    after its due date. *)
Definition thirdDayEnv : Env := mkEnv (16 * msPerDay + 1) 3000.

(** ** Scenario C: a pending fine of amount 5 *)

(** Borrower 1 has returned book 100 in time and staff has recorded a
    fine of amount 5 on that loan ... *)
Definition pendingFiveStore : Store :=
  fst (asyncHandler
         (createFine (mkEnv 7200000 3001)
                     (mkCreateFineBody 1 1000 5 Reason.damage None))
         (fst (asyncHandler (returnBook sameDayReturnEnv librarian9 1000 None)
                            issuedDemoStore))).

(** ... which is then paid. *)
Definition settledFiveStore : Store :=
  fst (fineRequest
         (ProcessFinePayment (mkEnv 9000000 0) librarian9
                             (mkPayBody (Some PaymentMethod.cash) None))
         3001 pendingFiveStore).

(** ** Settled fines *)

(** Two fines with the same identity and settlement: identifier,
    borrower, loan, paymentStatus, paymentDate, paymentMethod and
    processedBy. *)
Definition sameSettlement (f f' : Fine.t) : Prop :=
  Fine._id f' = Fine._id f
  /\ Fine.userId f' = Fine.userId f
  /\ Fine.transactionId f' = Fine.transactionId f
  /\ Fine.paymentStatus f' = Fine.paymentStatus f
  /\ Fine.paymentDate f' = Fine.paymentDate f
  /\ Fine.paymentMethod f' = Fine.paymentMethod f
  /\ Fine.processedBy f' = Fine.processedBy f.
(** * Properties *)

(** ** Store predicates kept by a handler *)

Section Preservation.
Variable P : Store -> Prop.

Lemma preserves_ret {A} (a : A) : preserves P (ret a).
Proof. intros s H; exact H. Qed.

Lemma preserves_json {A} c ok msg : preserves P (@json A c ok msg).
Proof. intros s H; exact H. Qed.

Lemma preserves_throw {A} e : preserves P (@throw A e).
Proof. intros s H; exact H. Qed.

Lemma preserves_gets {A} (f : Store -> A) : preserves P (gets f).
Proof. intros s H; exact H. Qed.

Lemma preserves_check o : preserves P (check o).
Proof. destruct o; intros ? H; exact H. Qed.

Lemma preserves_bind {A B} (m : Handler A) (k : A -> Handler B) :
  preserves P m -> (forall a, preserves P (k a)) -> preserves P (bind m k).
Proof.
  intros Hm Hk s H. unfold bind. specialize (Hm s H).
  destruct (m s) as [s' [a | r | e]]; simpl in *; auto.
  apply Hk; exact Hm.
Qed.

Lemma preserves_when c (h : Handler unit) :
  preserves P h -> preserves P (when_ c h).
Proof. destruct c; simpl; auto using preserves_ret. Qed.

Lemma preserves_orElse {A} (o : option A) h :
  preserves P h -> preserves P (orElse o h).
Proof. destruct o; simpl; auto using preserves_ret. Qed.

Lemma preserves_modify f :
  (forall s, P s -> P (f s)) -> preserves P (modify f).
Proof. intros Hf s H; apply Hf; exact H. Qed.

Lemma preserves_if {A} (c : bool) (h1 h2 : Handler A) :
  preserves P h1 -> preserves P h2 -> preserves P (if c then h1 else h2).
Proof. destruct c; auto. Qed.

Lemma preserves_saveExisting {D} (id : D -> ObjectId) d get set :
  (forall s, P s -> P (set (Coll.replaceOne id d (get s)) s)) ->
  preserves P (Coll.saveExisting id d get set).
Proof.
  intros Hset s H. unfold Coll.saveExisting, bind, gets. simpl.
  destruct (isSome _); simpl; auto.
Qed.

Lemma preserves_insertNew {D} (id : D -> ObjectId) d get set :
  (forall s, P s -> P (set (Coll.insertOne d (get s)) s)) ->
  preserves P (Coll.insertNew id d get set).
Proof.
  intros Hset s H. unfold Coll.insertNew, bind, gets. simpl.
  destruct (isSome _); simpl; auto.
Qed.

Lemma preserves_asyncHandler {A} (h : Handler A) s :
  preserves P h -> P s -> P (fst (asyncHandler h s)).
Proof.
  intros Hh H. specialize (Hh s H). unfold asyncHandler.
  destruct (h s) as [s' [a | r | e]]; exact Hh.
Qed.
End Preservation.

Create HintDb pres.

#[local] Hint Resolve preserves_ret preserves_json preserves_throw
  preserves_gets preserves_check preserves_when preserves_orElse
  preserves_if : pres.

(** Splits a handler along its binds; the leaves go to the [pres] hints. *)
Ltac pres_step :=
  lazymatch goal with
  | |- preserves _ (bind _ _) => apply preserves_bind; [ | intros ? ]
  | |- preserves _ (match ?o with Some _ => _ | None => _ end) => destruct o
  | |- preserves _ (if _ then _ else _) => apply preserves_if
  | |- preserves _ (let _ := _ in _) => cbv zeta
  | |- _ => solve [ eauto with pres ]
  end.
Ltac pres := repeat pres_step.


Lemma validated_book b :
  Books.validate b = None -> Books.preSave b = None -> copiesInvariant b.
Proof.
  unfold Books.validate, Books.preSave, copiesInvariant.
  destruct (Z.ltb_spec (Book.totalCopies b) 0); [discriminate |].
  destruct (Z.ltb_spec (Book.availableCopies b) 0); [discriminate |].
  destruct (Z.gtb_spec (Book.availableCopies b) (Book.totalCopies b));
    [discriminate |].
  intros _ _. lia.
Qed.

Lemma replaceOne_Forall {D} (id : D -> ObjectId) (Q : D -> Prop) d c :
  Q d -> Forall Q c -> Forall Q (Coll.replaceOne id d c).
Proof.
  intros Hd Hc. unfold Coll.replaceOne. apply Forall_map.
  eapply Forall_impl; [ | exact Hc ].
  intros x Hx. destruct (Coll.hasId id (id d) x); assumption.
Qed.

Lemma Books_save_ledger b : preserves ledgerInvariant (Books.save b).
Proof.
  intros s H. unfold Books.save, bind, check.
  destruct (Books.validate b) eqn:Hv; [exact H |].
  destruct (Books.preSave b) eqn:Hp; [exact H |].
  simpl. apply preserves_saveExisting; [ | exact H ].
  intros s0 H0. unfold ledgerInvariant; simpl.
  apply replaceOne_Forall; auto using validated_book.
Qed.

Lemma Transactions_save_ledger t : preserves ledgerInvariant (Transactions.save t).
Proof.
  unfold Transactions.save. pres.
  apply preserves_saveExisting. intros s H; exact H.
Qed.

Lemma Transactions_create_ledger env u b d st :
  preserves ledgerInvariant (Transactions.create env u b d st).
Proof.
  unfold Transactions.create. pres.
  apply preserves_insertNew. intros s H; exact H.
Qed.

Lemma Fines_create_ledger env u t a r n :
  preserves ledgerInvariant (Fines.create env u t a r n).
Proof.
  unfold Fines.create. pres.
  apply preserves_insertNew. intros s H; exact H.
Qed.

#[local] Hint Resolve Books_save_ledger Transactions_save_ledger
  Transactions_create_ledger Fines_create_ledger : pres.

Lemma issueBook_ledger env staff body :
  preserves ledgerInvariant (issueBook env staff body).
Proof. unfold issueBook, Users.findById, Books.findById, Transactions.findOne,
  Transactions.countDocuments, Fines.findOne. pres. Qed.

Lemma returnBook_ledger env staff id notes :
  preserves ledgerInvariant (returnBook env staff id notes).
Proof. unfold returnBook, Users.findById, Books.findById,
  Transactions.findById. pres. Qed.

Lemma updateBookAvailability_ledger env id body :
  preserves ledgerInvariant (updateBookAvailability env id body).
Proof. unfold updateBookAvailability, Books.findById. pres. Qed.


(** C1. Whatever sequence of issueBook, returnBook and
    updateBookAvailability requests is served one after the other, each
    answered with success or with an error, every book that starts with
    [0 <= availableCopies <= totalCopies] still satisfies it afterwards. *)
Theorem C1_copies_invariant (ops : list LedgerOp) (s : Store) :
  ledgerInvariant s -> ledgerInvariant (serveLedger ops s).
Proof.
  revert s. induction ops as [| op ops IH]; intros s H; simpl; [exact H |].
  apply IH. destruct op; simpl; apply preserves_asyncHandler; auto.
  - apply issueBook_ledger.
  - apply returnBook_ledger.
  - apply updateBookAvailability_ledger.
Qed.


Lemma C1_copies_invariant_witness :
  ledgerInvariant demoStore
  /\ ledgerInvariant (serveLedger demoLedgerOps demoStore).
Proof.
  assert (H : ledgerInvariant demoStore).
  { repeat constructor; simpl; lia. }
  split; [exact H | apply (C1_copies_invariant demoLedgerOps demoStore H)].
Defined.

(** ** issueBook: the gate and the commit *)

Lemma isSome_find {A} (p : A -> bool) (l : list A) :
  isSome (find p l) = existsb p l.
Proof.
  induction l as [| x l IH]; simpl; [reflexivity |].
  destruct (p x); simpl; auto.
Qed.

Lemma geb_leb (a b : Z) : (a >=? b) = (b <=? a).
Proof. rewrite Z.geb_leb. reflexivity. Qed.

Lemma issueBook_rejects env staff body s e :
  firstViolated s body = Some e ->
  issueBook env staff body s = (s, Sent (errorOf e s body)).
Proof.
  unfold firstViolated, issueBook, Users.findById, Books.findById,
    Transactions.findOne, Transactions.countDocuments, Fines.findOne.
  unfold find, violated, errorOf, bind, gets, openLoans, borrowerOf, bookOf.
  unfold Coll.countDocuments.
  destruct (Coll.findById User._id (issue_userId body) (users s)) as [u |];
    simpl; [ | intros [= <-]; reflexivity ].
  destruct (UserStatus.eqb (User.status u) UserStatus.active);
    simpl; [ | intros [= <-]; reflexivity ].
  destruct (Coll.findById Book._id (issue_bookId body) (books s)) as [b |];
    simpl; [ | intros [= <-]; reflexivity ].
  destruct ((Book.availableCopies b <=? 0)
            || negb (BookStatus.eqb (Book.status b) BookStatus.available));
    simpl; [ intros [= <-]; reflexivity | ].
  fold (find (Transactions.isOpenLoan (issue_userId body) (issue_bookId body))
             (transactions s)).
  rewrite isSome_find.
  destruct (existsb _ (transactions s)); simpl; [ intros [= <-]; reflexivity | ].
  rewrite geb_leb.
  destruct (borrowingLimit (User.role u) <=? _);
    simpl; [ intros [= <-]; reflexivity | ].
  fold (find (Fines.isPendingOf (issue_userId body)) (fines s)).
  rewrite isSome_find.
  destruct (existsb _ (fines s)); simpl; [ intros [= <-]; reflexivity | ].
  discriminate.
Qed.

Lemma issueBook_accepts env staff body s :
  firstViolated s body = None ->
  exists book,
    bookOf s body = Some book
    /\ issueBook env staff body s = issueCommit env staff body book s.
Proof.
  unfold firstViolated, issueBook, issueCommit, Users.findById, Books.findById,
    Transactions.findOne, Transactions.countDocuments, Fines.findOne.
  unfold find, violated, bind, gets, openLoans, borrowerOf, bookOf.
  unfold Coll.countDocuments.
  destruct (Coll.findById User._id (issue_userId body) (users s)) as [u |];
    simpl; [ | discriminate ].
  destruct (UserStatus.eqb (User.status u) UserStatus.active);
    simpl; [ | discriminate ].
  destruct (Coll.findById Book._id (issue_bookId body) (books s)) as [b |];
    simpl; [ | discriminate ].
  destruct ((Book.availableCopies b <=? 0)
            || negb (BookStatus.eqb (Book.status b) BookStatus.available));
    simpl; [ discriminate | ].
  fold (find (Transactions.isOpenLoan (issue_userId body) (issue_bookId body))
             (transactions s)).
  rewrite isSome_find.
  destruct (existsb _ (transactions s)); simpl; [ discriminate | ].
  rewrite geb_leb.
  destruct (borrowingLimit (User.role u) <=? _); simpl; [ discriminate | ].
  fold (find (Fines.isPendingOf (issue_userId body)) (fines s)).
  rewrite isSome_find.
  destruct (existsb _ (fines s)); simpl; [ discriminate | ].
  intros _. exists b. split; reflexivity.
Qed.

Lemma firstViolated_sound s body e :
  firstViolated s body = Some e -> violated e s body = true.
Proof.
  unfold firstViolated. intros H.
  apply find_some in H. exact (proj2 H).
Qed.

Lemma firstViolated_none s body :
  firstViolated s body = None -> forall e, violated e s body = false.
Proof.
  unfold firstViolated. intros H e.
  apply (find_none _ _ H). destruct e; simpl; tauto.
Qed.

Lemma firstViolated_some s body e :
  violated e s body = true -> exists e', firstViolated s body = Some e'.
Proof.
  intros He. destruct (firstViolated s body) as [e' |] eqn:H.
  - exists e'. reflexivity.
  - rewrite (firstViolated_none _ _ H e) in He. discriminate.
Qed.

Lemma firstViolated_first s body e' e :
  firstViolated s body = Some e' -> violated e s body = true ->
  (rank e' <= rank e)%nat.
Proof.
  unfold firstViolated, find. intros H He.
  repeat match type of H with
  | (if violated ?x s body then _ else _) = _ =>
      let V := fresh "V" in
      destruct (violated x s body) eqn:V;
      [ injection H as <-; destruct e; simpl; solve [ lia | congruence ] | ]
  end.
  discriminate.
Qed.

(** C4. When some precondition of a loan fails (borrower missing or
    inactive, book missing or unavailable, an open loan of the same
    borrower for the same book, the borrowing limit reached, a pending
    fine), issueBook answers with the error of a failing precondition, the
    first one in the order of its checks (so the error of that very
    precondition when no earlier check fails), and leaves the store as it
    was: no transaction is created and no book is touched. *)
Theorem C4_issue_rejects_without_mutation env staff body s e :
  violated e s body = true ->
  exists e',
    violated e' s body = true
    /\ (rank e' <= rank e)%nat
    /\ asyncHandler (issueBook env staff body) s = (s, Json (errorOf e' s body)).
Proof.
  intros He. destruct (firstViolated_some _ _ _ He) as [e' H].
  exists e'. split; [exact (firstViolated_sound _ _ _ H) |].
  split; [exact (firstViolated_first _ _ _ _ H He) |].
  unfold asyncHandler. rewrite (issueBook_rejects env staff body s e' H).
  reflexivity.
Qed.

Lemma C4_issue_rejects_without_mutation_witness :
  violated Unavailable inactiveStore (mkIssueBody 1 100 7) = true
  /\ exists e',
       violated e' inactiveStore (mkIssueBody 1 100 7) = true
       /\ (rank e' <= rank Unavailable)%nat
       /\ asyncHandler (issueBook (mkEnv 0 1000) librarian9 (mkIssueBody 1 100 7))
            inactiveStore
          = (inactiveStore, Json (errorOf e' inactiveStore (mkIssueBody 1 100 7))).
Proof.
  split; [reflexivity |].
  apply (C4_issue_rejects_without_mutation (mkEnv 0 1000) librarian9
           (mkIssueBody 1 100 7) inactiveStore Unavailable).
  reflexivity.
Defined.

(** ** Lookups in a collection *)

Section CollectionFacts.
Context {D : Type} (id : D -> ObjectId).

Lemma findById_some i c d :
  Coll.findById id i c = Some d -> id d = i /\ In d c.
Proof.
  unfold Coll.findById. intros H. apply find_some in H.
  destruct H as [Hin Hid]. unfold Coll.hasId in Hid.
  apply Nat.eqb_eq in Hid. auto.
Qed.

Lemma findById_insertOne_new i c d :
  Coll.findById id i c = None -> id d = i ->
  Coll.findById id i (Coll.insertOne d c) = Some d.
Proof.
  unfold Coll.findById, Coll.insertOne. intros Hnone Hid.
  induction c as [| x c IH]; simpl in *.
  - unfold Coll.hasId. rewrite Hid, Nat.eqb_refl. reflexivity.
  - destruct (Coll.hasId id i x); [discriminate | auto].
Qed.

Lemma findById_insertOne_old i c d x :
  Coll.findById id i c = Some x ->
  Coll.findById id i (Coll.insertOne d c) = Some x.
Proof.
  unfold Coll.findById, Coll.insertOne. intros H.
  induction c as [| y c IH]; simpl in *; [discriminate |].
  destruct (Coll.hasId id i y); auto.
Qed.

Lemma findById_replaceOne_same i c d x :
  Coll.findById id i c = Some x -> id d = i ->
  Coll.findById id i (Coll.replaceOne id d c) = Some d.
Proof.
  unfold Coll.findById, Coll.replaceOne. intros H Hid. subst i.
  induction c as [| y c IH]; simpl in *; [discriminate |].
  destruct (Coll.hasId id (id d) y) eqn:Hy.
  - unfold Coll.hasId. rewrite Nat.eqb_refl. reflexivity.
  - rewrite Hy. auto.
Qed.

Lemma findById_replaceOne_other i c d :
  id d <> i ->
  Coll.findById id i (Coll.replaceOne id d c) = Coll.findById id i c.
Proof.
  unfold Coll.findById, Coll.replaceOne. intros Hid.
  induction c as [| y c IH]; simpl; [reflexivity |].
  destruct (Coll.hasId id (id d) y) eqn:Hy.
  - unfold Coll.hasId in *. apply Nat.eqb_eq in Hy.
    destruct (Nat.eqb_spec (id d) i); [contradiction |].
    destruct (Nat.eqb_spec (id y) i); [congruence | exact IH].
  - destruct (Coll.hasId id i y); auto.
Qed.
End CollectionFacts.

(** ** Days overdue *)

Lemma ceilDays_eq ms : ceilDays ms = - ((- ms) / msPerDay).
Proof.
  unfold ceilDays, Qceiling, Qfloor, Qdiv, Qmult, Qinv, Qopp, inject_Z. simpl.
  rewrite Z.mul_1_r. reflexivity.
Qed.

Lemma ceilDays_pos ms : 0 < ms -> 1 <= ceilDays ms.
Proof.
  intros H. rewrite ceilDays_eq.
  assert (Hd : 0 < msPerDay) by reflexivity.
  assert ((- ms) / msPerDay < 0) by (apply Z.div_lt_upper_bound; lia).
  lia.
Qed.

Lemma ceilDays_one_day : ceilDays msPerDay = 1.
Proof. reflexivity. Qed.

Lemma fine_amount_valid d : 0 <= d -> Qle_bool 0 (inject_Z d * dailyRate) = true.
Proof.
  intros H. apply Qle_bool_iff. unfold Qle, dailyRate. simpl. lia.
Qed.

(** ** Saves that go through *)

Lemma Transactions_save_ok t x s :
  validTransaction t ->
  Coll.findById Transaction._id (Transaction._id t) (transactions s) = Some x ->
  Transactions.save t s =
  (set_transactions (Coll.replaceOne Transaction._id t (transactions s)) s,
   Next tt).
Proof.
  intros [Hv Hp] Hx.
  unfold Transactions.save, Coll.saveExisting, bind, gets.
  rewrite Hv, Hp. simpl. rewrite Hx. reflexivity.
Qed.

Lemma Books_save_ok b x s :
  copiesInvariant b ->
  Coll.findById Book._id (Book._id b) (books s) = Some x ->
  Books.save b s =
  (set_books (Coll.replaceOne Book._id b (books s)) s, Next tt).
Proof.
  intros [H0 H1] Hx.
  unfold Books.save, Books.validate, Books.preSave, Coll.saveExisting, bind, gets.
  destruct (Z.ltb_spec (Book.totalCopies b) 0); [lia |].
  destruct (Z.ltb_spec (Book.availableCopies b) 0); [lia |].
  destruct (Z.gtb_spec (Book.availableCopies b) (Book.totalCopies b)); [lia |].
  simpl. rewrite Hx. reflexivity.
Qed.

Lemma Fines_create_ok env u tx amt why s :
  Qle_bool 0 amt = true ->
  Coll.findById Fine._id (newObjectId env) (fines s) = None ->
  Fines.create env u tx amt why None s =
  (set_fines
     (Coll.insertOne
        (Fine.mk (newObjectId env) u tx amt why PaymentStatus.pending
                 None None None None (now env)) (fines s)) s,
   Next (Fine.mk (newObjectId env) u tx amt why PaymentStatus.pending
                 None None None None (now env))).
Proof.
  intros Hamt Hnew.
  unfold Fines.create, Fines.validate, Coll.insertNew, bind, gets. simpl.
  rewrite Hamt. simpl. rewrite Hnew. reflexivity.
Qed.

(** ** returnBook, step by step *)

Lemma returned_valid env fine staff notes t :
  Qle_bool 0 fine = true ->
  Transaction.issueDate t <= now env ->
  validTransaction (returned_ (now env) fine staff notes t).
Proof.
  intros Hf Hi. split.
  - unfold Transactions.validate. simpl. rewrite Hf. reflexivity.
  - unfold Transactions.preSave. simpl.
    destruct (Z.ltb_spec (now env) (Transaction.issueDate t)); [lia | reflexivity].
Qed.

Lemma returnBook_on_time env staff id notes s t :
  Coll.findById Transaction._id id (transactions s) = Some t ->
  Transaction.status t = TxStatus.issued ->
  now env <= Transaction.dueDate t ->
  Transaction.issueDate t <= now env ->
  returnBook env staff id notes s =
  releaseCopy (Coll.findById Book._id (Transaction.bookId t) (books s))
    (set_transactions
       (Coll.replaceOne Transaction._id
          (returned_ (now env) 0 (auth_id staff) notes t) (transactions s)) s).
Proof.
  intros Hfind Hst Hdue Hissue.
  destruct (findById_some _ _ _ _ Hfind) as [Hid _].
  unfold returnBook, Transactions.findById, Users.findById, Books.findById.
  cbv [bind gets]. rewrite Hfind. cbv [orElse ret when_]. rewrite Hst.
  cbv [TxStatus.eqb negb].
  destruct (Z.gtb_spec (now env) (Transaction.dueDate t)) as [Hlate | _];
    [lia |].
  erewrite Transactions_save_ok;
    [ reflexivity | apply returned_valid; [reflexivity | exact Hissue]
    | simpl; rewrite Hid; exact Hfind ].
Qed.

Lemma returnBook_late env staff id notes s t u :
  Coll.findById Transaction._id id (transactions s) = Some t ->
  Transaction.status t = TxStatus.issued ->
  Transaction.dueDate t < now env ->
  Transaction.issueDate t <= now env ->
  Coll.findById User._id (Transaction.userId t) (users s) = Some u ->
  Coll.findById Fine._id (newObjectId env) (fines s) = None ->
  returnBook env staff id notes s =
  releaseCopy (Coll.findById Book._id (Transaction.bookId t) (books s))
    (set_transactions
       (Coll.replaceOne Transaction._id
          (returned_ (now env) (Fine.amount (overdueFine env t u))
                     (auth_id staff) notes t) (transactions s))
       (set_fines (Coll.insertOne (overdueFine env t u) (fines s)) s)).
Proof.
  intros Hfind Hst Hdue Hissue Hu Hnew.
  destruct (findById_some _ _ _ _ Hfind) as [Hid _].
  assert (Hamt : Qle_bool 0 (Fine.amount (overdueFine env t u)) = true).
  { apply fine_amount_valid.
    pose proof (ceilDays_pos (now env - Transaction.dueDate t)). lia. }
  unfold returnBook, Transactions.findById, Users.findById, Books.findById.
  cbv [bind gets]. rewrite Hfind, Hu. cbv [orElse ret when_]. rewrite Hst.
  cbv [TxStatus.eqb negb].
  destruct (Z.gtb_spec (now env) (Transaction.dueDate t)) as [_ | Hearly];
    [| lia].
  rewrite Fines_create_ok; [ | exact Hamt | exact Hnew ].
  erewrite Transactions_save_ok;
    [ reflexivity | apply returned_valid; [exact Hamt | exact Hissue]
    | simpl; rewrite Hid; exact Hfind ].
Qed.

Lemma Books_save_frame b s :
  fines (fst (Books.save b s)) = fines s
  /\ transactions (fst (Books.save b s)) = transactions s.
Proof.
  unfold Books.save, Coll.saveExisting, bind, gets, check.
  destruct (Books.validate b); [split; reflexivity |].
  destruct (Books.preSave b); [split; reflexivity |].
  simpl. destruct (isSome _); split; reflexivity.
Qed.

Lemma releaseCopy_frame pb s :
  fines (fst (releaseCopy pb s)) = fines s
  /\ transactions (fst (releaseCopy pb s)) = transactions s.
Proof.
  unfold releaseCopy, Books.findById. cbv [bind gets orElse ret].
  destruct pb as [bookRef |]; [ | split; reflexivity ].
  destruct (Coll.findById Book._id (Book._id bookRef) (books s)) as [book |];
    [ | split; reflexivity ].
  pose proof (Books_save_frame
    (Books.with_availableCopies (Book.availableCopies book + 1) book) s) as H.
  destruct (Books.save _ s) as [s' [[] | r | e]]; exact H.
Qed.

Lemma asyncHandler_fst {A} (h : Handler A) s : fst (asyncHandler h s) = fst (h s).
Proof. unfold asyncHandler. destruct (h s) as [s' [a | r | e]]; reflexivity. Qed.

Lemma ceilDays_unique ms d :
  (d - 1) * msPerDay < ms <= d * msPerDay -> ceilDays ms = d.
Proof.
  rewrite ceilDays_eq.
  assert (Hd : 0 < msPerDay) by reflexivity.
  revert Hd. generalize msPerDay. intros D HD Hb.
  pose proof (Z.div_mod (- ms) D ltac:(lia)) as Hdm.
  pose proof (Z.mod_pos_bound (- ms) D HD) as Hm.
  set (q := (- ms) / D) in *. set (r := (- ms) mod D) in *.
  assert (Hlo : d <= - q) by nia.
  assert (Hhi : - q <= d) by nia.
  lia.
Qed.

(** X24. returnBook on an issued loan (issued no later than now): when
    the return is not after the due date, no fine is created and the
    loan stores fineAmount 0; when it is late by more than d - 1 and at
    most d whole days, d >= 1 (the borrower still exists and the new
    fine's identifier is unused), exactly one fine is appended, with
    reason overdue, status pending and amount d * dailyRate, the amount
    the loan stores too: every started day of lateness is charged. *)
Theorem late_return_fine env staff id notes s t :
  Coll.findById Transaction._id id (transactions s) = Some t ->
  Transaction.status t = TxStatus.issued ->
  Transaction.issueDate t <= now env ->
  let s' := fst (asyncHandler (returnBook env staff id notes) s) in
  (now env <= Transaction.dueDate t ->
     fines s' = fines s /\ storedFineAmount id s' = Some 0%Q)
  /\ (forall d u,
        1 <= d ->
        (d - 1) * msPerDay < now env - Transaction.dueDate t <= d * msPerDay ->
        Coll.findById User._id (Transaction.userId t) (users s) = Some u ->
        Coll.findById Fine._id (newObjectId env) (fines s) = None ->
        fines s' =
          (fines s ++ [Fine.mk (newObjectId env) (Transaction.userId t) id
                               (inject_Z d * dailyRate)%Q
                               Reason.overdue PaymentStatus.pending
                               None None None None (now env)])%list
        /\ storedFineAmount id s' = Some (inject_Z d * dailyRate)%Q).
Proof.
  intros Hfind Hst Hissue s'. subst s'. rewrite asyncHandler_fst.
  destruct (findById_some _ _ _ _ Hfind) as [Hid _].
  split.
  - intros Hdue.
    rewrite (returnBook_on_time env staff id notes s t Hfind Hst Hdue Hissue).
    destruct (releaseCopy_frame
      (Coll.findById Book._id (Transaction.bookId t) (books s))
      (set_transactions
         (Coll.replaceOne Transaction._id
            (returned_ (now env) 0 (auth_id staff) notes t) (transactions s)) s))
      as [Hf Ht].
    unfold storedFineAmount. rewrite Hf, Ht. simpl. split; [reflexivity |].
    erewrite findById_replaceOne_same; [reflexivity | exact Hfind | exact Hid].
  - intros d u Hd Hb Hu Hnew.
    assert (Hdue : Transaction.dueDate t < now env).
    { assert (0 < msPerDay) by reflexivity. nia. }
    rewrite (returnBook_late env staff id notes s t u Hfind Hst Hdue Hissue Hu Hnew).
    destruct (findById_some _ _ _ _ Hu) as [Huid _].
    match goal with
    | |- context [releaseCopy ?pb ?s1] =>
        destruct (releaseCopy_frame pb s1) as [Hf Ht]
    end.
    unfold storedFineAmount. rewrite Hf, Ht. unfold overdueFine. simpl.
    rewrite !(ceilDays_unique _ d Hb).
    split.
    + unfold Coll.insertOne. rewrite Huid, Hid. reflexivity.
    + erewrite findById_replaceOne_same; [reflexivity | exact Hfind | exact Hid].
Qed.

Lemma late_return_fine_witness :
  fines (fst (asyncHandler (returnBook thirdDayEnv librarian9 1000 None)
                           lateStore))
  = [Fine.mk 3000 1 1000 (3 * dailyRate)%Q Reason.overdue PaymentStatus.pending
             None None None None (16 * msPerDay + 1)]
  /\ storedFineAmount 1000
       (fst (asyncHandler (returnBook thirdDayEnv librarian9 1000 None)
                          lateStore))
     = Some (3 * dailyRate)%Q.
Proof.
  assert (Hfind : Coll.findById Transaction._id 1000 (transactions lateStore)
                  = Some lateLoan) by reflexivity.
  assert (Hst : Transaction.status lateLoan = TxStatus.issued) by reflexivity.
  assert (Hissue : Transaction.issueDate lateLoan <= now thirdDayEnv)
    by (vm_compute; discriminate).
  destruct (late_return_fine thirdDayEnv librarian9 1000 None lateStore
              lateLoan Hfind Hst Hissue) as [_ Hlate].
  assert (Hday : (3 - 1) * msPerDay
                 < now thirdDayEnv - Transaction.dueDate lateLoan
                 <= 3 * msPerDay)
    by (vm_compute; split; [reflexivity | discriminate]).
  exact (Hlate 3 (User.mk 1 Role.borrower UserStatus.active)
               ltac:(lia) Hday eq_refl eq_refl).
Defined.

(** A late return of a loan whose borrower is gone: [populate('userId')]
    yields null, [transaction.userId._id] throws, and nothing has been
    written yet. *)
Lemma returnBook_borrower_gone env staff id notes s t :
  Coll.findById Transaction._id id (transactions s) = Some t ->
  Transaction.status t = TxStatus.issued ->
  Transaction.dueDate t < now env ->
  Coll.findById User._id (Transaction.userId t) (users s) = None ->
  asyncHandler (returnBook env staff id notes) s = (s, NextErr nullDeref).
Proof.
  intros Hfind Hst Hdue Hu.
  unfold asyncHandler, returnBook, Transactions.findById, Users.findById,
    Books.findById.
  cbv [bind gets]. rewrite Hfind. cbv [bind gets]. rewrite Hu.
  cbv [orElse ret when_]. rewrite Hst. cbn [TxStatus.eqb negb].
  destruct (Z.gtb_spec (now env) (Transaction.dueDate t)); [ | lia ].
  reflexivity.
Qed.

(** C3, where the code departs from it. Borrower 1 borrows book 100, the
    administrator deletes the account of borrower 1 (deleteUser does not
    look at open loans), and the loan comes back one day late: returnBook
    throws on the borrower reference that populate left null, so that no
    fine is created, the loan stays issued and the copy stays out. *)
Theorem C3_late_return_without_borrower :
  succeeded (snd (asyncHandler
                    (issueBook sameDayIssueEnv librarian9 sameDayIssue)
                    demoStore)) = true
  /\ succeeded (snd (asyncHandler (deleteUser admin8 1) issuedDemoStore)) = true
  /\ option_map Transaction.dueDate
       (Coll.findById Transaction._id 1000 (transactions orphanedLoanStore))
     = Some (now lateEnv - msPerDay)
  /\ asyncHandler (returnBook lateEnv librarian9 1000 None) orphanedLoanStore
     = (orphanedLoanStore, NextErr nullDeref)
  /\ fines orphanedLoanStore = []
  /\ option_map Transaction.status
       (Coll.findById Transaction._id 1000 (transactions orphanedLoanStore))
     = Some TxStatus.issued
  /\ availableOf 100 orphanedLoanStore = Some 0.
Proof.
  split; [reflexivity |]. split; [reflexivity |]. split; [reflexivity |].
  split; [ | repeat split ].
  apply (returnBook_borrower_gone lateEnv librarian9 1000 None orphanedLoanStore
           (Transaction.mk 1000 1 100 0 (14 * msPerDay) None 0 TxStatus.issued 9
                           None None 0)); reflexivity.
Qed.

(** ** issueBook once every check has passed *)

Lemma issueCommit_ok env staff body book s :
  Coll.findById Transaction._id (newObjectId env) (transactions s) = None ->
  bookOf s body = Some book ->
  0 < Book.availableCopies book ->
  copiesInvariant book ->
  issueCommit env staff body book s =
  (issuedStore env staff body book s,
   Sent (mkResponse 201 true "Book issued successfully")).
Proof.
  intros Hnew Hbook Hpos [_ Hle].
  destruct (findById_some _ _ _ _ Hbook) as [Hid _].
  unfold issueCommit, Transactions.create, Coll.insertNew.
  cbv [bind gets check Transactions.validate Transactions.preSave].
  simpl. rewrite Hnew. simpl.
  erewrite Books_save_ok;
    [ reflexivity | split; simpl; lia | simpl; rewrite Hid; exact Hbook ].
Qed.

Lemma issueCommit_success env staff body book s s1 r :
  bookOf s body = Some book ->
  issueCommit env staff body book s = (s1, Sent r) ->
  success r = true ->
  Coll.findById Transaction._id (newObjectId env) (transactions s) = None
  /\ s1 = issuedStore env staff body book s
  /\ copiesInvariant
       (Books.with_availableCopies (Book.availableCopies book - 1) book).
Proof.
  intros Hbook.
  unfold issueCommit, Transactions.create, Coll.insertNew.
  cbv [bind gets check Transactions.validate Transactions.preSave].
  simpl.
  destruct (Coll.findById Transaction._id (newObjectId env) (transactions s));
    simpl; [discriminate |].
  unfold Books.save, Coll.saveExisting. cbv [bind gets check].
  destruct (Books.validate _) eqn:Hv; simpl; [discriminate |].
  destruct (Books.preSave _) eqn:Hp; simpl; [discriminate |].
  destruct (isSome _); simpl; [ | discriminate ].
  intros [= <- <-] _.
  split; [reflexivity |]. split; [reflexivity |].
  exact (validated_book _ Hv Hp).
Qed.

Lemma releaseCopy_ok b s :
  Coll.findById Book._id (Book._id b) (books s) = Some b ->
  copiesInvariant (Books.with_availableCopies (Book.availableCopies b + 1) b) ->
  releaseCopy (Some b) s =
  (set_books
     (Coll.replaceOne Book._id
        (Books.with_availableCopies (Book.availableCopies b + 1) b) (books s)) s,
   Sent (mkResponse 200 true "Book returned successfully")).
Proof.
  intros Hb Hinv. unfold releaseCopy, Books.findById.
  cbv [bind gets orElse ret]. rewrite Hb.
  erewrite Books_save_ok; [ reflexivity | exact Hinv | simpl; exact Hb ].
Qed.

Lemma errorOf_fails e s body : success (errorOf e s body) = false.
Proof. destruct e; reflexivity. Qed.

Lemma issueBook_success env staff body s :
  succeeded (snd (asyncHandler (issueBook env staff body) s)) = true ->
  exists book,
    bookOf s body = Some book
    /\ 0 < Book.availableCopies book
    /\ Coll.findById Transaction._id (newObjectId env) (transactions s) = None
    /\ fst (asyncHandler (issueBook env staff body) s)
       = issuedStore env staff body book s
    /\ copiesInvariant
         (Books.with_availableCopies (Book.availableCopies book - 1) book).
Proof.
  intros Hok. destruct (firstViolated s body) as [e |] eqn:Hgate.
  - unfold asyncHandler in Hok.
    rewrite (issueBook_rejects env staff body s e Hgate) in Hok.
    simpl in Hok. rewrite errorOf_fails in Hok. discriminate.
  - destruct (issueBook_accepts env staff body s Hgate) as [book [Hbook Heq]].
    exists book. split; [exact Hbook |].
    pose proof (firstViolated_none _ _ Hgate Unavailable) as Hav.
    simpl in Hav. rewrite Hbook in Hav. apply orb_false_elim in Hav.
    destruct Hav as [Hav _]. apply Z.leb_gt in Hav.
    split; [exact Hav |].
    unfold asyncHandler in *. rewrite Heq in *.
    destruct (issueCommit env staff body book s) as [s1 [[] | r | err]] eqn:Hc;
      simpl in Hok; try discriminate.
    destruct (issueCommit_success _ _ _ _ _ _ _ Hbook Hc Hok) as [Hnew [-> Hinv]].
    auto.
Qed.

(** C9. When issueBook succeeds on a book that satisfies the copy-count
    invariant and the loan is returned no later than its due date (the
    clock not running backwards in between), returnBook succeeds, the loan
    is stored as returned with fineAmount 0, the fines are those of before
    the issue, and the book has again the available copies it had before
    the issue. *)
Theorem C9_issue_return_round_trip env1 staff1 body s env2 staff2 notes :
  ledgerInvariant s ->
  succeeded (snd (asyncHandler (issueBook env1 staff1 body) s)) = true ->
  now env1 <= now env2 <= issue_dueDate body ->
  let s1 := fst (asyncHandler (issueBook env1 staff1 body) s) in
  let r2 := asyncHandler (returnBook env2 staff2 (newObjectId env1) notes) s1 in
  succeeded (snd r2) = true
  /\ (exists t,
        Coll.findById Transaction._id (newObjectId env1) (transactions (fst r2))
        = Some t
        /\ Transaction.status t = TxStatus.returned
        /\ Transaction.fineAmount t = 0%Q)
  /\ fines (fst r2) = fines s
  /\ isSome (availableOf (issue_bookId body) s) = true
  /\ availableOf (issue_bookId body) (fst r2) = availableOf (issue_bookId body) s.
Proof.
  intros Hledger Hok [Hclock Hdue] s1 r2.
  destruct (issueBook_success _ _ _ _ Hok)
    as [book [Hbook [Hpos [Hnew [Hs1 Hinv']]]]].
  subst r2 s1. rewrite Hs1.
  destruct (findById_some _ _ _ _ Hbook) as [Hid Hin].
  assert (Hinv : copiesInvariant book).
  { unfold ledgerInvariant in Hledger. rewrite Forall_forall in Hledger. auto. }
  set (book' := Books.with_availableCopies (Book.availableCopies book - 1) book).
  set (loan := issuedLoan env1 staff1 body).
  assert (Hloan : Coll.findById Transaction._id (newObjectId env1)
                    (transactions (issuedStore env1 staff1 body book s))
                  = Some loan).
  { simpl. apply findById_insertOne_new; [exact Hnew | reflexivity]. }
  assert (Hbook' : Coll.findById Book._id (issue_bookId body)
                     (books (issuedStore env1 staff1 body book s))
                   = Some book').
  { simpl. eapply findById_replaceOne_same; [exact Hbook | exact Hid]. }
  unfold asyncHandler.
  rewrite (returnBook_on_time env2 staff2 (newObjectId env1) notes _ loan
             Hloan eq_refl Hdue Hclock).
  change (Transaction.bookId loan) with (issue_bookId body).
  rewrite Hbook'.
  rewrite releaseCopy_ok;
    [ | simpl; rewrite Hid; exact Hbook'
      | destruct Hinv as [H0 H1]; split; simpl; lia ].
  simpl. split; [reflexivity |].
  split.
  - eexists. split.
    + eapply findById_replaceOne_same;
        [ apply findById_insertOne_new; [exact Hnew | reflexivity]
        | reflexivity ].
    + split; reflexivity.
  - split; [reflexivity |].
    unfold availableOf. fold (bookOf s body). rewrite Hbook.
    split; [reflexivity |]. cbn [books set_books].
    erewrite findById_replaceOne_same;
      [ | eapply findById_replaceOne_same; [exact Hbook | exact Hid]
        | simpl; exact Hid ].
    simpl. f_equal. lia.
Qed.

Lemma C9_issue_return_round_trip_witness :
  ledgerInvariant demoStore
  /\ availableOf 100
       (fst (asyncHandler (returnBook sameDayReturnEnv librarian9 1000 None)
               (fst (asyncHandler
                       (issueBook sameDayIssueEnv librarian9 sameDayIssue)
                       demoStore))))
     = availableOf 100 demoStore.
Proof.
  assert (H : ledgerInvariant demoStore).
  { repeat constructor; simpl; lia. }
  split; [exact H |].
  apply (C9_issue_return_round_trip sameDayIssueEnv librarian9 sameDayIssue
           demoStore sameDayReturnEnv librarian9 None H).
  - reflexivity.
  - split; vm_compute; discriminate.
Defined.

(** ** The outstanding-fine gate *)

Lemma PaymentStatus_eqb_eq a b : PaymentStatus.eqb a b = true <-> a = b.
Proof. destruct a, b; simpl; split; congruence. Qed.

Lemma hasPendingFine_violated s body :
  violated OutstandingFine s body = true
  <-> hasPendingFine (issue_userId body) s.
Proof.
  simpl. rewrite existsb_exists. unfold hasPendingFine, Fines.isPendingOf.
  split; intros [f [Hin H]]; exists f.
  - apply andb_prop in H. destruct H as [Hu Hp].
    apply Nat.eqb_eq in Hu. apply PaymentStatus_eqb_eq in Hp. auto.
  - destruct H as [Hu Hp]. split; [exact Hin |].
    rewrite Hu, Hp, Nat.eqb_refl. reflexivity.
Qed.

Lemma filter_nil_of_existsb {A} (p : A -> bool) l :
  existsb p l = false -> filter p l = [].
Proof.
  induction l as [| x l IH]; simpl; [reflexivity |].
  destruct (p x); simpl; [discriminate | exact IH].
Qed.

Lemma totalOutstanding_nonzero s body :
  ~ (totalOutstanding (issue_userId body) s == 0)%Q ->
  violated OutstandingFine s body = true.
Proof.
  intros Hne. simpl.
  destruct (existsb (Fines.isPendingOf (issue_userId body)) (fines s)) eqn:He;
    [reflexivity |].
  exfalso. apply Hne. unfold totalOutstanding.
  rewrite (filter_nil_of_existsb _ _ He). reflexivity.
Qed.

Lemma firstViolated_all_hold s body :
  (forall e, violated e s body = false) -> firstViolated s body = None.
Proof.
  intros H. destruct (firstViolated s body) as [e |] eqn:He; [ | reflexivity ].
  pose proof (firstViolated_sound _ _ _ He) as Hv.
  rewrite (H e) in Hv. discriminate.
Qed.

Lemma firstViolated_only s body e :
  violated e s body = true ->
  (forall e', e' <> e -> violated e' s body = false) ->
  firstViolated s body = Some e.
Proof.
  intros He Hothers. destruct (firstViolated_some _ _ _ He) as [e' H].
  pose proof (firstViolated_sound _ _ _ H) as He'.
  destruct e, e'; try exact H;
    rewrite Hothers in He' by discriminate; discriminate.
Qed.

Lemma issueBook_all_hold env staff body s :
  (forall e, violated e s body = false) ->
  ledgerInvariant s ->
  Coll.findById Transaction._id (newObjectId env) (transactions s) = None ->
  exists book,
    asyncHandler (issueBook env staff body) s =
    (issuedStore env staff body book s,
     Json (mkResponse 201 true "Book issued successfully")).
Proof.
  intros Hall Hledger Hnew.
  destruct (issueBook_accepts env staff body s (firstViolated_all_hold _ _ Hall))
    as [book [Hbook Heq]].
  exists book. unfold asyncHandler. rewrite Heq.
  destruct (findById_some _ _ _ _ Hbook) as [_ Hin].
  pose proof (Hall Unavailable) as Hav. simpl in Hav. rewrite Hbook in Hav.
  apply orb_false_elim in Hav. destruct Hav as [Hav _]. apply Z.leb_gt in Hav.
  rewrite issueCommit_ok; [reflexivity | exact Hnew | exact Hbook | exact Hav |].
  unfold ledgerInvariant in Hledger. rewrite Forall_forall in Hledger. auto.
Qed.

Lemma issueCommit_reply env staff body book s :
  (exists e, snd (issueCommit env staff body book s) = Thrown e)
  \/ snd (issueCommit env staff body book s)
     = Sent (mkResponse 201 true "Book issued successfully").
Proof.
  unfold issueCommit, Transactions.create, Coll.insertNew, Books.save,
    Coll.saveExisting.
  cbv [bind gets check ret throw modify json].
  destruct (Transactions.validate _); [left; eexists; reflexivity |].
  destruct (Transactions.preSave _); [left; eexists; reflexivity |].
  destruct (isSome _); [left; eexists; reflexivity |].
  destruct (Books.validate _); [left; eexists; reflexivity |].
  destruct (Books.preSave _); [left; eexists; reflexivity |].
  destruct (isSome _); [right; reflexivity | left; eexists; reflexivity].
Qed.

(** C6, as the code has it. With every other precondition of a loan
    holding, issueBook fails with the outstanding-fines error exactly
    when the borrower has at least one fine whose paymentStatus is
    pending, whatever its amount - in particular whenever the sum of the
    pending amounts is non-zero; once every fine of the borrower is paid
    or waived, issueBook succeeds (the copy counts of every book
    satisfying 0 <= availableCopies <= totalCopies and the identifier of
    the new loan being unused). *)
Theorem C6_pending_fine_gate env staff body s :
  otherPreconditionsHold s body ->
  let reply := snd (asyncHandler (issueBook env staff body) s) in
  (reply = Json (errorOf OutstandingFine s body)
   <-> hasPendingFine (issue_userId body) s)
  /\ (~ (totalOutstanding (issue_userId body) s == 0)%Q ->
      reply = Json (errorOf OutstandingFine s body))
  /\ (allSettled (issue_userId body) s ->
      ledgerInvariant s ->
      Coll.findById Transaction._id (newObjectId env) (transactions s) = None ->
      succeeded reply = true).
Proof.
  intros Hothers reply.
  destruct (violated OutstandingFine s body) eqn:Hv.
  - assert (Hreply : reply = Json (errorOf OutstandingFine s body)).
    { subst reply. unfold asyncHandler.
      rewrite (issueBook_rejects env staff body s OutstandingFine
                 (firstViolated_only _ _ _ Hv Hothers)).
      reflexivity. }
    apply hasPendingFine_violated in Hv.
    split; [tauto |]. split; [auto |].
    intros Hsettled _ _. destruct Hv as [f [Hin [Hu Hp]]].
    destruct (Hsettled f Hin Hu); congruence.
  - assert (Hall : forall e, violated e s body = false).
    { intros e. destruct e; try (apply Hothers; discriminate). exact Hv. }
    split; [ | split ].
    + split.
      * destruct (issueBook_accepts env staff body s
                    (firstViolated_all_hold s body Hall)) as [book [_ Hrun]].
        subst reply. unfold asyncHandler. rewrite Hrun.
        destruct (issueCommit_reply env staff body book s) as [[e He] | He];
          destruct (issueCommit env staff body book s) as [s1 o];
          cbn [snd] in He; rewrite He; cbn [snd errorOf]; discriminate.
      * intros Hp. apply hasPendingFine_violated in Hp. congruence.
    + intros Hne. apply totalOutstanding_nonzero in Hne. congruence.
    + intros _ Hledger Hnew.
      destruct (issueBook_all_hold env staff body s Hall Hledger Hnew)
        as [book Hrun].
      subst reply. rewrite Hrun. reflexivity.
Qed.

Lemma C6_pending_fine_gate_witness :
  snd (asyncHandler (issueBook secondIssueEnv librarian9 sameDayIssue)
                    pendingFiveStore)
  = Json (errorOf OutstandingFine pendingFiveStore sameDayIssue)
  /\ succeeded
       (snd (asyncHandler (issueBook secondIssueEnv librarian9 sameDayIssue)
                          settledFiveStore)) = true.
Proof.
  assert (Hpending : fines pendingFiveStore
                     = [Fine.mk 3001 1 1000 5 Reason.damage PaymentStatus.pending
                                None None None None 7200000])
    by (vm_compute; reflexivity).
  assert (Hsettled : fines settledFiveStore
                     = [Fine.mk 3001 1 1000 5 Reason.damage PaymentStatus.paid
                                (Some 9000000) (Some PaymentMethod.cash)
                                (Some 9%nat) None 9000000])
    by (vm_compute; reflexivity).
  split.
  - assert (Hothers : otherPreconditionsHold pendingFiveStore sameDayIssue).
    { intros e He.
      destruct e;
        first [ vm_compute; reflexivity | contradiction He; reflexivity ]. }
    destruct (C6_pending_fine_gate secondIssueEnv librarian9 sameDayIssue
                pendingFiveStore Hothers) as [[_ Hgate] _].
    apply Hgate. unfold hasPendingFine. rewrite Hpending.
    eexists. split; [left; reflexivity | split; reflexivity].
  - assert (Hothers : otherPreconditionsHold settledFiveStore sameDayIssue).
    { intros e He.
      destruct e;
        first [ vm_compute; reflexivity | contradiction He; reflexivity ]. }
    destruct (C6_pending_fine_gate secondIssueEnv librarian9 sameDayIssue
                settledFiveStore Hothers) as [_ [_ Hopen]].
    apply Hopen.
    + unfold allSettled. rewrite Hsettled.
      intros f [<- | []] _. left. reflexivity.
    + unfold ledgerInvariant.
      replace (books settledFiveStore)
        with [Book.mk 100 1 1 BookStatus.available 0]
        by (vm_compute; reflexivity).
      repeat constructor; simpl; lia.
    + vm_compute. reflexivity.
Defined.

(** C6, as stated, fails: borrower 1 has a single pending fine, of amount
    0; the outstanding total is zero, every other precondition holds, and
    issueBook still answers with the outstanding-fines error. *)
Lemma C6_counterexample :
  forallb (fun e => negb (violated e zeroFineStore sameDayIssue))
          [UserNotFound; BorrowerInactive; BookNotFound; Unavailable;
           DuplicateLoan; LimitExceeded] = true
  /\ ~ (snd (asyncHandler (issueBook secondIssueEnv librarian9 sameDayIssue)
               zeroFineStore)
        = Json (errorOf OutstandingFine zeroFineStore sameDayIssue)
        <-> ~ (totalOutstanding 1 zeroFineStore == 0)%Q).
Proof.
  split; [reflexivity |].
  intros [H _]. apply H; reflexivity.
Qed.

(** ** createReservation: the availability gate *)

Lemma BookStatus_eqb_eq a b : BookStatus.eqb a b = true <-> a = b.
Proof. destruct a, b; simpl; split; congruence. Qed.

Lemma Reservations_create_never_sends env u b e p s :
  forall r, snd (Reservations.create env u b e p s) <> @Sent Reservation.t r.
Proof.
  intros r. unfold Reservations.create, Coll.insertNew.
  cbv [bind gets check ret throw modify].
  destruct (Reservations.validate _); [discriminate |].
  destruct (Reservations.preSave _); [discriminate |].
  destruct (Reservations.uniqueIndex _ _); [discriminate |].
  destruct (isSome _); discriminate.
Qed.

Lemma createReservation_past_gate env user body s book :
  Coll.findById Book._id (reserve_bookId body) (books s) = Some book ->
  (Book.availableCopies book >? 0)
  && BookStatus.eqb (Book.status book) BookStatus.available = false ->
  snd (asyncHandler (createReservation env user body) s) <> Json bookAvailableError.
Proof.
  intros Hbook Hgate.
  unfold asyncHandler, createReservation, Books.findById, Reservations.findOne,
    Transactions.findOne, Reservations.countDocuments.
  cbv [bind gets]. rewrite Hbook. cbv [orElse ret when_]. rewrite Hgate.
  destruct (isSome (find _ (reservations s))); [discriminate |].
  destruct (isSome (find _ (transactions s))); [discriminate |].
  destruct (_ >=? _); [discriminate |].
  match goal with
  | |- context [Reservations.create ?a ?b ?c ?d ?e ?f] =>
      pose proof (Reservations_create_never_sends a b c d e f) as Hns;
      destruct (Reservations.create a b c d e f) as [s' [r | r | err]]
  end; simpl in *; try discriminate.
  exfalso. apply (Hns r). reflexivity.
Qed.

(** C7, as the code has it. createReservation answers with the
    book-available error exactly when the requested book exists, has more
    than zero available copies and has status available; a book with zero
    available copies, or one that is not in status available, never gets
    that error. *)
Theorem C7_book_available_gate env user body s :
  (snd (asyncHandler (createReservation env user body) s) = Json bookAvailableError
   <-> exists book,
         Coll.findById Book._id (reserve_bookId body) (books s) = Some book
         /\ 0 < Book.availableCopies book
         /\ Book.status book = BookStatus.available)
  /\ (forall book,
        Coll.findById Book._id (reserve_bookId body) (books s) = Some book ->
        Book.availableCopies book = 0 ->
        snd (asyncHandler (createReservation env user body) s)
        <> Json bookAvailableError).
Proof.
  split.
  - destruct (Coll.findById Book._id (reserve_bookId body) (books s))
      as [book |] eqn:Hbook.
    + destruct ((Book.availableCopies book >? 0)
                && BookStatus.eqb (Book.status book) BookStatus.available)
        eqn:Hgate.
      * apply andb_prop in Hgate. destruct Hgate as [Hpos Hst].
        apply Z.gtb_lt in Hpos. apply BookStatus_eqb_eq in Hst.
        split; [ intros _; exists book; auto | intros _ ].
        unfold asyncHandler, createReservation, Books.findById.
        cbv [bind gets]. rewrite Hbook. cbv [orElse ret when_].
        rewrite Hst. apply Z.gtb_lt in Hpos. rewrite Hpos. reflexivity.
      * split.
        -- intros H. exfalso.
           exact (createReservation_past_gate env user body s book Hbook Hgate H).
        -- intros [b [[= <-] [Hpos Hst]]].
           apply Z.gtb_lt in Hpos. rewrite Hpos, Hst in Hgate. discriminate.
    + split.
      * unfold asyncHandler, createReservation, Books.findById.
        cbv [bind gets]. rewrite Hbook. discriminate.
      * intros [b [H _]]. discriminate.
  - intros book Hbook Hzero.
    apply (createReservation_past_gate env user body s book Hbook).
    rewrite Hzero. reflexivity.
Qed.

(** C7, as stated, fails: book 100 has one available copy but is under
    maintenance, and createReservation does not answer with the
    book-available error: it creates the reservation. *)
Lemma C7_counterexample :
  availableOf 100 maintenanceStore = Some 1
  /\ snd (asyncHandler (createReservation reserveEnv borrower2 reserve100)
            maintenanceStore)
     = Json (mkResponse 201 true "Reservation created successfully")
  /\ snd (asyncHandler (createReservation reserveEnv borrower2 reserve100)
            maintenanceStore)
     <> Json bookAvailableError.
Proof.
  split; [reflexivity |]. split; [reflexivity | discriminate].
Qed.

(** ** Settled fines *)

Lemma Fines_save_cases env f s :
  (exists e, Fines.save env f s = (s, Thrown e))
  \/ (Qle_bool 0 (Fine.amount f) = true
      /\ isSome (Coll.findById Fine._id (Fine._id f) (fines s)) = true
      /\ Fines.save env f s
         = (set_fines
              (Coll.replaceOne Fine._id (Fines.preSave (now env) f) (fines s)) s,
            Next tt)).
Proof.
  unfold Fines.save, Fines.validate, Coll.saveExisting.
  cbv [bind gets check ret throw modify].
  destruct (Qle_bool 0 (Fine.amount f)); [ | left; eexists; reflexivity ].
  assert (Hid : Fine._id (Fines.preSave (now env) f) = Fine._id f).
  { unfold Fines.preSave.
    destruct (Fine.paymentStatus f), (Fine.paymentDate f); reflexivity. }
  rewrite Hid.
  destruct (isSome _); [right; auto | left; eexists; reflexivity].
Qed.

Lemma preSave_unpaid at_ f :
  Fine.paymentStatus f <> PaymentStatus.paid -> Fines.preSave at_ f = f.
Proof.
  unfold Fines.preSave. destruct (Fine.paymentStatus f); try reflexivity.
  intros H. contradiction.
Qed.

Lemma findById_deleteOne_same {D} (id : D -> ObjectId) i c :
  Coll.findById id i (Coll.deleteOne id i c) = None.
Proof.
  unfold Coll.findById, Coll.deleteOne, Coll.hasId.
  induction c as [| x c IH]; simpl; [reflexivity |].
  destruct (Nat.eqb (id x) i) eqn:Hx; simpl; [exact IH |].
  rewrite Hx. exact IH.
Qed.

(** C8, as the code has it. Every request on a paid fine - pay, waive,
    update or delete - fails and leaves the store, hence the fine and all
    its fields, as it was; on a waived fine the pay and waive requests
    fail and leave the store as it was, updateFine leaves the fine in
    existence with its identifier, borrower, loan, paymentStatus,
    paymentDate, paymentMethod and processedBy (amount, reason, notes
    and updatedAt may change), and deleteFine removes it. *)
Theorem C8_settled_fine_frame op id f s :
  Coll.findById Fine._id id (fines s) = Some f ->
  Fine.paymentStatus f = PaymentStatus.paid
  \/ Fine.paymentStatus f = PaymentStatus.waived ->
  (Fine.paymentStatus f = PaymentStatus.paid \/ isPayOrWaive op = true ->
     fst (fineRequest op id s) = s
     /\ failed (snd (fineRequest op id s)) = true
     /\ Coll.findById Fine._id id (fines (fst (fineRequest op id s))) = Some f)
  /\ (forall env body,
        Fine.paymentStatus f = PaymentStatus.waived ->
        op = UpdateFine env body ->
        exists f',
          Coll.findById Fine._id id (fines (fst (fineRequest op id s)))
          = Some f'
          /\ sameSettlement f f')
  /\ (Fine.paymentStatus f = PaymentStatus.waived ->
      op = DeleteFine ->
      succeeded (snd (fineRequest op id s)) = true
      /\ Coll.findById Fine._id id (fines (fst (fineRequest op id s))) = None).
Proof.
  intros Hf Hst.
  destruct (findById_some _ _ _ _ Hf) as [Hid _].
  split; [ | split ].
  - intros Hcase.
    assert (H : fineRequest op id s = (s, snd (fineRequest op id s))
                /\ failed (snd (fineRequest op id s)) = true).
    { destruct op as [env staff body | env staff reason | env body |];
        unfold fineRequest, asyncHandler, processFinePayment, waiveFine,
          updateFine, deleteFine, Fines.findById;
        cbv [bind gets]; rewrite Hf; cbv [orElse ret when_ isPaid isWaived];
        destruct Hcase as [Hp | Hop];
        try discriminate Hop;
        try (rewrite Hp; split; reflexivity);
        destruct Hst as [-> | ->]; split; reflexivity. }
    destruct H as [Hrun Hfail]. rewrite Hrun. simpl fst.
    split; [reflexivity |]. split; [ | exact Hf ].
    rewrite Hrun in Hfail. exact Hfail.
  - intros env body Hw ->. cbn [fineRequest]. rewrite asyncHandler_fst.
    unfold updateFine, Fines.findById. cbv [bind gets]. rewrite Hf.
    cbv [orElse ret when_ isPaid]. rewrite Hw. cbn [PaymentStatus.eqb].
    cbv zeta.
    match goal with
    | |- context [Fines.save env ?d s] =>
        destruct (Fines_save_cases env d s) as [[e ->] | [_ [_ ->]]]
    end.
    + exists f. split; [exact Hf | repeat split].
    + cbn [fst fines set_fines json].
      rewrite preSave_unpaid by (cbn [Fine.paymentStatus]; discriminate).
      eexists. split.
      * apply (findById_replaceOne_same _ _ _ _ f); [exact Hf | exact Hid].
      * repeat split; cbn; congruence.
  - intros Hw ->. cbn [fineRequest]. unfold asyncHandler.
    unfold deleteFine, Fines.findById, Fines.findByIdAndDelete.
    cbv [bind gets]. rewrite Hf.
    cbv [orElse ret when_ isPaid modify json]. rewrite Hw.
    cbn [PaymentStatus.eqb fst snd succeeded success fines set_fines].
    split; [reflexivity |].
    apply findById_deleteOne_same.
Qed.

Lemma C8_settled_fine_frame_witness :
  (fst (fineRequest raiseAmount 3000 paidStore) = paidStore
   /\ failed (snd (fineRequest raiseAmount 3000 paidStore)) = true)
  /\ exists f',
       Coll.findById Fine._id 3000
         (fines (fst (fineRequest raiseAmount 3000 waivedStore)))
       = Some f'
       /\ Fine.userId f' = 1%nat /\ Fine.transactionId f' = 1000%nat
       /\ Fine.paymentStatus f' = PaymentStatus.waived
       /\ Fine.processedBy f' = Some 9%nat.
Proof.
  split.
  - destruct (C8_settled_fine_frame raiseAmount 3000
                (Fine.mk 3000 1 1000 (1 * dailyRate)%Q Reason.overdue
                   PaymentStatus.paid (Some (16 * msPerDay))
                   (Some PaymentMethod.cash) (Some 9%nat) None (16 * msPerDay))
                paidStore eq_refl (or_introl eq_refl)) as [H _].
    destruct (H (or_introl eq_refl)) as [H1 [H2 _]].
    split; [exact H1 | exact H2].
  - assert (Hw : Coll.findById Fine._id 3000 (fines waivedStore)
                 = Some (Fine.mk 3000 1 1000 (1 * dailyRate)%Q Reason.overdue
                           PaymentStatus.waived None None (Some 9%nat)
                           (Some "Waived: goodwill") (16 * msPerDay)))
      by (vm_compute; reflexivity).
    destruct (C8_settled_fine_frame raiseAmount 3000 _ waivedStore Hw
                (or_intror eq_refl)) as [_ [H _]].
    destruct (H (mkEnv (17 * msPerDay) 0)
                (mkUpdateFineBody (Some 99%Q) (Some Reason.damage) None)
                eq_refl eq_refl)
      as [f' [Hf' [_ [Hu [Ht [Hs [_ [_ Hb]]]]]]]].
    exists f'. repeat split; assumption.
Defined.

(** C8, as stated, fails: fine 3000 is waived with amount 1 and reason
    overdue; updateFine succeeds on it and stores amount 99 and reason
    damage, and deleteFine succeeds on it and removes the record. *)
Lemma C8_counterexample :
  option_map Fine.paymentStatus
    (Coll.findById Fine._id 3000 (fines waivedStore))
  = Some PaymentStatus.waived
  /\ option_map Fine.amount (Coll.findById Fine._id 3000 (fines waivedStore))
     = Some (1 * dailyRate)%Q
  /\ succeeded (snd (fineRequest raiseAmount 3000 waivedStore)) = true
  /\ option_map Fine.amount
       (Coll.findById Fine._id 3000
          (fines (fst (fineRequest raiseAmount 3000 waivedStore))))
     = Some 99%Q
  /\ succeeded (snd (fineRequest DeleteFine 3000 waivedStore)) = true
  /\ Coll.findById Fine._id 3000
       (fines (fst (fineRequest DeleteFine 3000 waivedStore)))
     = None.
Proof. repeat split. Qed.

(** ** extendDueDate *)

(** C10. On a loan with status issued (a stored document, which passes
    the validators and the save hook of its schema), extendDueDate
    succeeds for every new due date, without checking it against the
    clock or the issue date: afterwards the loan is still issued and its
    dueDate is the new one, so that a new due date before now makes the
    loan overdue at once. *)
Theorem C10_extend_unchecked env id due reason s t :
  Coll.findById Transaction._id id (transactions s) = Some t ->
  Transaction.status t = TxStatus.issued ->
  validTransaction t ->
  let r := asyncHandler (extendDueDate env id (mkExtendBody (Some due) reason)) s in
  succeeded (snd r) = true
  /\ exists t',
       Coll.findById Transaction._id id (transactions (fst r)) = Some t'
       /\ Transaction.dueDate t' = due
       /\ Transaction.status t' = TxStatus.issued
       /\ Transaction.issueDate t' = Transaction.issueDate t
       /\ (due < now env -> isOverdue (now env) t' = true).
Proof.
  intros Hfind Hst [Hv Hp] r. subst r.
  destruct (findById_some _ _ _ _ Hfind) as [Hid _].
  unfold asyncHandler, extendDueDate, Transactions.findById.
  cbv [bind gets]. rewrite Hfind. cbv [orElse ret when_]. rewrite Hst.
  cbv [TxStatus.eqb negb newDueDate].
  erewrite Transactions_save_ok;
    [ | split; [ exact Hv | exact Hp ] | simpl; rewrite Hid; exact Hfind ].
  simpl. split; [reflexivity |].
  eexists. split.
  - eapply findById_replaceOne_same; [exact Hfind | exact Hid].
  - simpl. repeat split; try assumption.
    intros Hpast. unfold isOverdue. simpl. rewrite Hst. simpl.
    apply Z.ltb_lt. exact Hpast.
Qed.

Lemma C10_extend_unchecked_witness :
  succeeded
    (snd (asyncHandler
            (extendDueDate extendEnv 1000 (mkExtendBody (Some (-5)) None))
            lateStore)) = true
  /\ exists t',
       Coll.findById Transaction._id 1000
         (transactions
            (fst (asyncHandler
                    (extendDueDate extendEnv 1000 (mkExtendBody (Some (-5)) None))
                    lateStore))) = Some t'
       /\ Transaction.dueDate t' = -5
       /\ Transaction.status t' = TxStatus.issued
       /\ Transaction.issueDate t' = Transaction.issueDate lateLoan
       /\ (-5 < now extendEnv -> isOverdue (now extendEnv) t' = true).
Proof.
  apply (C10_extend_unchecked extendEnv 1000 (-5) None lateStore lateLoan).
  - reflexivity.
  - reflexivity.
  - split; reflexivity.
Defined.

(** ** The reservation queue *)

Lemma autoExpire_run env s :
  fst (asyncHandler (autoExpireReservations env) s) =
  set_reservations
    (map (fun r => if isExpiredAt (now env) r
                   then Reservations.with_status ResStatus.expired (now env) r
                   else r) (reservations s)) s.
Proof. reflexivity. Qed.

(** After the sweep no reservation is both active and past its expiry
    date. *)
Lemma autoExpire_expires_all env s :
  forallb (fun r => negb (isExpiredAt (now env) r))
          (reservations (fst (asyncHandler (autoExpireReservations env) s)))
  = true.
Proof.
  rewrite autoExpire_run. simpl. rewrite forallb_forall.
  intros r Hin. apply in_map_iff in Hin. destruct Hin as [x [<- _]].
  destruct (isExpiredAt (now env) x) eqn:Hx; [reflexivity |].
  rewrite Hx. reflexivity.
Qed.

(** The sweep writes no priority: it never re-ranks. *)
Lemma autoExpire_keeps_priorities env s :
  map Reservation.priority
      (reservations (fst (asyncHandler (autoExpireReservations env) s)))
  = map Reservation.priority (reservations s).
Proof.
  rewrite autoExpire_run. simpl. rewrite map_map. apply map_ext.
  intros r. destruct (isExpiredAt (now env) r); reflexivity.
Qed.

(** The sibling paths do re-rank: in scenario D the two reservations left
    after the cancellation are ranked 1 and 2 in their original order. *)
Lemma scenarioD_cancel_reranks :
  activePriorities 100 (serveQueue scenarioD queueStore) = [1; 2]
  /\ map Reservation._id
         (filter (Reservations.isActiveFor 100)
                 (reservations (serveQueue scenarioD queueStore)))
     = [2002%nat; 2003%nat].
Proof. split; reflexivity. Qed.

(** C2, on the code: two borrowers reserve book 100 (ranks 1 and 2), the
    first reservation runs out and autoExpireReservations sweeps it; the
    one active reservation left keeps rank 2, so the ranks are not 1..1;
    the next reservation created gets rank 2 as well, a duplicate. *)
Theorem C2_sweep_breaks_queue :
  queueInvariant 100 (serveQueue twoReservations queueStore)
  /\ activePriorities 100 (serveQueue sweepOps queueStore) = [2]
  /\ ~ queueInvariant 100 (serveQueue sweepOps queueStore)
  /\ activePriorities 100 (serveQueue sweepThenReserve queueStore) = [2; 2]
  /\ ~ queueInvariant 100 (serveQueue sweepThenReserve queueStore).
Proof.
  split; [ apply Permutation_refl |].
  split; [ reflexivity |].
  split.
  - intros H. apply Permutation_length_1 in H. discriminate H.
  - split; [ reflexivity |].
    intros H.
    assert (Hin : In 1 (activePriorities 100
                          (serveQueue sweepThenReserve queueStore))).
    { eapply Permutation_in; [ apply Permutation_sym; exact H | ].
      left. reflexivity. }
    destruct Hin as [Hin | [Hin | []]]; discriminate Hin.
Qed.

(** C5, on the code: at the sweep of time 50 reservation 2001, active and
    past its expiry date 10, becomes expired, but the reservation left
    active on the same book keeps priority 2: the queue of book 100 is not
    ranked 1..1 after the sweep. *)
Theorem C5_sweep_does_not_rerank :
  statusOf 2001 (serveQueue twoReservations queueStore) = Some ResStatus.active
  /\ statusOf 2001
       (fst (asyncHandler (autoExpireReservations sweepEnv)
               (serveQueue twoReservations queueStore)))
     = Some ResStatus.expired
  /\ activePriorities 100
       (fst (asyncHandler (autoExpireReservations sweepEnv)
               (serveQueue twoReservations queueStore)))
     = [2]
  /\ ~ queueInvariant 100
         (fst (asyncHandler (autoExpireReservations sweepEnv)
                 (serveQueue twoReservations queueStore))).
Proof.
  split; [reflexivity |]. split; [reflexivity |]. split; [reflexivity |].
  intros H. apply Permutation_length_1 in H. discriminate H.
Qed.

(** ** The queue without the sweep: create, cancel and fulfill keep it *)

Lemma insertByDate_perm r l : Permutation (Reservations.insertByDate r l) (r :: l).
Proof.
  induction l as [| x l IH]; simpl; [apply Permutation_refl |].
  destruct (Reservation.reservationDate r <? Reservation.reservationDate x).
  - apply Permutation_refl.
  - apply perm_trans with (x :: r :: l);
      [ apply perm_skip; exact IH | apply perm_swap ].
Qed.

Lemma sortByDate_perm l : Permutation (Reservations.sortByDate l) l.
Proof.
  induction l as [| x l IH]; simpl; [apply perm_nil |].
  apply perm_trans with (x :: Reservations.sortByDate l);
    [ apply insertByDate_perm | apply perm_skip; exact IH ].
Qed.

Lemma NoDup_ids_eq {D} (id : D -> ObjectId) c x y :
  NoDup (map id c) -> In x c -> In y c -> id x = id y -> x = y.
Proof.
  induction c as [| z c IH]; simpl; intros Hnd Hx Hy Heq; [contradiction |].
  inversion Hnd as [| ? ? Hnotin Hnd']; subst.
  destruct Hx as [-> | Hx], Hy as [-> | Hy]; auto.
  - exfalso. apply Hnotin. rewrite Heq. apply in_map. exact Hy.
  - exfalso. apply Hnotin. rewrite <- Heq. apply in_map. exact Hx.
Qed.

Lemma NoDup_ids_filter {D} (id : D -> ObjectId) (p : D -> bool) c :
  NoDup (map id c) -> NoDup (map id (filter p c)).
Proof.
  induction c as [| z c IH]; simpl; intros Hnd; [constructor |].
  inversion Hnd as [| ? ? Hnotin Hnd']; subst.
  destruct (p z); simpl; auto.
  constructor; auto.
  intros Hin. apply Hnotin. apply in_map_iff in Hin.
  destruct Hin as [x [Hx Hin]]. apply filter_In in Hin.
  rewrite <- Hx. apply in_map. tauto.
Qed.

Lemma findById_In {D} (id : D -> ObjectId) x c :
  In x c -> isSome (Coll.findById id (id x) c) = true.
Proof.
  intros Hin. unfold Coll.findById. rewrite isSome_find.
  apply existsb_exists. exists x. split; [exact Hin |].
  unfold Coll.hasId. apply Nat.eqb_refl.
Qed.

Lemma findById_none_notin {D} (id : D -> ObjectId) i c :
  Coll.findById id i c = None -> ~ In i (map id c).
Proof.
  intros Hnone Hin. apply in_map_iff in Hin. destruct Hin as [x [Hx Hin]].
  pose proof (findById_In id x c Hin) as H. rewrite Hx, Hnone in H.
  discriminate.
Qed.

Lemma ids_replaceOne {D} (id : D -> ObjectId) d c :
  map id (Coll.replaceOne id d c) = map id c.
Proof.
  unfold Coll.replaceOne. rewrite map_map. apply map_ext_in.
  intros x _. unfold Coll.hasId.
  destruct (Nat.eqb_spec (id x) (id d)); congruence.
Qed.

Lemma rankIn_notin l i id :
  ~ In id (map Reservation._id l) -> rankIn l i id = None.
Proof.
  revert i. induction l as [| r l IH]; simpl; intros i Hnotin; [reflexivity |].
  destruct (Nat.eqb_spec (Reservation._id r) id) as [Heq | Hne].
  - exfalso. apply Hnotin. left. exact Heq.
  - apply IH. intros Hin. apply Hnotin. right. exact Hin.
Qed.

Lemma rankIn_map l i :
  NoDup (map Reservation._id l) ->
  map (fun x => rankIn l i (Reservation._id x)) l
  = map (fun k => Some (i + Z.of_nat k)) (seq 1 (List.length l)).
Proof.
  revert i. induction l as [| r l IH]; intros i Hnd; [reflexivity |].
  inversion Hnd as [| ? ? Hnotin Hnd']; subst.
  cbn [map List.length seq rankIn]. rewrite Nat.eqb_refl.
  f_equal; try (f_equal; lia); [].
  rewrite <- seq_shift, map_map.
  rewrite <- (map_ext (fun k => Some (i + 1 + Z.of_nat k)))
    by (intros k; f_equal; lia).
  rewrite <- (IH (i + 1) Hnd'). apply map_ext_in.
  intros x Hx.
  destruct (Nat.eqb_spec (Reservation._id r) (Reservation._id x)) as [Heq | _];
    [ | reflexivity ].
  exfalso. apply Hnotin. rewrite Heq. apply in_map. exact Hx.
Qed.

Lemma reranked_priority l i x k :
  rankIn l i (Reservation._id x) = Some k ->
  Reservation.priority (reranked l i x) = k.
Proof. unfold reranked. intros ->. reflexivity. Qed.

Lemma reranked_fields l i x :
  Reservation._id (reranked l i x) = Reservation._id x
  /\ Reservation.userId (reranked l i x) = Reservation.userId x
  /\ Reservation.bookId (reranked l i x) = Reservation.bookId x
  /\ Reservation.status (reranked l i x) = Reservation.status x
  /\ Reservations.preSave (reranked l i x) = Reservations.preSave x.
Proof.
  unfold reranked. destruct (rankIn l i (Reservation._id x)); repeat split.
Qed.

Lemma reranked_ranks l :
  NoDup (map Reservation._id l) ->
  map (fun x => Reservation.priority (reranked l 0 x)) l
  = ranks (List.length l).
Proof.
  intros Hnd. unfold ranks.
  assert (H : map (fun x => Some (Reservation.priority (reranked l 0 x))) l
              = map (fun k => Some (Z.of_nat k)) (seq 1 (List.length l))).
  { rewrite <- (map_ext (fun k => Some (0 + Z.of_nat k)))
      by (intros k; reflexivity).
    rewrite <- (rankIn_map l 0 Hnd). apply map_ext_in.
    intros x Hx. unfold reranked.
    destruct (rankIn l 0 (Reservation._id x)) eqn:Hr; [reflexivity |].
    exfalso. pose proof (rankIn_map l 0 Hnd) as Hm.
    assert (Hin : In (rankIn l 0 (Reservation._id x))
                     (map (fun x => rankIn l 0 (Reservation._id x)) l)).
    { apply in_map_iff. exists x. auto. }
    rewrite Hm, Hr in Hin. apply in_map_iff in Hin.
    destruct Hin as [k [Hk _]]. discriminate. }
  rewrite <- (map_map (fun x => Reservation.priority (reranked l 0 x)) Some) in H.
  rewrite <- (map_map Z.of_nat Some) in H.
  revert H. generalize (map (fun x => Reservation.priority (reranked l 0 x)) l).
  generalize (map Z.of_nat (seq 1 (List.length l))).
  intros l1 l2. revert l1. induction l2 as [| a l2 IH]; intros [| b l1];
    simpl; intros H; try discriminate; [reflexivity |].
  injection H as Ha Hl. f_equal; auto.
Qed.

Lemma uniqueIndex_of_stored c r0 r :
  uniqueActive c -> In r0 c ->
  Reservation._id r = Reservation._id r0 ->
  Reservation.userId r = Reservation.userId r0 ->
  Reservation.bookId r = Reservation.bookId r0 ->
  (Reservations.isActive r = true -> Reservations.isActive r0 = true) ->
  Reservations.uniqueIndex r c = None.
Proof.
  intros Hu Hin Hid Huser Hbook Hact. unfold Reservations.uniqueIndex.
  destruct (Reservations.isActive r) eqn:Ha; [ | reflexivity ].
  destruct (existsb _ c) eqn:He; [ | reflexivity ].
  exfalso. apply existsb_exists in He. destruct He as [x [Hx Hc]].
  apply andb_prop in Hc. destruct Hc as [Hne Hsame].
  unfold Reservations.isActiveOfFor in Hsame.
  apply andb_prop in Hsame. destruct Hsame as [Hsame Hxa].
  apply andb_prop in Hsame. destruct Hsame as [Hxu Hxb].
  apply Nat.eqb_eq in Hxu, Hxb.
  assert (Heq : Reservation._id x = Reservation._id r0).
  { apply (Hu x r0 Hx Hin Hxa (Hact eq_refl)); congruence. }
  rewrite Hid, <- Heq, Nat.eqb_refl in Hne. discriminate.
Qed.

Lemma Reservations_save_ok r r0 s :
  Reservations.validate r = None ->
  Reservations.preSave r = None ->
  Reservations.uniqueIndex r (reservations s) = None ->
  In r0 (reservations s) ->
  Reservation._id r = Reservation._id r0 ->
  Reservations.save r s =
  (set_reservations (Coll.replaceOne Reservation._id r (reservations s)) s,
   Next tt).
Proof.
  intros Hv Hp Hu Hin Hid.
  unfold Reservations.save, Coll.saveExisting. cbv [bind gets check].
  rewrite Hv, Hp. cbv [ret]. rewrite Hu. cbv [ret].
  rewrite Hid, (findById_In Reservation._id r0 _ Hin). reflexivity.
Qed.

Lemma uniqueActive_map (g : Reservation.t -> Reservation.t) c :
  (forall x, In x c ->
             Reservation._id (g x) = Reservation._id x
             /\ Reservation.userId (g x) = Reservation.userId x
             /\ Reservation.bookId (g x) = Reservation.bookId x
             /\ (Reservations.isActive (g x) = true ->
                 Reservations.isActive x = true)) ->
  uniqueActive c -> uniqueActive (map g c).
Proof.
  intros Hg Hu a b Ha Hb Haa Hba Huser Hbook.
  apply in_map_iff in Ha, Hb.
  destruct Ha as [a0 [<- Ha]], Hb as [b0 [<- Hb]].
  destruct (Hg a0 Ha) as [Ha1 [Ha2 [Ha3 Ha4]]].
  destruct (Hg b0 Hb) as [Hb1 [Hb2 [Hb3 Hb4]]].
  rewrite Ha1, Hb1. apply Hu; auto; congruence.
Qed.

Lemma store_eta s : set_reservations (reservations s) s = s.
Proof. destruct s; reflexivity. Qed.

Lemma set_reservations_twice c c' s :
  set_reservations c (set_reservations c' s) = set_reservations c s.
Proof. reflexivity. Qed.

Lemma replaceOne_as_map r c :
  Coll.replaceOne Reservation._id r c
  = map (fun x => if Nat.eqb (Reservation._id x) (Reservation._id r)
                  then r else x) c.
Proof. reflexivity. Qed.

(** The loop of [updateReservationPriorities] runs to its end on a
    well-formed collection and gives every document of [l] its rank. *)
Lemma renumber_run l : forall i s,
  0 <= i ->
  NoDup (map Reservation._id l) ->
  NoDup (map Reservation._id (reservations s)) ->
  (forall x, In x l -> In x (reservations s)) ->
  (forall x, In x l -> Reservations.preSave x = None) ->
  uniqueActive (reservations s) ->
  renumber i l s =
  (set_reservations (map (reranked l i) (reservations s)) s, Next tt).
Proof.
  induction l as [| r l IH]; intros i s Hi Hndl Hnds Hin Hpre Hu.
  - simpl. unfold ret.
    rewrite (map_ext (reranked [] i) (fun x => x)) by reflexivity.
    rewrite map_id, store_eta. reflexivity.
  - inversion Hndl as [| ? ? Hnotin Hndl']; subst.
    assert (Hr : In r (reservations s)) by (apply Hin; left; reflexivity).
    cbn [renumber]. unfold bind at 1.
    rewrite (Reservations_save_ok (Reservations.with_priority (i + 1) r) r s).
    + rewrite IH.
      * cbn [reservations set_reservations]. rewrite set_reservations_twice.
        f_equal. f_equal. rewrite replaceOne_as_map, map_map.
        apply map_ext_in. intros y Hy. cbn [Reservations.with_priority Reservation._id].
        unfold reranked at 2. cbn [rankIn].
        destruct (Nat.eqb_spec (Reservation._id y) (Reservation._id r)) as [Heq | Hne].
        -- rewrite (NoDup_ids_eq Reservation._id _ y r Hnds Hy Hr Heq).
           rewrite Nat.eqb_refl. unfold reranked.
           cbn [Reservations.with_priority Reservation._id].
           rewrite (rankIn_notin l (i + 1) _ Hnotin). reflexivity.
        -- destruct (Nat.eqb_spec (Reservation._id r) (Reservation._id y));
             [congruence | reflexivity].
      * lia.
      * exact Hndl'.
      * cbn [reservations set_reservations]. rewrite ids_replaceOne. exact Hnds.
      * intros x Hx. cbn [reservations set_reservations].
        rewrite replaceOne_as_map. apply in_map_iff. exists x.
        split; [ | apply Hin; right; exact Hx ].
        cbn [Reservations.with_priority Reservation._id].
        destruct (Nat.eqb_spec (Reservation._id x) (Reservation._id r)) as [Heq | _];
          [ | reflexivity ].
        exfalso. apply Hnotin. rewrite <- Heq. apply in_map. exact Hx.
      * intros x Hx. apply Hpre. right. exact Hx.
      * cbn [reservations set_reservations]. rewrite replaceOne_as_map.
        apply uniqueActive_map; [ | exact Hu ].
        intros x Hx. cbn [Reservations.with_priority Reservation._id].
        destruct (Nat.eqb_spec (Reservation._id x) (Reservation._id r)) as [Heq | _];
          [ | repeat split; auto ].
        rewrite (NoDup_ids_eq Reservation._id _ x r Hnds Hx Hr Heq).
        repeat split; auto.
    + unfold Reservations.validate. simpl.
      destruct (Z.ltb_spec (i + 1) 1); [lia | reflexivity].
    + unfold Reservations.preSave. simpl. apply (Hpre r). left. reflexivity.
    + apply (uniqueIndex_of_stored _ r); auto.
    + exact Hr.
    + reflexivity.
Qed.

Lemma filter_map_commute {A} (p : A -> bool) (g : A -> A) c :
  (forall x, In x c -> p (g x) = p x) ->
  filter p (map g c) = map g (filter p c).
Proof.
  induction c as [| x c IH]; simpl; intros H; [reflexivity |].
  rewrite (H x (or_introl eq_refl)).
  destruct (p x); simpl; rewrite IH; auto.
Qed.

(** A rewriting of the collection that leaves the queue of a book alone. *)
Lemma activePriorities_other_book (g : Reservation.t -> Reservation.t) c book s :
  (forall x, In x c ->
     Reservations.isActiveFor book (g x) = Reservations.isActiveFor book x) ->
  (forall x, In x c -> Reservations.isActiveFor book x = true -> g x = x) ->
  activePriorities book (set_reservations (map g c) s)
  = map Reservation.priority (filter (Reservations.isActiveFor book) c).
Proof.
  intros Hp Hid. unfold activePriorities. cbn [reservations set_reservations].
  rewrite (filter_map_commute _ g c Hp). f_equal.
  rewrite <- (map_id (filter (Reservations.isActiveFor book) c)) at 2.
  apply map_ext_in. intros x Hx. apply filter_In in Hx.
  apply Hid; tauto.
Qed.

Lemma isActiveFor_reranked l i book x :
  Reservations.isActiveFor book (reranked l i x)
  = Reservations.isActiveFor book x.
Proof.
  unfold Reservations.isActiveFor, Reservations.isActive.
  destruct (reranked_fields l i x) as [_ [_ [-> [-> _]]]]. reflexivity.
Qed.

Lemma collectionWf_reranked l i c :
  collectionWf c -> collectionWf (map (reranked l i) c).
Proof.
  intros [Hnd [Hpre Hu]]. split; [ | split ].
  - rewrite map_map.
    rewrite (map_ext _ Reservation._id); [exact Hnd |].
    intros x. apply (reranked_fields l i x).
  - apply Forall_map. eapply Forall_impl; [ | exact Hpre ].
    intros x Hx. destruct (reranked_fields l i x) as [_ [_ [_ [_ ->]]]].
    exact Hx.
  - apply uniqueActive_map; [ | exact Hu ].
    intros x _. destruct (reranked_fields l i x) as [H1 [H2 [H3 [H4 _]]]].
    unfold Reservations.isActive. rewrite H4. auto.
Qed.

(** [updateReservationPriorities] on a well-formed collection: it ends,
    the queue of the book is ranked [1..N], the other queues and the
    documents outside the queue are as before. *)
Lemma updateReservationPriorities_run book s :
  collectionWf (reservations s) ->
  exists s',
    updateReservationPriorities book s = (s', Next tt)
    /\ collectionWf (reservations s')
    /\ queueInvariant book s'
    /\ (forall b, b <> book -> activePriorities b s' = activePriorities b s)
    /\ users s' = users s /\ books s' = books s
    /\ transactions s' = transactions s /\ fines s' = fines s.
Proof.
  intros Hwf. destruct Hwf as [Hnd [Hpre Hu]].
  set (c := reservations s).
  set (F := filter (Reservations.isActiveFor book) c).
  set (l := Reservations.sortByDate F).
  assert (Hperm : Permutation l F) by apply sortByDate_perm.
  assert (Hndl : NoDup (map Reservation._id l)).
  { apply (Permutation_NoDup (l := map Reservation._id F)).
    - apply Permutation_map, Permutation_sym, Hperm.
    - apply NoDup_ids_filter. exact Hnd. }
  assert (Hin : forall x, In x l -> In x c /\ Reservations.isActiveFor book x = true).
  { intros x Hx. apply (Permutation_in _ Hperm) in Hx.
    apply filter_In in Hx. exact Hx. }
  exists (set_reservations (map (reranked l 0) c) s).
  split.
  - unfold updateReservationPriorities, Reservations.findSorted.
    cbv [bind gets]. fold c. fold F. fold l.
    apply renumber_run; auto; try lia.
    + intros x Hx. apply (Hin x Hx).
    + intros x Hx. rewrite Forall_forall in Hpre. apply Hpre. apply (Hin x Hx).
  - split; [ apply collectionWf_reranked; repeat split; assumption |].
    split; [ | split; [ | repeat split ] ].
    + unfold queueInvariant, activePriorities.
      cbn [reservations set_reservations].
      rewrite (filter_map_commute _ (reranked l 0) c)
        by (intros x _; apply isActiveFor_reranked).
      fold F. rewrite map_map, length_map.
      rewrite <- (Permutation_length Hperm).
      rewrite <- (reranked_ranks l Hndl).
      apply Permutation_map, Permutation_sym, Hperm.
    + intros b Hb.
      rewrite activePriorities_other_book; [ reflexivity | | ].
      * intros x _. apply isActiveFor_reranked.
      * intros x Hx Hact. unfold reranked.
        rewrite rankIn_notin; [reflexivity |].
        intros Hid. apply in_map_iff in Hid. destruct Hid as [y [Hy Hyl]].
        destruct (Hin y Hyl) as [Hyc Hyb].
        assert (y = x) by (apply (NoDup_ids_eq Reservation._id c); auto).
        subst y. unfold Reservations.isActiveFor in Hact, Hyb.
        apply andb_prop in Hact, Hyb.
        destruct Hact as [Hact _], Hyb as [Hyb _].
        apply Nat.eqb_eq in Hact, Hyb. congruence.
Qed.

Lemma Reservations_save_cases r s :
  (exists e, Reservations.save r s = (s, Thrown e))
  \/ (Reservations.save r s =
      (set_reservations (Coll.replaceOne Reservation._id r (reservations s)) s,
       Next tt)
      /\ Reservations.preSave r = None).
Proof.
  unfold Reservations.save, Coll.saveExisting. cbv [bind gets check ret throw modify].
  destruct (Reservations.validate r); [left; eexists; reflexivity |].
  destruct (Reservations.preSave r); [left; eexists; reflexivity |].
  destruct (Reservations.uniqueIndex r (reservations s));
    [left; eexists; reflexivity |].
  destruct (isSome _); [right; split; reflexivity | left; eexists; reflexivity].
Qed.

Lemma Reservations_create_cases env u b e p s :
  let r := Reservation.mk (newObjectId env) u b (now env) e ResStatus.active
                          p None None (now env) in
  (exists err, Reservations.create env u b e p s = (s, Thrown err))
  \/ (Reservations.create env u b e p s =
      (set_reservations (Coll.insertOne r (reservations s)) s, Next r)
      /\ Reservations.preSave r = None
      /\ Reservations.uniqueIndex r (reservations s) = None
      /\ Coll.findById Reservation._id (newObjectId env) (reservations s) = None).
Proof.
  intros r. unfold Reservations.create, Coll.insertNew.
  cbv [bind gets check ret throw modify]. fold r.
  destruct (Reservations.validate r); [left; eexists; reflexivity |].
  destruct (Reservations.preSave r); [left; eexists; reflexivity |].
  destruct (Reservations.uniqueIndex r (reservations s));
    [left; eexists; reflexivity |].
  cbn [Reservation._id r].
  destruct (Coll.findById Reservation._id (newObjectId env) (reservations s));
    [left; eexists; reflexivity | right; repeat split; reflexivity].
Qed.

(** A reservation that leaves the active set: the collection stays
    well-formed and the queues of the other books are untouched. *)
Lemma leave_active_set r r' s :
  collectionWf (reservations s) ->
  In r (reservations s) ->
  Reservation._id r' = Reservation._id r ->
  Reservation.userId r' = Reservation.userId r ->
  Reservation.bookId r' = Reservation.bookId r ->
  Reservations.isActive r' = false ->
  Reservations.preSave r' = None ->
  let s1 := set_reservations
              (Coll.replaceOne Reservation._id r' (reservations s)) s in
  collectionWf (reservations s1)
  /\ forall b, b <> Reservation.bookId r ->
               activePriorities b s1 = activePriorities b s.
Proof.
  intros [Hnd [Hpre Hu]] Hr Hid Huser Hbook Hina Hp s1. subst s1.
  split; [ split; [ | split ] | ]; cbn [reservations set_reservations].
  - rewrite ids_replaceOne. exact Hnd.
  - apply replaceOne_Forall; assumption.
  - rewrite replaceOne_as_map. apply uniqueActive_map; [ | exact Hu ].
    intros x Hx.
    destruct (Nat.eqb_spec (Reservation._id x) (Reservation._id r')) as [Heq | _];
      [ | repeat split; auto ].
    assert (x = r) by (apply (NoDup_ids_eq Reservation._id (reservations s));
                       auto; congruence).
    subst x. repeat split; auto. rewrite Hina. discriminate.
  - intros b Hb. rewrite replaceOne_as_map.
    rewrite activePriorities_other_book; [ reflexivity | | ].
    + intros x Hx.
      destruct (Nat.eqb_spec (Reservation._id x) (Reservation._id r')) as [Heq | _];
        [ | reflexivity ].
      assert (x = r) by (apply (NoDup_ids_eq Reservation._id (reservations s));
                         auto; congruence).
      subst x. unfold Reservations.isActiveFor. rewrite Hbook.
      destruct (Nat.eqb_spec (Reservation.bookId r) b); [congruence | reflexivity].
    + intros x Hx Hact.
      destruct (Nat.eqb_spec (Reservation._id x) (Reservation._id r')) as [Heq | _];
        [ | reflexivity ].
      assert (x = r) by (apply (NoDup_ids_eq Reservation._id (reservations s));
                         auto; congruence).
      subst x. unfold Reservations.isActiveFor in Hact.
      apply andb_prop in Hact. destruct Hact as [Hact _].
      apply Nat.eqb_eq in Hact. congruence.
Qed.

Lemma queueInvariant_same book s s' :
  activePriorities book s' = activePriorities book s ->
  queueInvariant book s -> queueInvariant book s'.
Proof. unfold queueInvariant. intros ->. auto. Qed.

(** Leaving the active set and then re-ranking keeps the store
    well-formed. *)
Lemma leave_then_rerank r r' s :
  queueWf s ->
  In r (reservations s) ->
  Reservation._id r' = Reservation._id r ->
  Reservation.userId r' = Reservation.userId r ->
  Reservation.bookId r' = Reservation.bookId r ->
  Reservations.isActive r' = false ->
  forall (k : Handler unit),
    (forall s0, fst (k s0) = s0) ->
    queueWf (fst ((Reservations.save r' ;;
                   updateReservationPriorities (Reservation.bookId r) ;; k) s)).
Proof.
  intros [Hwf Hq] Hr Hid Huser Hbook Hina k Hk.
  unfold bind at 1.
  destruct (Reservations_save_cases r' s) as [[e ->] | [-> Hp]];
    [ split; assumption |].
  destruct (leave_active_set r r' s Hwf Hr Hid Huser Hbook Hina Hp) as [Hwf1 Hq1].
  unfold bind at 1.
  destruct (updateReservationPriorities_run (Reservation.bookId r) _ Hwf1)
    as [s' [-> [Hwf' [Hq' [Hother _]]]]].
  rewrite Hk. split; [exact Hwf' |].
  intros b. destruct (Nat.eq_dec b (Reservation.bookId r)) as [-> | Hne];
    [exact Hq' |].
  apply (queueInvariant_same b s); [ | apply Hq ].
  rewrite (Hother b Hne). apply Hq1. exact Hne.
Qed.

Lemma cancelReservation_queue env user id s :
  queueWf s -> queueWf (fst (cancelReservation env user id s)).
Proof.
  intros Hq. unfold cancelReservation, Reservations.findById.
  unfold bind at 1. unfold gets at 1.
  destruct (Coll.findById Reservation._id id (reservations s)) as [r |] eqn:Hr;
    [ | exact Hq ].
  destruct (findById_some _ _ _ _ Hr) as [_ Hin].
  unfold bind at 1. cbn [orElse ret].
  unfold bind at 1.
  destruct (negb (Nat.eqb (Reservation.userId r) (auth_id user))
            && negb (isStaff (auth_role user))); [exact Hq |].
  cbn [when_ ret]. unfold bind at 1.
  destruct (Reservations.isActive r) eqn:Hact; [ | exact Hq ].
  cbn [negb when_ ret].
  apply (leave_then_rerank r); auto.
Qed.

Lemma fulfillReservation_queue env staff id s :
  queueWf s -> queueWf (fst (fulfillReservation env staff id s)).
Proof.
  intros Hq. unfold fulfillReservation, Reservations.findById, Books.findById.
  unfold bind at 1. unfold gets at 1.
  destruct (Coll.findById Reservation._id id (reservations s)) as [r |] eqn:Hr;
    [ | exact Hq ].
  destruct (findById_some _ _ _ _ Hr) as [_ Hin].
  unfold bind at 1. cbn [orElse ret].
  unfold bind at 1.
  destruct (Reservations.isActive r) eqn:Hact; [ | exact Hq ].
  cbn [negb when_ ret].
  unfold bind at 1. unfold gets at 1.
  destruct (Coll.findById Book._id (Reservation.bookId r) (books s)) as [b |];
    [ | exact Hq ].
  unfold bind at 1. cbn [orElse ret].
  unfold bind at 1.
  destruct (Book.availableCopies b <=? 0); [exact Hq |].
  cbn [when_ ret].
  apply (leave_then_rerank r); auto.
Qed.

Lemma uniqueIndex_none_inv r c x :
  Reservations.uniqueIndex r c = None ->
  Reservations.isActive r = true ->
  In x c -> Reservations.isActive x = true ->
  Reservation.userId x = Reservation.userId r ->
  Reservation.bookId x = Reservation.bookId r ->
  Reservation._id x = Reservation._id r.
Proof.
  unfold Reservations.uniqueIndex. intros Hu Hr Hx Hxa Huser Hbook.
  rewrite Hr in Hu. cbn [andb] in Hu.
  destruct (existsb _ c) eqn:He; [discriminate |].
  destruct (Nat.eqb_spec (Reservation._id x) (Reservation._id r)) as [Heq | Hne];
    [exact Heq |].
  exfalso. rewrite <- not_true_iff_false in He. apply He.
  apply existsb_exists. exists x. split; [exact Hx |].
  unfold Reservations.isActiveOfFor. rewrite Huser, Hbook, !Nat.eqb_refl, Hxa.
  destruct (Nat.eqb_spec (Reservation._id x) (Reservation._id r));
    [contradiction | reflexivity].
Qed.

Lemma ranks_S n : ranks (S n) = (ranks n ++ [Z.of_nat (S n)])%list.
Proof. unfold ranks. rewrite seq_S, map_app. reflexivity. Qed.

(** A reservation that joins the queue of its book at rank [N + 1]. *)
Lemma join_queue r s :
  queueWf s ->
  Reservations.preSave r = None ->
  Reservations.uniqueIndex r (reservations s) = None ->
  Coll.findById Reservation._id (Reservation._id r) (reservations s) = None ->
  Reservations.isActive r = true ->
  Reservation.priority r
  = Coll.countDocuments (Reservations.isActiveFor (Reservation.bookId r))
                        (reservations s) + 1 ->
  queueWf (set_reservations (Coll.insertOne r (reservations s)) s).
Proof.
  intros [[Hnd [Hpre Hu]] Hq] Hp Hui Hnew Hact Hprio.
  pose proof (findById_none_notin _ _ _ Hnew) as Hfresh.
  unfold Coll.insertOne.
  split; [ split; [ | split ] | ]; cbn [reservations set_reservations].
  - rewrite map_app. cbn [map].
    apply (Permutation_NoDup (l := Reservation._id r :: map Reservation._id (reservations s))).
    + apply Permutation_cons_append.
    + constructor; assumption.
  - apply Forall_app. split; [exact Hpre |]. constructor; [exact Hp | constructor].
  - intros a b Ha Hb Haa Hba Huser Hbook.
    apply in_app_or in Ha, Hb.
    destruct Ha as [Ha | [<- | []]], Hb as [Hb | [<- | []]].
    + apply Hu; auto.
    + apply (uniqueIndex_none_inv _ _ a Hui); auto.
    + symmetry. apply (uniqueIndex_none_inv _ _ b Hui); auto.
    + reflexivity.
  - intros book. unfold queueInvariant, activePriorities.
    cbn [reservations set_reservations]. rewrite filter_app. cbn [filter].
    assert (Hr : Reservations.isActiveFor book r
                 = Nat.eqb (Reservation.bookId r) book).
    { unfold Reservations.isActiveFor. rewrite Hact. apply andb_true_r. }
    rewrite Hr.
    destruct (Nat.eqb_spec (Reservation.bookId r) book) as [Hb | Hb].
    + rewrite map_app, length_app. cbn [map List.length].
      rewrite Nat.add_1_r, ranks_S.
      apply Permutation_app.
      * subst book. apply Hq.
      * rewrite Hprio. unfold Coll.countDocuments. subst book.
        rewrite length_map.
        rewrite Nat2Z.inj_succ. unfold Z.succ. apply Permutation_refl.
    + rewrite app_nil_r. apply Hq.
Qed.

Lemma createReservation_queue env user body s :
  queueWf s -> queueWf (fst (createReservation env user body s)).
Proof.
  intros Hq. unfold createReservation, Books.findById, Reservations.findOne,
    Transactions.findOne, Reservations.countDocuments.
  cbv [bind gets].
  destruct (Coll.findById Book._id (reserve_bookId body) (books s)) as [b |];
    [ | exact Hq ].
  cbn [orElse ret].
  destruct ((Book.availableCopies b >? 0) && _); [exact Hq |].
  cbn [when_ ret].
  destruct (isSome (find _ (reservations s))); [exact Hq |].
  cbn [when_ ret].
  destruct (isSome (find _ (transactions s))); [exact Hq |].
  cbn [when_ ret].
  destruct (_ >=? _); [exact Hq |].
  cbn [when_ ret].
  match goal with
  | |- context [Reservations.create ?e ?u ?b ?x ?p ?s] =>
      destruct (Reservations_create_cases e u b x p s)
        as [[err ->] | [-> [Hp [Hu Hnew]]]]
  end; [exact Hq |].
  cbn [json fst].
  apply join_queue; auto.
Qed.

(** Served one after the other, createReservation, cancelReservation and
    fulfillReservation keep a well-formed store well-formed: every queue
    stays ranked [1..N] without gap or duplicate. Only the sweep is
    missing from this list. *)
Theorem queue_kept_without_sweep (ops : list QueueOp) (s : Store) :
  forallb (fun op => negb (isSweep op)) ops = true ->
  queueWf s -> queueWf (serveQueue ops s).
Proof.
  revert s. induction ops as [| op ops IH]; intros s Hops Hq; [exact Hq |].
  cbn [forallb] in Hops. apply andb_prop in Hops. destruct Hops as [Hop Hops].
  cbn [serveQueue fold_left]. apply IH; [exact Hops |].
  destruct op; cbn [queueRequest]; rewrite asyncHandler_fst.
  - apply createReservation_queue. exact Hq.
  - apply cancelReservation_queue. exact Hq.
  - apply fulfillReservation_queue. exact Hq.
  - discriminate Hop.
Qed.

(** * Further properties of the lifecycle *)

(** ** What a handler can leave in the store *)

Lemma Books_save_cases b s :
  (~ (copiesInvariant b
      /\ isSome (Coll.findById Book._id (Book._id b) (books s)) = true)
   /\ fst (Books.save b s) = s)
  \/ (copiesInvariant b
      /\ isSome (Coll.findById Book._id (Book._id b) (books s)) = true
      /\ Books.save b s
         = (set_books (Coll.replaceOne Book._id b (books s)) s, Next tt)).
Proof.
  unfold Books.save, Books.validate, Books.preSave, Coll.saveExisting,
    copiesInvariant.
  cbv [bind gets check ret throw modify].
  destruct (Z.ltb_spec (Book.totalCopies b) 0);
    [left; split; [intros [[? ?] _]; lia | reflexivity] |].
  destruct (Z.ltb_spec (Book.availableCopies b) 0);
    [left; split; [intros [[? ?] _]; lia | reflexivity] |].
  destruct (Z.gtb_spec (Book.availableCopies b) (Book.totalCopies b));
    [left; split; [intros [[? ?] _]; lia | reflexivity] |].
  destruct (isSome _) eqn:Hf.
  - right. repeat split; auto; lia.
  - left. split; [intros [_ ?]; discriminate | reflexivity].
Qed.

Lemma Transactions_save_cases t s :
  (exists e, Transactions.save t s = (s, Thrown e))
  \/ (validTransaction t
      /\ Transactions.save t s
         = (set_transactions
              (Coll.replaceOne Transaction._id t (transactions s)) s, Next tt)).
Proof.
  unfold Transactions.save, Coll.saveExisting, validTransaction.
  cbv [bind gets check ret throw modify].
  destruct (Transactions.validate t); [left; eexists; reflexivity |].
  destruct (Transactions.preSave t); [left; eexists; reflexivity |].
  destruct (isSome _); [right; auto | left; eexists; reflexivity].
Qed.

Lemma returned_valid_inv env fine staff notes t :
  validTransaction (returned_ (now env) fine staff notes t) ->
  Transaction.issueDate t <= now env.
Proof.
  intros [_ Hp]. unfold Transactions.preSave in Hp. simpl in Hp.
  destruct (Z.ltb_spec (now env) (Transaction.issueDate t));
    [discriminate | assumption].
Qed.

Lemma releaseCopy_effect t s s1 :
  books s1 = books s ->
  afterRelease t s s1
    (fst (releaseCopy
            (Coll.findById Book._id (Transaction.bookId t) (books s)) s1)).
Proof.
  intros Hb. unfold afterRelease.
  destruct (Coll.findById Book._id (Transaction.bookId t) (books s))
    as [b |] eqn:Hfind; [ | reflexivity ].
  destruct (findById_some _ _ _ _ Hfind) as [Hid _].
  unfold releaseCopy, Books.findById. cbv [bind gets orElse ret].
  rewrite Hb, Hid, Hfind.
  set (b' := Books.with_availableCopies (Book.availableCopies b + 1) b).
  destruct (Books_save_cases b' s1) as [[Hno Heq] | [Hinv [_ Heq]]].
  - right. split.
    + intros Hinv. apply Hno. split; [exact Hinv |].
      rewrite Hb. change (Book._id b') with (Book._id b).
      rewrite Hid, Hfind. reflexivity.
    + destruct (Books.save b' s1) as [s2 [[] | r | e]]; exact Heq.
  - left. rewrite Heq, Hb. auto.
Qed.

(** returnBook, every way it can end. *)
Lemma returnBook_effect env staff id notes s :
  fst (returnBook env staff id notes s) = s
  \/ exists t fa s0,
       Coll.findById Transaction._id id (transactions s) = Some t
       /\ Transaction.status t = TxStatus.issued
       /\ afterFine env t s fa s0
       /\ (fst (returnBook env staff id notes s) = s0
           \/ (Transaction.issueDate t <= now env
               /\ afterRelease t s
                    (set_transactions
                       (Coll.replaceOne Transaction._id
                          (returned_ (now env) fa (auth_id staff) notes t)
                          (transactions s)) s0)
                    (fst (returnBook env staff id notes s)))).
Proof.
  unfold returnBook, Transactions.findById, Users.findById, Books.findById.
  cbv [bind gets].
  destruct (Coll.findById Transaction._id id (transactions s)) as [t |] eqn:Hfind;
    [ | left; reflexivity ].
  cbv [orElse ret when_].
  destruct (Transaction.status t) eqn:Hst; try (left; reflexivity).
  cbv [TxStatus.eqb negb].
  destruct (Z.gtb_spec (now env) (Transaction.dueDate t)) as [Hlate | Hearly].
  - destruct (Coll.findById User._id (Transaction.userId t) (users s))
      as [u |] eqn:Hu; [ | left; reflexivity ].
    destruct (Coll.findById Fine._id (newObjectId env) (fines s)) eqn:Hnew.
    + left. unfold Fines.create, Coll.insertNew, Fines.validate.
      cbv [bind gets check ret throw modify]. simpl.
      rewrite fine_amount_valid
        by (pose proof (ceilDays_pos (now env - Transaction.dueDate t)); lia).
      rewrite Hnew. reflexivity.
    + right.
      assert (Hamt : Qle_bool 0 (Fine.amount (overdueFine env t u)) = true).
      { apply fine_amount_valid.
        pose proof (ceilDays_pos (now env - Transaction.dueDate t)). lia. }
      rewrite Fines_create_ok; [ | exact Hamt | exact Hnew ].
      exists t, (Fine.amount (overdueFine env t u)).
      eexists. split; [reflexivity |]. split; [exact Hst |].
      split.
      { right. split; [exact Hlate |]. exists u. repeat split; auto. }
      match goal with
      | |- context [Transactions.save ?d ?s0] =>
          destruct (Transactions_save_cases d s0) as [[e ->] | [Hv ->]]
      end; [left; reflexivity | right].
      split; [apply (returned_valid_inv _ _ _ _ _ Hv) |].
      apply releaseCopy_effect. reflexivity.
  - right. exists t, 0%Q, s. split; [reflexivity |]. split; [exact Hst |].
    split; [left; auto |].
    match goal with
    | |- context [Transactions.save ?d ?s0] =>
        destruct (Transactions_save_cases d s0) as [[e ->] | [Hv ->]]
    end; [left; reflexivity | right].
    split; [apply (returned_valid_inv _ _ _ _ _ Hv) |].
    apply releaseCopy_effect. reflexivity.
Qed.

(** ** Handlers that do not write a collection leave intact what depends
       on it *)

Section Frames.
Variable P : Store -> Prop.

Lemma Books_save_pres b :
  (forall c s, P s -> P (set_books c s)) -> preserves P (Books.save b).
Proof.
  intros Hst. unfold Books.save. pres.
  apply preserves_saveExisting. auto.
Qed.

Lemma Transactions_save_pres t :
  (forall c s, P s -> P (set_transactions c s)) ->
  preserves P (Transactions.save t).
Proof.
  intros Hst. unfold Transactions.save. pres.
  apply preserves_saveExisting. auto.
Qed.

Lemma Fines_save_pres env f :
  (forall c s, P s -> P (set_fines c s)) -> preserves P (Fines.save env f).
Proof.
  intros Hst. unfold Fines.save. pres.
  apply preserves_saveExisting. auto.
Qed.

Lemma Fines_create_pres env u t a r n :
  (forall c s, P s -> P (set_fines c s)) ->
  preserves P (Fines.create env u t a r n).
Proof.
  intros Hst. unfold Fines.create. pres.
  apply preserves_insertNew. auto.
Qed.

Lemma Fines_delete_pres i :
  (forall c s, P s -> P (set_fines c s)) ->
  preserves P (Fines.findByIdAndDelete i).
Proof. intros Hst. apply (preserves_modify P). auto. Qed.

Lemma Reservations_save_pres r :
  (forall c s, P s -> P (set_reservations c s)) ->
  preserves P (Reservations.save r).
Proof.
  intros Hst. unfold Reservations.save. pres.
  apply preserves_saveExisting. auto.
Qed.

Lemma Reservations_create_pres env u b e p :
  (forall c s, P s -> P (set_reservations c s)) ->
  preserves P (Reservations.create env u b e p).
Proof.
  intros Hst. unfold Reservations.create. pres.
  apply preserves_insertNew. auto.
Qed.

Lemma Reservations_updateMany_pres p f :
  (forall c s, P s -> P (set_reservations c s)) ->
  preserves P (Reservations.updateMany p f).
Proof.
  intros Hst. unfold Reservations.updateMany, Reservations.countDocuments.
  pres. apply (preserves_modify P). auto.
Qed.

Lemma renumber_pres l :
  (forall c s, P s -> P (set_reservations c s)) ->
  forall i, preserves P (renumber i l).
Proof.
  intros Hst. induction l as [| r l IH]; intros i; cbn [renumber].
  - apply preserves_ret.
  - apply preserves_bind; [ apply Reservations_save_pres; exact Hst | ].
    intros _. apply IH.
Qed.

Lemma updateReservationPriorities_pres book :
  (forall c s, P s -> P (set_reservations c s)) ->
  preserves P (updateReservationPriorities book).
Proof.
  intros Hst. unfold updateReservationPriorities, Reservations.findSorted.
  apply preserves_bind; [ apply preserves_gets | ].
  intros l. apply renumber_pres. exact Hst.
Qed.
End Frames.

#[local] Hint Resolve Books_save_pres Transactions_save_pres Fines_save_pres
  Fines_create_pres Fines_delete_pres Reservations_save_pres
  Reservations_create_pres Reservations_updateMany_pres
  updateReservationPriorities_pres : pres.

Lemma fineRequest_pres (P : Store -> Prop) op id s :
  (forall c s, P s -> P (set_fines c s)) ->
  P s -> P (fst (fineRequest op id s)).
Proof.
  intros Hst H. destruct op; cbn [fineRequest];
    apply preserves_asyncHandler; auto;
    unfold processFinePayment, waiveFine, updateFine, deleteFine,
      Fines.findById; pres.
Qed.

Lemma createFine_pres (P : Store -> Prop) env body s :
  (forall c s, P s -> P (set_fines c s)) ->
  P s -> P (fst (asyncHandler (createFine env body) s)).
Proof.
  intros Hst H. apply preserves_asyncHandler; auto.
  unfold createFine, Users.findById, Transactions.findById, Fines.findOne.
  pres.
Qed.

Lemma queueRequest_pres (P : Store -> Prop) op s :
  (forall c s, P s -> P (set_reservations c s)) ->
  P s -> P (fst (queueRequest op s)).
Proof.
  intros Hst H. destruct op; cbn [queueRequest];
    apply preserves_asyncHandler; auto;
    unfold createReservation, cancelReservation, fulfillReservation,
      autoExpireReservations, Books.findById, Reservations.findById,
      Reservations.findOne, Reservations.countDocuments, Transactions.findOne;
    pres.
Qed.

Lemma updateBookAvailability_pres (P : Store -> Prop) env id body s :
  (forall c s, P s -> P (set_books c s)) ->
  P s -> P (fst (asyncHandler (updateBookAvailability env id body) s)).
Proof.
  intros Hst H. apply preserves_asyncHandler; auto.
  unfold updateBookAvailability, Books.findById. pres.
Qed.

(** ** Counting documents *)

Lemma replaceOne_split {D} (id : D -> ObjectId) d c t :
  NoDup (map id c) ->
  Coll.findById id (id d) c = Some t ->
  exists l1 l2,
    c = (l1 ++ t :: l2)%list /\ Coll.replaceOne id d c = (l1 ++ d :: l2)%list.
Proof.
  intros Hnd Hfind.
  destruct (findById_some _ _ _ _ Hfind) as [Hid Hin].
  destruct (in_split _ _ Hin) as [l1 [l2 ->]].
  exists l1, l2. split; [reflexivity |].
  rewrite map_app in Hnd. cbn [map] in Hnd.
  pose proof (NoDup_remove_2 _ _ _ Hnd) as Hnotin.
  unfold Coll.replaceOne. rewrite map_app. cbn [map].
  unfold Coll.hasId at 2. rewrite Hid, Nat.eqb_refl. f_equal; [ | f_equal ].
  - rewrite <- (map_id l1) at 2. apply map_ext_in. intros x Hx.
    unfold Coll.hasId. destruct (Nat.eqb_spec (id x) (id d)) as [Heq | _];
      [ | reflexivity ].
    exfalso. apply Hnotin. apply in_or_app. left.
    rewrite Hid, <- Heq. apply in_map. exact Hx.
  - rewrite <- (map_id l2) at 2. apply map_ext_in. intros x Hx.
    unfold Coll.hasId. destruct (Nat.eqb_spec (id x) (id d)) as [Heq | _];
      [ | reflexivity ].
    exfalso. apply Hnotin. apply in_or_app. right.
    rewrite Hid, <- Heq. apply in_map. exact Hx.
Qed.

Lemma count_app_cons {D} (p : D -> bool) l1 x l2 :
  Coll.countDocuments p (l1 ++ x :: l2)
  = Coll.countDocuments p (l1 ++ l2) + indicator (p x).
Proof.
  unfold Coll.countDocuments, indicator. rewrite !filter_app. cbn [filter].
  destruct (p x); rewrite !length_app; cbn [List.length]; lia.
Qed.

Lemma count_insertOne {D} (p : D -> bool) d c :
  Coll.countDocuments p (Coll.insertOne d c)
  = Coll.countDocuments p c + indicator (p d).
Proof.
  unfold Coll.insertOne.
  rewrite count_app_cons, app_nil_r. reflexivity.
Qed.

Lemma count_replaceOne {D} (id : D -> ObjectId) (p : D -> bool) d c t :
  NoDup (map id c) ->
  Coll.findById id (id d) c = Some t ->
  Coll.countDocuments p (Coll.replaceOne id d c)
  = Coll.countDocuments p c - indicator (p t) + indicator (p d).
Proof.
  intros Hnd Hfind.
  destruct (replaceOne_split id d c t Hnd Hfind) as [l1 [l2 [-> ->]]].
  rewrite !count_app_cons. lia.
Qed.

Lemma count_nonneg {D} (p : D -> bool) c : 0 <= Coll.countDocuments p c.
Proof. unfold Coll.countDocuments. lia. Qed.

Lemma count_zero_of_existsb {D} (p : D -> bool) c :
  existsb p c = false -> Coll.countDocuments p c = 0.
Proof.
  intros H. unfold Coll.countDocuments.
  rewrite (filter_nil_of_existsb _ _ H). reflexivity.
Qed.

Lemma count_pos_of_In {D} (p : D -> bool) c x :
  In x c -> p x = true -> 1 <= Coll.countDocuments p c.
Proof.
  intros Hin Hp. unfold Coll.countDocuments.
  assert (Hf : In x (filter p c)) by (apply filter_In; auto).
  destruct (filter p c); [contradiction | cbn [List.length]; lia].
Qed.

(** ** Loans: limits, duplicates and well-formed documents *)

Lemma circulationWf_frame s s' :
  users s' = users s -> transactions s' = transactions s ->
  circulationWf s -> circulationWf s'.
Proof.
  unfold circulationWf, withinLimit, noDuplicateLoan, openLoans.
  intros -> ->. auto.
Qed.

Lemma indicator_le (a b : bool) : (a = true -> b = true) ->
  indicator a <= indicator b.
Proof.
  destruct a, b; simpl; intros H; try lia; try discriminate (H eq_refl).
Qed.

Lemma circulationWf_replace s s' t d :
  circulationWf s ->
  Coll.findById Transaction._id (Transaction._id d) (transactions s) = Some t ->
  users s' = users s ->
  transactions s' = Coll.replaceOne Transaction._id d (transactions s) ->
  loanWf d ->
  Transaction.userId d = Transaction.userId t ->
  Transaction.bookId d = Transaction.bookId t ->
  (Transaction.status d = TxStatus.issued ->
   Transaction.status t = TxStatus.issued) ->
  circulationWf s'.
Proof.
  intros [Hnd [Hwf [Hlim Hdup]]] Hfind Hu Ht Hd Huser Hbook Hst.
  assert (Hstb : TxStatus.eqb (Transaction.status d) TxStatus.issued = true ->
                 TxStatus.eqb (Transaction.status t) TxStatus.issued = true).
  { intros H. rewrite Hst; [reflexivity |].
    destruct (Transaction.status d); [reflexivity | discriminate ..]. }
  unfold circulationWf, withinLimit, noDuplicateLoan, openLoans.
  rewrite Hu, Ht. split; [ | split; [ | split ] ].
  - rewrite ids_replaceOne. exact Hnd.
  - apply replaceOne_Forall; assumption.
  - intros uid u Hfu. specialize (Hlim uid u Hfu). unfold openLoans in Hlim.
    fold (Coll.countDocuments (Transactions.isOpenLoanOf uid)
            (Coll.replaceOne Transaction._id d (transactions s))).
    fold (Coll.countDocuments (Transactions.isOpenLoanOf uid) (transactions s))
      in Hlim.
    rewrite (count_replaceOne _ _ d _ t Hnd Hfind).
    assert (indicator (Transactions.isOpenLoanOf uid d)
            <= indicator (Transactions.isOpenLoanOf uid t)).
    { apply indicator_le. unfold Transactions.isOpenLoanOf. rewrite Huser.
      intros H. apply andb_prop in H. destruct H as [-> H]. simpl. auto. }
    lia.
  - intros uid bid. specialize (Hdup uid bid).
    rewrite (count_replaceOne _ _ d _ t Hnd Hfind).
    assert (indicator (Transactions.isOpenLoan uid bid d)
            <= indicator (Transactions.isOpenLoan uid bid t)).
    { apply indicator_le. unfold Transactions.isOpenLoan. rewrite Huser, Hbook.
      intros H. apply andb_prop in H. destruct H as [-> H]. simpl. auto. }
    lia.
Qed.

Lemma issuedLoan_wf env staff body : loanWf (issuedLoan env staff body).
Proof.
  split; [ split; reflexivity | ].
  split; [ reflexivity | discriminate ].
Qed.

Lemma circulationWf_insert env staff body s s' :
  circulationWf s ->
  firstViolated s body = None ->
  Coll.findById Transaction._id (newObjectId env) (transactions s) = None ->
  users s' = users s ->
  transactions s'
  = Coll.insertOne (issuedLoan env staff body) (transactions s) ->
  circulationWf s'.
Proof.
  intros [Hnd [Hwf [Hlim Hdup]]] Hgate Hnew Hu Ht.
  pose proof (firstViolated_none _ _ Hgate) as Hall.
  unfold circulationWf, withinLimit, noDuplicateLoan, openLoans.
  rewrite Hu, Ht. split; [ | split; [ | split ] ].
  - unfold Coll.insertOne. rewrite map_app. cbn [map].
    apply (Permutation_NoDup
             (l := newObjectId env :: map Transaction._id (transactions s))).
    + apply Permutation_cons_append.
    + constructor; [ apply findById_none_notin; exact Hnew | exact Hnd ].
  - unfold Coll.insertOne. apply Forall_app. split; [exact Hwf |].
    constructor; [ apply issuedLoan_wf | constructor ].
  - intros uid u Hfu. specialize (Hlim uid u Hfu). unfold openLoans in Hlim.
    fold (Coll.countDocuments (Transactions.isOpenLoanOf uid)
            (Coll.insertOne (issuedLoan env staff body) (transactions s))).
    fold (Coll.countDocuments (Transactions.isOpenLoanOf uid) (transactions s))
      in Hlim.
    rewrite count_insertOne.
    unfold Transactions.isOpenLoanOf at 2. cbn [issuedLoan Transaction.userId
      Transaction.status TxStatus.eqb]. rewrite andb_true_r.
    destruct (Nat.eqb_spec (issue_userId body) uid) as [<- | _];
      [ | simpl; lia ].
    pose proof (Hall LimitExceeded) as Hl. cbn [violated] in Hl.
    unfold borrowerOf in Hl. rewrite Hfu in Hl. apply Z.leb_gt in Hl.
    unfold openLoans in Hl. unfold Coll.countDocuments. simpl. lia.
  - intros uid bid. specialize (Hdup uid bid). rewrite count_insertOne.
    unfold Transactions.isOpenLoan at 2. cbn [issuedLoan Transaction.userId
      Transaction.bookId Transaction.status TxStatus.eqb]. rewrite andb_true_r.
    destruct (Nat.eqb_spec (issue_userId body) uid) as [<- | _];
      [ | simpl; lia ].
    destruct (Nat.eqb_spec (issue_bookId body) bid) as [<- | _];
      [ | simpl; lia ].
    pose proof (Hall DuplicateLoan) as Hd. cbn [violated] in Hd.
    rewrite (count_zero_of_existsb _ _ Hd). simpl. lia.
Qed.

Lemma issueCommit_effect env staff body book s :
  bookOf s body = Some book ->
  fst (issueCommit env staff body book s) = s
  \/ (Coll.findById Transaction._id (newObjectId env) (transactions s) = None
      /\ ((copiesInvariant
             (Books.with_availableCopies (Book.availableCopies book - 1) book)
           /\ fst (issueCommit env staff body book s)
              = issuedStore env staff body book s)
          \/ (~ copiesInvariant
                (Books.with_availableCopies (Book.availableCopies book - 1) book)
              /\ fst (issueCommit env staff body book s)
                 = set_transactions
                     (Coll.insertOne (issuedLoan env staff body)
                                     (transactions s)) s))).
Proof.
  intros Hbook. destruct (findById_some _ _ _ _ Hbook) as [Hid _].
  unfold issueCommit, Transactions.create, Coll.insertNew.
  cbv [bind gets check Transactions.validate Transactions.preSave].
  simpl.
  destruct (Coll.findById Transaction._id (newObjectId env) (transactions s))
    eqn:Hnew; simpl; [left; reflexivity | right].
  split; [reflexivity |].
  fold (issuedLoan env staff body).
  set (b' := Books.with_availableCopies (Book.availableCopies book - 1) book).
  set (s1 := set_transactions
               (Coll.insertOne (issuedLoan env staff body) (transactions s)) s).
  destruct (Books_save_cases b' s1) as [[Hno Heq] | [Hinv [_ Heq]]].
  - right. split.
    + intros Hinv. apply Hno. split; [exact Hinv |].
      change (books s1) with (books s). change (Book._id b') with (Book._id book).
      rewrite Hid. unfold bookOf in Hbook. rewrite Hbook. reflexivity.
    + destruct (Books.save b' s1) as [s2 [[] | r | e]]; exact Heq.
  - left. rewrite Heq. split; [exact Hinv | reflexivity].
Qed.

Lemma issueBook_effect env staff body s :
  fst (issueBook env staff body s) = s
  \/ exists book,
       firstViolated s body = None
       /\ bookOf s body = Some book
       /\ Coll.findById Transaction._id (newObjectId env) (transactions s) = None
       /\ ((copiesInvariant
              (Books.with_availableCopies (Book.availableCopies book - 1) book)
            /\ fst (issueBook env staff body s)
               = issuedStore env staff body book s)
           \/ (~ copiesInvariant
                 (Books.with_availableCopies (Book.availableCopies book - 1) book)
               /\ fst (issueBook env staff body s)
                  = set_transactions
                      (Coll.insertOne (issuedLoan env staff body)
                                      (transactions s)) s)).
Proof.
  destruct (firstViolated s body) as [e |] eqn:Hgate.
  - left. rewrite (issueBook_rejects env staff body s e Hgate). reflexivity.
  - destruct (issueBook_accepts env staff body s Hgate) as [book [Hbook ->]].
    destruct (issueCommit_effect env staff body book s Hbook)
      as [H | [Hnew H]]; [left; exact H | right].
    exists book. auto.
Qed.

Lemma issueBook_circulation env staff body s :
  circulationWf s -> circulationWf (fst (issueBook env staff body s)).
Proof.
  intros Hwf.
  destruct (issueBook_effect env staff body s)
    as [-> | [book [Hgate [Hbook [Hnew [[_ ->] | [_ ->]]]]]]];
    [ exact Hwf | | ];
    apply (circulationWf_insert env staff body s); auto.
Qed.

Lemma afterFine_frame env t s fa s0 :
  afterFine env t s fa s0 ->
  users s0 = users s /\ transactions s0 = transactions s
  /\ books s0 = books s /\ reservations s0 = reservations s
  /\ Qle_bool 0 fa = true.
Proof.
  intros [[_ [-> ->]] | [Hlate [u [_ [_ [-> ->]]]]]].
  - repeat split.
  - repeat split. apply fine_amount_valid.
    pose proof (ceilDays_pos (now env - Transaction.dueDate t)). lia.
Qed.

Lemma afterRelease_frame t s s1 s' :
  afterRelease t s s1 s' ->
  users s' = users s1 /\ transactions s' = transactions s1
  /\ fines s' = fines s1 /\ reservations s' = reservations s1.
Proof.
  unfold afterRelease.
  destruct (Coll.findById Book._id (Transaction.bookId t) (books s));
    [ intros [[_ ->] | [_ ->]] | intros -> ]; repeat split.
Qed.

Lemma returned_wf env fa staff notes t :
  Qle_bool 0 fa = true ->
  Transaction.issueDate t <= now env ->
  loanWf (returned_ (now env) fa staff notes t).
Proof.
  intros Hfa Hi. split; [ apply returned_valid; assumption | ].
  split; [ discriminate | ].
  intros _. exists (now env). split; [reflexivity | exact Hi].
Qed.

Lemma returnBook_circulation env staff id notes s :
  circulationWf s -> circulationWf (fst (returnBook env staff id notes s)).
Proof.
  intros Hwf.
  destruct (returnBook_effect env staff id notes s)
    as [-> | [t [fa [s0 [Hfind [Hst [Hfine Hrest]]]]]]]; [exact Hwf |].
  destruct (afterFine_frame _ _ _ _ _ Hfine) as [Hu [Ht [_ [_ Hfa]]]].
  destruct (findById_some _ _ _ _ Hfind) as [Hid _].
  destruct Hrest as [-> | [Hissue Hrel]];
    [ apply (circulationWf_frame s); auto | ].
  destruct (afterRelease_frame _ _ _ _ Hrel) as [Hu' [Ht' _]].
  apply (circulationWf_replace s _ t
           (returned_ (now env) fa (auth_id staff) notes t)); auto.
  - simpl. rewrite Hid. exact Hfind.
  - rewrite Hu'. exact Hu.
  - apply returned_wf; assumption.
Qed.

Lemma extendDueDate_effect env id body s :
  fst (extendDueDate env id body s) = s
  \/ exists t due notes,
       Coll.findById Transaction._id id (transactions s) = Some t
       /\ Transaction.status t = TxStatus.issued
       /\ newDueDate body = Some due
       /\ validTransaction (extended due notes (now env) t)
       /\ fst (extendDueDate env id body s)
          = set_transactions
              (Coll.replaceOne Transaction._id
                 (extended due notes (now env) t) (transactions s)) s.
Proof.
  unfold extendDueDate, Transactions.findById. cbv [bind gets].
  destruct (Coll.findById Transaction._id id (transactions s)) as [t |] eqn:Hfind;
    [ | left; reflexivity ].
  cbv [orElse ret when_].
  destruct (Transaction.status t) eqn:Hst; try (left; reflexivity).
  cbv [TxStatus.eqb negb].
  destruct (newDueDate body) as [due |] eqn:Hdue; [ | left; reflexivity ].
  match goal with
  | |- context [Transactions.save ?d s] =>
      destruct (Transactions_save_cases d s) as [[e ->] | [Hv ->]]
  end; [left; reflexivity | right].
  exists t, due. eexists.
  split; [reflexivity |]. split; [exact Hst |]. split; [reflexivity |].
  split; [exact Hv | reflexivity].
Qed.

Lemma extendDueDate_circulation env id body s :
  circulationWf s -> circulationWf (fst (extendDueDate env id body s)).
Proof.
  intros Hwf.
  destruct (extendDueDate_effect env id body s)
    as [-> | [t [due [notes [Hfind [Hst [_ [Hv ->]]]]]]]]; [exact Hwf |].
  destruct (findById_some _ _ _ _ Hfind) as [Hid Hin].
  assert (Ht : loanWf t).
  { destruct Hwf as [_ [Hall _]]. rewrite Forall_forall in Hall. auto. }
  apply (circulationWf_replace s _ t (extended due notes (now env) t)); auto;
    try (simpl; rewrite Hid; exact Hfind);
    try (split; [exact Hv |]; simpl; rewrite Hst;
         split; [ intros _; apply Ht; exact Hst | discriminate ]).
Qed.

Lemma circulationWf_set_books c s : circulationWf s -> circulationWf (set_books c s).
Proof. apply circulationWf_frame; reflexivity. Qed.

Lemma circulationWf_set_fines c s : circulationWf s -> circulationWf (set_fines c s).
Proof. apply circulationWf_frame; reflexivity. Qed.

Lemma circulationWf_set_reservations c s :
  circulationWf s -> circulationWf (set_reservations c s).
Proof. apply circulationWf_frame; reflexivity. Qed.

(** Every request keeps the loans well-formed. *)
Lemma circulation_kept rs : forall s,
  circulationWf s -> circulationWf (serve rs s).
Proof.
  induction rs as [| r rs IH]; intros s Hwf; [exact Hwf |].
  cbn [serve fold_left]. apply IH.
  destruct r as [[env staff body | env staff id notes | env id body]
                | env id body | env body | op id | op]; cbn [handle ledgerRequest].
  - rewrite asyncHandler_fst. apply issueBook_circulation. exact Hwf.
  - rewrite asyncHandler_fst. apply returnBook_circulation. exact Hwf.
  - apply updateBookAvailability_pres;
      [ intros; apply circulationWf_set_books | ]; assumption.
  - rewrite asyncHandler_fst. apply extendDueDate_circulation. exact Hwf.
  - apply createFine_pres;
      [ intros; apply circulationWf_set_fines | ]; assumption.
  - apply fineRequest_pres;
      [ intros; apply circulationWf_set_fines | ]; assumption.
  - apply queueRequest_pres;
      [ intros; apply circulationWf_set_reservations | ]; assumption.
Qed.

Lemma demoStore_circulationWf : circulationWf demoStore.
Proof.
  split; [constructor |]. split; [constructor |].
  split.
  - intros uid u _. unfold openLoans. simpl.
    unfold borrowingLimit. destruct (Role.eqb _ _); lia.
  - intros uid bid. unfold Coll.countDocuments. simpl. lia.
Qed.

(** X1. From a well-formed store, after any sequence of lifecycle
    requests no user of the store holds more open loans than the
    borrowing limit of the role: 5 for a borrower, 10 for staff. *)
Theorem borrowing_limit_kept rs s uid u :
  circulationWf s ->
  Coll.findById User._id uid (users (serve rs s)) = Some u ->
  openLoans uid (serve rs s) <= borrowingLimit (User.role u).
Proof.
  intros Hwf Hu.
  destruct (circulation_kept rs s Hwf) as [_ [_ [Hlim _]]].
  apply Hlim. exact Hu.
Qed.

Lemma borrowing_limit_kept_witness :
  circulationWf demoStore
  /\ openLoans 1 (serve busyDay demoStore) <= 5.
Proof.
  split; [exact demoStore_circulationWf |].
  apply (borrowing_limit_kept busyDay demoStore 1
           (User.mk 1 Role.borrower UserStatus.active)
           demoStore_circulationWf).
  reflexivity.
Defined.

(** X2. From a well-formed store, after any sequence of lifecycle
    requests a borrower never has two open loans of the same book. *)
Theorem no_duplicate_open_loan rs s uid bid :
  circulationWf s ->
  Coll.countDocuments (Transactions.isOpenLoan uid bid)
                      (transactions (serve rs s)) <= 1.
Proof.
  intros Hwf.
  destruct (circulation_kept rs s Hwf) as [_ [_ [_ Hdup]]].
  apply Hdup.
Qed.

Lemma no_duplicate_open_loan_witness :
  circulationWf demoStore
  /\ Coll.countDocuments (Transactions.isOpenLoan 2 100)
                         (transactions (serve busyDay demoStore)) <= 1.
Proof.
  split; [exact demoStore_circulationWf |].
  apply (no_duplicate_open_loan busyDay demoStore 2 100
           demoStore_circulationWf).
Defined.

(** X3. From a well-formed store, after any sequence of lifecycle
    requests every stored loan has a non-negative fineAmount, an issued
    loan has no returnDate, and a returned loan has a returnDate that is
    not before its issueDate; loan identifiers stay unique. *)
Theorem loans_stay_well_formed rs s :
  circulationWf s ->
  NoDup (map Transaction._id (transactions (serve rs s)))
  /\ forall t, In t (transactions (serve rs s)) ->
       Qle 0 (Transaction.fineAmount t)
       /\ (Transaction.status t = TxStatus.issued ->
           Transaction.returnDate t = None)
       /\ (Transaction.status t = TxStatus.returned ->
           exists r, Transaction.returnDate t = Some r
                     /\ Transaction.issueDate t <= r).
Proof.
  intros Hwf.
  destruct (circulation_kept rs s Hwf) as [Hnd [Hall _]].
  split; [exact Hnd |]. intros t Hin.
  rewrite Forall_forall in Hall. destruct (Hall t Hin) as [[Hv _] [Hi Hr]].
  split; [ | split; assumption ].
  unfold Transactions.validate in Hv.
  destruct (Qle_bool 0 (Transaction.fineAmount t)) eqn:Hq; [ | discriminate ].
  apply Qle_bool_iff. exact Hq.
Qed.

Lemma loans_stay_well_formed_witness :
  circulationWf demoStore
  /\ NoDup (map Transaction._id (transactions (serve busyDay demoStore))).
Proof.
  split; [exact demoStore_circulationWf |].
  apply (loans_stay_well_formed busyDay demoStore demoStore_circulationWf).
Defined.

(** ** Copies on the shelf and copies on loan *)

Lemma In_replaceOne {D} (id : D -> ObjectId) d c x :
  In x (Coll.replaceOne id d c) -> x = d \/ (In x c /\ id x <> id d).
Proof.
  unfold Coll.replaceOne. intros Hin. apply in_map_iff in Hin.
  destruct Hin as [y [Hy Hin]]. unfold Coll.hasId in Hy.
  destruct (Nat.eqb_spec (id y) (id d)); subst; auto.
Qed.

Lemma NoDup_ids_insertOne {D} (id : D -> ObjectId) d c :
  NoDup (map id c) -> Coll.findById id (id d) c = None ->
  NoDup (map id (Coll.insertOne d c)).
Proof.
  intros Hnd Hnew. unfold Coll.insertOne. rewrite map_app. cbn [map].
  apply (Permutation_NoDup (l := id d :: map id c)).
  - apply Permutation_cons_append.
  - constructor; [ apply findById_none_notin; exact Hnew | exact Hnd ].
Qed.

Lemma accountingWf_frame s s' :
  books s' = books s -> transactions s' = transactions s ->
  accountingWf s -> accountingWf s'.
Proof.
  unfold accountingWf, ledgerInvariant, accounted, openLoansFor.
  intros -> ->. auto.
Qed.

Lemma issueBook_accounting env staff body s :
  accountingWf s -> accountingWf (fst (issueBook env staff body s)).
Proof.
  intros Hwf.
  destruct (issueBook_effect env staff body s)
    as [-> | [book [Hgate [Hbook [Hnew Hcases]]]]]; [exact Hwf |].
  destruct Hwf as [Hnd [Hledger Hacc]].
  destruct (findById_some _ _ _ _ Hbook) as [Hid Hin].
  pose proof (firstViolated_none _ _ Hgate Unavailable) as Hav.
  cbn [violated] in Hav. rewrite Hbook in Hav. apply orb_false_elim in Hav.
  destruct Hav as [Hav _]. apply Z.leb_gt in Hav.
  assert (Hinv : copiesInvariant book).
  { unfold ledgerInvariant in Hledger. rewrite Forall_forall in Hledger. auto. }
  destruct Hcases as [[Hinv' ->] | [Hno _]];
    [ | exfalso; apply Hno; destruct Hinv; split; simpl; lia ].
  split; [ | split ].
  - simpl. apply NoDup_ids_insertOne; assumption.
  - unfold ledgerInvariant. simpl. apply replaceOne_Forall; assumption.
  - intros b Hb. unfold openLoansFor. simpl in Hb |- *.
    rewrite count_insertOne.
    unfold isOpenLoanFor at 2. cbn [issuedLoan Transaction.bookId
      Transaction.status TxStatus.eqb]. rewrite andb_true_r.
    apply In_replaceOne in Hb. destruct Hb as [-> | [Hb Hne]].
    + simpl. rewrite Hid, Nat.eqb_refl.
      pose proof (Hacc book Hin) as H. unfold openLoansFor in H.
      rewrite Hid in H. simpl. lia.
    + simpl in Hne. rewrite Hid in Hne.
      destruct (Nat.eqb_spec (issue_bookId body) (Book._id b));
        [congruence |].
      pose proof (Hacc b Hb) as H. unfold openLoansFor in H. simpl. lia.
Qed.

Lemma returnBook_accounting env staff id notes s :
  accountingWf s -> accountingWf (fst (returnBook env staff id notes s)).
Proof.
  intros Hwf.
  destruct (returnBook_effect env staff id notes s)
    as [-> | [t [fa [s0 [Hfind [Hst [Hfine Hrest]]]]]]]; [exact Hwf |].
  destruct (afterFine_frame _ _ _ _ _ Hfine) as [_ [Ht0 [Hb0 [_ Hfa]]]].
  destruct Hrest as [-> | [Hissue Hrel]];
    [ apply (accountingWf_frame s); auto | ].
  destruct Hwf as [Hnd [Hledger Hacc]].
  destruct (findById_some _ _ _ _ Hfind) as [Hid Hin].
  set (d := returned_ (now env) fa (auth_id staff) notes t) in *.
  assert (Hfd : Coll.findById Transaction._id (Transaction._id d)
                  (transactions s) = Some t).
  { simpl. rewrite Hid. exact Hfind. }
  assert (Hopen : forall b,
    Coll.countDocuments (isOpenLoanFor b)
      (Coll.replaceOne Transaction._id d (transactions s))
    = openLoansFor b s - indicator (Nat.eqb (Transaction.bookId t) b)).
  { intros b. rewrite (count_replaceOne _ _ d _ t Hnd Hfd).
    unfold openLoansFor, isOpenLoanFor at 2 3. simpl. rewrite Hst. simpl.
    rewrite andb_true_r, andb_false_r. simpl. lia. }
  unfold afterRelease in Hrel.
  destruct (Coll.findById Book._id (Transaction.bookId t) (books s))
    as [bk |] eqn:Hbk.
  - destruct (findById_some _ _ _ _ Hbk) as [Hbid Hbin].
    pose proof (Hacc bk Hbin) as Hbkacc.
    assert (Hbkinv : copiesInvariant bk).
    { unfold ledgerInvariant in Hledger. rewrite Forall_forall in Hledger.
      auto. }
    assert (Hone : 1 <= openLoansFor (Book._id bk) s).
    { apply (count_pos_of_In _ _ t Hin). unfold isOpenLoanFor.
      rewrite Hbid, Nat.eqb_refl, Hst. reflexivity. }
    destruct Hrel as [[Hinv' ->] | [Hno _]];
      [ | exfalso; apply Hno; destruct Hbkinv; split; simpl; lia ].
    split; [ | split ].
    + simpl. rewrite ?Ht0, ids_replaceOne. exact Hnd.
    + unfold ledgerInvariant. simpl. apply replaceOne_Forall; assumption.
    + intros b Hb. unfold openLoansFor. simpl in Hb |- *. rewrite ?Ht0, Hopen.
      apply In_replaceOne in Hb. destruct Hb as [-> | [Hb Hne]].
      * simpl. rewrite Hbid, Nat.eqb_refl. rewrite Hbid in Hbkacc. simpl. lia.
      * simpl in Hne.
        destruct (Nat.eqb_spec (Transaction.bookId t) (Book._id b));
          [congruence |].
        pose proof (Hacc b Hb). simpl. lia.
  - rewrite Hrel. split; [ | split ].
    + simpl. rewrite ?Ht0, ids_replaceOne. exact Hnd.
    + unfold ledgerInvariant. simpl. rewrite Hb0. exact Hledger.
    + intros b Hb. unfold openLoansFor. simpl in Hb |- *.
      rewrite Hb0 in Hb. rewrite ?Ht0, Hopen.
      destruct (Nat.eqb_spec (Transaction.bookId t) (Book._id b)) as [Heq | _].
      * exfalso. apply (findById_none_notin _ _ _ Hbk).
        rewrite Heq. apply in_map. exact Hb.
      * pose proof (Hacc b Hb). simpl. lia.
Qed.

Lemma extendDueDate_accounting env id body s :
  accountingWf s -> accountingWf (fst (extendDueDate env id body s)).
Proof.
  intros Hwf.
  destruct (extendDueDate_effect env id body s)
    as [-> | [t [due [notes [Hfind [Hst [_ [Hv ->]]]]]]]]; [exact Hwf |].
  destruct Hwf as [Hnd [Hledger Hacc]].
  destruct (findById_some _ _ _ _ Hfind) as [Hid Hin].
  split; [ | split ].
  - simpl. rewrite ids_replaceOne. exact Hnd.
  - exact Hledger.
  - intros b Hb. unfold openLoansFor. simpl in Hb |- *.
    rewrite (count_replaceOne _ _ _ _ t Hnd)
      by (simpl; rewrite Hid; exact Hfind).
    unfold isOpenLoanFor at 2 3. simpl.
    pose proof (Hacc b Hb) as H. unfold openLoansFor in H. lia.
Qed.

Lemma accounting_kept rs : forall s,
  forallb (fun r => negb (isAdjustment r)) rs = true ->
  accountingWf s -> accountingWf (serve rs s).
Proof.
  induction rs as [| r rs IH]; intros s Hrs Hwf; [exact Hwf |].
  cbn [forallb] in Hrs. apply andb_prop in Hrs. destruct Hrs as [Hr Hrs].
  cbn [serve fold_left]. apply IH; [exact Hrs |].
  destruct r as [[env staff body | env staff id notes | env id body]
                | env id body | env body | op id | op]; cbn [handle ledgerRequest].
  - rewrite asyncHandler_fst. apply issueBook_accounting. exact Hwf.
  - rewrite asyncHandler_fst. apply returnBook_accounting. exact Hwf.
  - discriminate Hr.
  - rewrite asyncHandler_fst. apply extendDueDate_accounting. exact Hwf.
  - apply createFine_pres; [ | exact Hwf ].
    intros c s0. apply accountingWf_frame; reflexivity.
  - apply fineRequest_pres; [ | exact Hwf ].
    intros c s0. apply accountingWf_frame; reflexivity.
  - apply queueRequest_pres; [ | exact Hwf ].
    intros c s0. apply accountingWf_frame; reflexivity.
Qed.

Lemma demoStore_accountingWf : accountingWf demoStore.
Proof.
  split; [constructor |]. split.
  - repeat constructor; simpl; lia.
  - intros b [<- | []]. reflexivity.
Qed.

(** X4. From a store in which every copy of every book is either on the
    shelf or on an open loan, served any sequence of lifecycle requests
    other than a staff adjustment of the counts, this stays so: for every
    book availableCopies + open loans = totalCopies, and the open loans of
    a book never exceed the copies owned. *)
Theorem copies_accounted rs s b :
  forallb (fun r => negb (isAdjustment r)) rs = true ->
  accountingWf s ->
  In b (books (serve rs s)) ->
  Book.availableCopies b + openLoansFor (Book._id b) (serve rs s)
  = Book.totalCopies b
  /\ 0 <= openLoansFor (Book._id b) (serve rs s) <= Book.totalCopies b.
Proof.
  intros Hrs Hwf Hb.
  destruct (accounting_kept rs s Hrs Hwf) as [_ [Hledger Hacc]].
  pose proof (Hacc b Hb) as H. split; [exact H |].
  unfold ledgerInvariant in Hledger. rewrite Forall_forall in Hledger.
  destruct (Hledger b Hb) as [H0 _].
  pose proof (count_nonneg (isOpenLoanFor (Book._id b))
                (transactions (serve rs s))).
  unfold openLoansFor in *. lia.
Qed.

Lemma copies_accounted_witness :
  accountingWf demoStore
  /\ openLoansFor 100 (serve busyDay demoStore) <= 1.
Proof.
  split; [exact demoStore_accountingWf |].
  apply (copies_accounted busyDay demoStore
           (Book.mk 100 1 0 BookStatus.available 0)
           eq_refl demoStore_accountingWf).
  replace (books (serve busyDay demoStore))
    with [Book.mk 100 1 0 BookStatus.available 0]
    by (vm_compute; reflexivity).
  left. reflexivity.
Defined.

(** ** returnBook: success, failure after the loan is saved, repetition *)

Lemma returnBook_to_release env staff id notes s t fa s0 :
  Coll.findById Transaction._id id (transactions s) = Some t ->
  Transaction.status t = TxStatus.issued ->
  Transaction.issueDate t <= now env ->
  afterFine env t s fa s0 ->
  returnBook env staff id notes s =
  releaseCopy (Coll.findById Book._id (Transaction.bookId t) (books s))
    (set_transactions
       (Coll.replaceOne Transaction._id
          (returned_ (now env) fa (auth_id staff) notes t) (transactions s))
       s0).
Proof.
  intros Hfind Hst Hissue [[Hdue [-> ->]] | [Hlate [u [Hu [Hnew [-> ->]]]]]].
  - apply returnBook_on_time; assumption.
  - apply returnBook_late; assumption.
Qed.

(** When [returnBook] can take the fine step: a late return needs the
    borrower document and an unused fine identifier. *)
Lemma afterFine_exists env t s :
  (Transaction.dueDate t < now env ->
   isSome (Coll.findById User._id (Transaction.userId t) (users s)) = true
   /\ Coll.findById Fine._id (newObjectId env) (fines s) = None) ->
  exists fa s0, afterFine env t s fa s0.
Proof.
  intros H. destruct (Z.le_gt_cases (now env) (Transaction.dueDate t)) as [Hd | Hd].
  - exists 0%Q, s. left. auto.
  - destruct (H Hd) as [Hu Hnew].
    destruct (Coll.findById User._id (Transaction.userId t) (users s))
      as [u |] eqn:Hfu; [ | discriminate ].
    eexists. eexists. right. split; [exact Hd |]. exists u. repeat split; auto.
Qed.

(** X5. In a store where every copy is accounted for, returning an issued
    loan whose book exists succeeds (the loan issued no later than now;
    for a late return the borrower still exists and the fine identifier
    is unused): the reply is a success, the loan is stored as returned
    and the book gets exactly one copy back. *)
Theorem return_succeeds env staff id notes s t b :
  accountingWf s ->
  Coll.findById Transaction._id id (transactions s) = Some t ->
  Transaction.status t = TxStatus.issued ->
  Transaction.issueDate t <= now env ->
  Coll.findById Book._id (Transaction.bookId t) (books s) = Some b ->
  (Transaction.dueDate t < now env ->
   isSome (Coll.findById User._id (Transaction.userId t) (users s)) = true
   /\ Coll.findById Fine._id (newObjectId env) (fines s) = None) ->
  succeeded (snd (asyncHandler (returnBook env staff id notes) s)) = true
  /\ returnedLoan id (fst (asyncHandler (returnBook env staff id notes) s))
  /\ availableOf (Transaction.bookId t)
       (fst (asyncHandler (returnBook env staff id notes) s))
     = Some (Book.availableCopies b + 1).
Proof.
  intros [Hnd [Hledger Hacc]] Hfind Hst Hissue Hb Hlate.
  destruct (afterFine_exists env t s Hlate) as [fa [s0 Hfine]].
  destruct (afterFine_frame _ _ _ _ _ Hfine) as [_ [Ht0 [Hb0 _]]].
  destruct (findById_some _ _ _ _ Hfind) as [Hid Hin].
  destruct (findById_some _ _ _ _ Hb) as [Hbid Hbin].
  assert (Hinv : copiesInvariant
                   (Books.with_availableCopies (Book.availableCopies b + 1) b)).
  { pose proof (Hacc b Hbin) as H.
    assert (1 <= openLoansFor (Book._id b) s).
    { apply (count_pos_of_In _ _ t Hin). unfold isOpenLoanFor.
      rewrite Hbid, Nat.eqb_refl, Hst. reflexivity. }
    unfold ledgerInvariant in Hledger. rewrite Forall_forall in Hledger.
    destruct (Hledger b Hbin). split; simpl; lia. }
  unfold asyncHandler.
  rewrite (returnBook_to_release env staff id notes s t fa s0
             Hfind Hst Hissue Hfine), Hb.
  rewrite releaseCopy_ok;
    [ | simpl; rewrite Hb0, Hbid; exact Hb | exact Hinv ].
  cbn [fst snd succeeded success]. split; [reflexivity |]. split.
  - eexists. split.
    + cbn [transactions set_books set_transactions].
      eapply findById_replaceOne_same; [ exact Hfind | exact Hid ].
    + reflexivity.
  - unfold availableOf. cbn [books set_books set_transactions]. rewrite Hb0.
    erewrite findById_replaceOne_same; [ reflexivity | exact Hb | exact Hbid ].
Qed.

Lemma return_succeeds_witness :
  succeeded (snd (asyncHandler (returnBook lateEnv librarian9 1000 None)
                    lateStore)) = true
  /\ availableOf 100
       (fst (asyncHandler (returnBook lateEnv librarian9 1000 None) lateStore))
     = Some 1.
Proof.
  assert (Hwf : accountingWf lateStore).
  { split; [repeat constructor; simpl; tauto |]. split.
    - repeat constructor; simpl; lia.
    - intros b [<- | []]. reflexivity. }
  destruct (return_succeeds lateEnv librarian9 1000 None lateStore lateLoan
              (Book.mk 100 1 0 BookStatus.available 0)
              Hwf eq_refl eq_refl) as [H1 [_ H3]].
  - vm_compute. discriminate.
  - reflexivity.
  - intros _. split; reflexivity.
  - split; [exact H1 | exact H3].
Defined.

Lemma Books_save_rejects b s :
  ~ copiesInvariant b -> exists e, Books.save b s = (s, Thrown e).
Proof.
  intros Hno. unfold Books.save, Books.validate, Books.preSave.
  cbv [bind check ret throw].
  destruct (Z.ltb_spec (Book.totalCopies b) 0); [eexists; reflexivity |].
  destruct (Z.ltb_spec (Book.availableCopies b) 0); [eexists; reflexivity |].
  destruct (Z.gtb_spec (Book.availableCopies b) (Book.totalCopies b));
    [eexists; reflexivity |].
  exfalso. apply Hno. split; lia.
Qed.

(** X6. No step of returnBook is undone: when the book already shows all
    its copies on the shelf (availableCopies >= totalCopies), returning an
    issued loan fails at the last step, after the loan (and, for a late
    return, the fine) has been saved - the reply is an error, the loan is
    stored as returned and the books are as before. *)
Theorem return_fails_after_saving_loan env staff id notes s t b :
  Coll.findById Transaction._id id (transactions s) = Some t ->
  Transaction.status t = TxStatus.issued ->
  Transaction.issueDate t <= now env ->
  Coll.findById Book._id (Transaction.bookId t) (books s) = Some b ->
  Book.totalCopies b <= Book.availableCopies b ->
  (Transaction.dueDate t < now env ->
   isSome (Coll.findById User._id (Transaction.userId t) (users s)) = true
   /\ Coll.findById Fine._id (newObjectId env) (fines s) = None) ->
  failed (snd (asyncHandler (returnBook env staff id notes) s)) = true
  /\ returnedLoan id (fst (asyncHandler (returnBook env staff id notes) s))
  /\ books (fst (asyncHandler (returnBook env staff id notes) s)) = books s.
Proof.
  intros Hfind Hst Hissue Hb Hfull Hlate.
  destruct (afterFine_exists env t s Hlate) as [fa [s0 Hfine]].
  destruct (afterFine_frame _ _ _ _ _ Hfine) as [_ [Ht0 [Hb0 _]]].
  destruct (findById_some _ _ _ _ Hfind) as [Hid Hin].
  destruct (findById_some _ _ _ _ Hb) as [Hbid Hbin].
  unfold asyncHandler.
  rewrite (returnBook_to_release env staff id notes s t fa s0
             Hfind Hst Hissue Hfine), Hb.
  unfold releaseCopy, Books.findById. cbv [bind gets orElse ret].
  cbn [books set_transactions]. rewrite Hb0, Hbid, Hb.
  match goal with
  | |- context [Books.save ?b' ?s1] =>
      destruct (Books_save_rejects b' s1) as [e ->]
  end.
  - intros [_ Hle]. simpl in Hle. lia.
  - cbn [fst snd failed].
    split; [reflexivity |]. split; [ | cbn [books set_transactions]; exact Hb0 ].
    eexists. split.
    + cbn [transactions set_transactions].
      eapply findById_replaceOne_same; [ exact Hfind | exact Hid ].
    + reflexivity.
Qed.

Lemma return_fails_after_saving_loan_witness :
  failed (snd (asyncHandler (returnBook onTimeEnv librarian9 1000 None)
                 fullShelfStore)) = true
  /\ returnedLoan 1000
       (fst (asyncHandler (returnBook onTimeEnv librarian9 1000 None)
               fullShelfStore)).
Proof.
  destruct (return_fails_after_saving_loan onTimeEnv librarian9 1000 None
              fullShelfStore
              (Transaction.mk 1000 1 100 0 (14 * msPerDay) None 0
                 TxStatus.issued 9 None None 0)
              (Book.mk 100 1 1 BookStatus.available 0)
              eq_refl eq_refl) as [H1 [H2 _]].
  - vm_compute. discriminate.
  - reflexivity.
  - simpl. lia.
  - intros H. exfalso. vm_compute in H. discriminate.
  - split; [exact H1 | exact H2].
Defined.


Lemma returnedLoan_after_release id pb s1 :
  returnedLoan id s1 -> returnedLoan id (fst (releaseCopy pb s1)).
Proof.
  unfold returnedLoan. destruct (releaseCopy_frame pb s1) as [_ ->]. auto.
Qed.

Lemma returnedLoan_saved env fa staff notes t id s s0 :
  Coll.findById Transaction._id id (transactions s) = Some t ->
  returnedLoan id
    (set_transactions
       (Coll.replaceOne Transaction._id
          (returned_ (now env) fa staff notes t) (transactions s)) s0).
Proof.
  intros Hfind. destruct (findById_some _ _ _ _ Hfind) as [Hid _].
  eexists. split.
  - cbn [transactions set_transactions].
    eapply findById_replaceOne_same; [ exact Hfind | exact Hid ].
  - reflexivity.
Qed.

Lemma returnBook_success_inv env staff id notes s :
  succeeded (snd (asyncHandler (returnBook env staff id notes) s)) = true ->
  returnedLoan id (fst (asyncHandler (returnBook env staff id notes) s)).
Proof.
  rewrite asyncHandler_fst. unfold asyncHandler.
  unfold returnBook, Transactions.findById, Users.findById, Books.findById.
  cbv [bind gets].
  destruct (Coll.findById Transaction._id id (transactions s)) as [t |] eqn:Hfind;
    [ | discriminate ].
  cbv [orElse ret when_].
  destruct (Transaction.status t) eqn:Hst; try discriminate.
  cbv [TxStatus.eqb negb].
  destruct (Z.gtb_spec (now env) (Transaction.dueDate t)) as [Hlate | Hearly].
  - destruct (Coll.findById User._id (Transaction.userId t) (users s))
      as [u |] eqn:Hu; [ | discriminate ].
    assert (Hamt : Qle_bool 0 (Fine.amount (overdueFine env t u)) = true).
    { apply fine_amount_valid.
      pose proof (ceilDays_pos (now env - Transaction.dueDate t)). lia. }
    destruct (Coll.findById Fine._id (newObjectId env) (fines s)) eqn:Hnew.
    + unfold Fines.create, Coll.insertNew, Fines.validate.
      cbv [bind gets check ret throw modify]. simpl.
      simpl in Hamt. rewrite Hamt, Hnew. discriminate.
    + rewrite Fines_create_ok; [ | exact Hamt | exact Hnew ].
      match goal with
      | |- context [Transactions.save ?d ?s0] =>
          destruct (Transactions_save_cases d s0) as [[e ->] | [Hv ->]]
      end; [discriminate |].
      intros _.
      apply (returnedLoan_after_release id
               (Coll.findById Book._id (Transaction.bookId t) (books s))).
      apply returnedLoan_saved. exact Hfind.
  - match goal with
    | |- context [Transactions.save ?d ?s0] =>
        destruct (Transactions_save_cases d s0) as [[e ->] | [Hv ->]]
    end; [discriminate |].
    intros _.
    apply (returnedLoan_after_release id
             (Coll.findById Book._id (Transaction.bookId t) (books s))).
    apply returnedLoan_saved. exact Hfind.
Qed.

Lemma returnBook_not_issued env staff id notes s d :
  Coll.findById Transaction._id id (transactions s) = Some d ->
  Transaction.status d <> TxStatus.issued ->
  asyncHandler (returnBook env staff id notes) s = (s, Json notIssuedError).
Proof.
  intros Hfind Hst.
  unfold asyncHandler, returnBook, Transactions.findById, Users.findById,
    Books.findById.
  cbv [bind gets]. rewrite Hfind. cbv [orElse ret when_].
  destruct (Transaction.status d); [contradiction | reflexivity ..].
Qed.

(** X7. A loan is returned once: after a returnBook that succeeded, every
    further returnBook on the same loan, at any time and by anyone, is
    answered with the not-issued error and changes nothing - no second
    copy goes back to the shelf and no second fine is created. *)
Theorem return_twice_rejected env staff id notes s env2 staff2 notes2 :
  succeeded (snd (asyncHandler (returnBook env staff id notes) s)) = true ->
  asyncHandler (returnBook env2 staff2 id notes2)
    (fst (asyncHandler (returnBook env staff id notes) s))
  = (fst (asyncHandler (returnBook env staff id notes) s), Json notIssuedError).
Proof.
  intros Hok.
  destruct (returnBook_success_inv env staff id notes s Hok) as [d [Hd Hst]].
  apply (returnBook_not_issued env2 staff2 id notes2 _ d Hd).
  rewrite Hst. discriminate.
Qed.

Lemma return_twice_rejected_witness :
  asyncHandler (returnBook (mkEnv (16 * msPerDay) 3001) librarian9 1000 None)
    (fst (asyncHandler (returnBook lateEnv librarian9 1000 None) lateStore))
  = (fst (asyncHandler (returnBook lateEnv librarian9 1000 None) lateStore),
     Json notIssuedError).
Proof.
  apply (return_twice_rejected lateEnv librarian9 1000 None lateStore
           (mkEnv (16 * msPerDay) 3001) librarian9 None).
  reflexivity.
Defined.

(** ** extendDueDate: what it leaves alone *)

(** X8. extendDueDate writes one loan at most: users, books, fines and
    reservations are as before, every other loan is as before, and the
    loan itself keeps its identifier, borrower, book, issueDate,
    returnDate, fineAmount, status and staff references - no fine is
    created or recomputed. A loan that is not issued is refused with an
    error and nothing changes. *)
Theorem extend_writes_one_loan env id body s :
  let s' := fst (asyncHandler (extendDueDate env id body) s) in
  users s' = users s /\ books s' = books s
  /\ fines s' = fines s /\ reservations s' = reservations s
  /\ (forall j, j <> id ->
        Coll.findById Transaction._id j (transactions s')
        = Coll.findById Transaction._id j (transactions s))
  /\ (forall t, Coll.findById Transaction._id id (transactions s) = Some t ->
        (exists t', Coll.findById Transaction._id id (transactions s') = Some t'
                    /\ sameButDueDate t t')
        /\ (Transaction.status t <> TxStatus.issued ->
            asyncHandler (extendDueDate env id body) s
            = (s, Json extendNotIssuedError))).
Proof.
  intros s'. subst s'. rewrite asyncHandler_fst.
  destruct (extendDueDate_effect env id body s)
    as [Heq | [t0 [due [notes [Hfind [Hst [_ [_ Heq]]]]]]]]; rewrite Heq.
  - split; [reflexivity |]. split; [reflexivity |]. split; [reflexivity |].
    split; [reflexivity |]. split; [reflexivity |].
    intros t Ht. split.
    + exists t. split; [exact Ht | repeat split].
    + intros Hni. unfold asyncHandler, extendDueDate, Transactions.findById.
      cbv [bind gets]. rewrite Ht. cbv [orElse ret when_].
      destruct (Transaction.status t); [contradiction | reflexivity ..].
  - destruct (findById_some _ _ _ _ Hfind) as [Hid _].
    split; [reflexivity |]. split; [reflexivity |]. split; [reflexivity |].
    split; [reflexivity |]. split.
    + intros j Hj. cbn [transactions set_transactions].
      apply findById_replaceOne_other. simpl. congruence.
    + intros t Ht. rewrite Hfind in Ht. injection Ht as <-. split.
      * eexists. split.
        -- cbn [transactions set_transactions].
           eapply findById_replaceOne_same; [ exact Hfind | exact Hid ].
        -- repeat split.
      * intros Hni. contradiction.
Qed.

(** ** Days overdue *)

(** X9. The number of overdue days charged by returnBook and shown by
    getOverdueTransactions is the least whole number of days that covers
    the lateness: (days - 1) days < lateness <= days days; it is at least
    1 for any lateness, however small, and grows with the lateness. *)
Theorem overdue_days_bounds ms :
  (ceilDays ms - 1) * msPerDay < ms <= ceilDays ms * msPerDay
  /\ (0 < ms -> 1 <= ceilDays ms)
  /\ (forall ms', ms <= ms' -> ceilDays ms <= ceilDays ms').
Proof.
  assert (Hd : 0 < msPerDay) by reflexivity.
  split; [ | split ].
  - rewrite ceilDays_eq. revert Hd. generalize msPerDay. intros d Hd.
    pose proof (Z.div_mod (- ms) d ltac:(lia)) as Hdm.
    pose proof (Z.mod_pos_bound (- ms) d Hd) as Hm.
    set (q := (- ms) / d) in *. set (r := (- ms) mod d) in *.
    assert (Hq : - ms = d * q + r) by exact Hdm.
    split.
    + replace ((- q - 1) * d) with (- (d * q) - d) by ring. lia.
    + replace (- q * d) with (- (d * q)) by ring. lia.
  - apply ceilDays_pos.
  - intros ms' Hle. rewrite !ceilDays_eq. revert Hd. generalize msPerDay.
    intros d Hd.
    assert ((- ms') / d <= (- ms) / d) by (apply Z.div_le_mono; lia).
    lia.
Qed.

(** * Fines *)

Lemma Fines_create_cases env u t a r n s :
  let f := Fine.mk (newObjectId env) u t a r PaymentStatus.pending
                   None None None (option_map trim n) (now env) in
  (exists e, Fines.create env u t a r n s = (s, Thrown e))
  \/ (Qle_bool 0 a = true
      /\ Coll.findById Fine._id (newObjectId env) (fines s) = None
      /\ Fines.create env u t a r n s
         = (set_fines (Coll.insertOne f (fines s)) s, Next f)).
Proof.
  intros f. unfold Fines.create, Fines.validate, Coll.insertNew.
  cbv [bind gets check ret throw modify]. cbn [Fine.amount Fines.preSave
    Fine.paymentStatus Fine.paymentDate Fine._id].
  destruct (Qle_bool 0 a); [ | left; eexists; reflexivity ].
  destruct (Coll.findById Fine._id (newObjectId env) (fines s)) eqn:Hf;
    [ left; eexists; reflexivity | right; auto ].
Qed.


Lemma processFinePayment_step env staff id body s :
  FineStep (fines s) (fines (fst (processFinePayment env staff id body s))).
Proof.
  unfold processFinePayment, Fines.findById. cbv [bind gets].
  destruct (Coll.findById Fine._id id (fines s)) as [f |] eqn:Hfind;
    [ | apply fs_same ].
  cbv [orElse ret when_]. unfold isPaid, isWaived.
  destruct (Fine.paymentStatus f) eqn:Hst; cbn [PaymentStatus.eqb];
    try apply fs_same.
  destruct (findById_some _ _ _ _ Hfind) as [Hid _].
  match goal with
  | |- context [Fines.save env ?d s] =>
      destruct (Fines_save_cases env d s) as [[e ->] | [Hv [_ ->]]]
  end; [apply fs_same |].
  cbn [fst fines set_fines Fines.preSave Fine.paymentStatus Fine.paymentDate].
  eapply fs_settled with (f := f); cbn [Fine._id Fine.paymentStatus
    Fine.processedBy Fine.paymentDate Fine.amount]; auto; try discriminate.
  - rewrite Hid. exact Hfind.
  - repeat split.
  - left. split; [reflexivity | discriminate].
Qed.

Lemma waiveFine_step env staff id reason s :
  FineStep (fines s) (fines (fst (waiveFine env staff id reason s))).
Proof.
  unfold waiveFine, Fines.findById. cbv [bind gets].
  destruct (Coll.findById Fine._id id (fines s)) as [f |] eqn:Hfind;
    [ | apply fs_same ].
  cbv [orElse ret when_]. unfold isPaid, isWaived.
  destruct (Fine.paymentStatus f) eqn:Hst; cbn [PaymentStatus.eqb];
    try apply fs_same.
  destruct (findById_some _ _ _ _ Hfind) as [Hid _].
  match goal with
  | |- context [Fines.save env ?d s] =>
      destruct (Fines_save_cases env d s) as [[e ->] | [Hv [_ ->]]]
  end; [apply fs_same |].
  cbn [fst fines set_fines Fines.preSave Fine.paymentStatus Fine.paymentDate].
  eapply fs_settled with (f := f); cbn [Fine._id Fine.paymentStatus
    Fine.processedBy Fine.paymentDate Fine.amount]; auto; try discriminate.
  - rewrite Hid. exact Hfind.
  - repeat split.
Qed.

Lemma updateFine_step env id body s :
  FineStep (fines s) (fines (fst (updateFine env id body s))).
Proof.
  unfold updateFine, Fines.findById. cbv [bind gets].
  destruct (Coll.findById Fine._id id (fines s)) as [f |] eqn:Hfind;
    [ | apply fs_same ].
  cbv [orElse ret when_]. unfold isPaid.
  destruct (PaymentStatus.eqb (Fine.paymentStatus f) PaymentStatus.paid) eqn:Hp;
    [ apply fs_same | ].
  assert (Hnp : Fine.paymentStatus f <> PaymentStatus.paid).
  { intros H. rewrite H in Hp. discriminate. }
  destruct (findById_some _ _ _ _ Hfind) as [Hid _].
  cbv zeta.
  match goal with
  | |- context [Fines.save env ?d s] =>
      destruct (Fines_save_cases env d s) as [[e ->] | [Hv [_ ->]]]
  end; [apply fs_same |].
  cbn [fst fines set_fines]. rewrite preSave_unpaid by exact Hnp.
  eapply fs_updated with (f := f); cbn [Fine._id Fine.paymentStatus
    Fine.processedBy Fine.paymentDate Fine.amount Fine.userId
    Fine.transactionId]; auto.
  rewrite Hid. exact Hfind.
Qed.

Lemma deleteFine_step id s :
  FineStep (fines s) (fines (fst (deleteFine id s))).
Proof.
  unfold deleteFine, Fines.findById, Fines.findByIdAndDelete. cbv [bind gets].
  destruct (Coll.findById Fine._id id (fines s)) as [f |] eqn:Hfind;
    [ | apply fs_same ].
  cbv [orElse ret when_ modify]. unfold isPaid.
  destruct (PaymentStatus.eqb (Fine.paymentStatus f) PaymentStatus.paid) eqn:Hp;
    [ apply fs_same | ].
  cbn [fst fines set_fines]. apply fs_deleted with (f := f); [exact Hfind |].
  intros H. rewrite H in Hp. discriminate.
Qed.

Lemma fineRequest_step op id s :
  FineStep (fines s) (fines (fst (fineRequest op id s))).
Proof.
  destruct op; cbn [fineRequest]; rewrite asyncHandler_fst.
  - apply processFinePayment_step.
  - apply waiveFine_step.
  - apply updateFine_step.
  - apply deleteFine_step.
Qed.

Lemma createFine_step env body s :
  FineStep (fines s) (fines (fst (createFine env body s))).
Proof.
  unfold createFine, Users.findById, Transactions.findById, Fines.findOne.
  cbv [bind gets].
  destruct (Coll.findById User._id _ (users s)); [ | apply fs_same ].
  cbv [orElse ret].
  destruct (Coll.findById Transaction._id _ (transactions s)); [ | apply fs_same ].
  cbv [when_].
  destruct (isSome _); [ apply fs_same | ]. cbv [ret].
  destruct (Fines_create_cases env (cf_userId body) (cf_transactionId body)
              (cf_amount body) (cf_reason body) (cf_notes body) s)
    as [[e ->] | [Hv [Hnew ->]]]; [apply fs_same |].
  cbn [fst fines set_fines]. apply fs_created; auto.
Qed.

Lemma returnBook_step env staff id notes s :
  FineStep (fines s) (fines (fst (returnBook env staff id notes s))).
Proof.
  destruct (returnBook_effect env staff id notes s)
    as [-> | [t [fa [s0 [Hfind [Hst [Haf Hrest]]]]]]]; [apply fs_same |].
  assert (H0 : FineStep (fines s) (fines s0)).
  { destruct Haf as [[_ [_ ->]] | [Hlate [u [Hu [Hnew [_ ->]]]]]];
      [apply fs_same |].
    cbn [fines set_fines]. apply fs_created; auto.
    cbn [overdueFine Fine.amount]. apply fine_amount_valid.
    pose proof (ceilDays_pos (now env - Transaction.dueDate t)). lia. }
  destruct Hrest as [-> | [_ Hrel]]; [exact H0 |].
  destruct (afterRelease_frame _ _ _ _ Hrel) as [_ [_ [-> _]]]. exact H0.
Qed.

Lemma issueBook_fines env staff body s :
  fines (fst (issueBook env staff body s)) = fines s.
Proof.
  destruct (issueBook_effect env staff body s)
    as [-> | [book [_ [_ [_ [[_ ->] | [_ ->]]]]]]]; reflexivity.
Qed.

Lemma extendDueDate_fines env id body s :
  fines (fst (extendDueDate env id body s)) = fines s.
Proof.
  destruct (extendDueDate_effect env id body s)
    as [-> | [t [due [notes [_ [_ [_ [_ ->]]]]]]]]; reflexivity.
Qed.

(** Every request of the lifecycle writes the fines in one of the ways
    of [FineStep]. *)
Lemma handle_fine_step r s :
  FineStep (fines s) (fines (fst (handle r s))).
Proof.
  destruct r as [[env staff body | env staff id notes | env id body]
                | env id body | env body | op id | op]; cbn [handle ledgerRequest].
  - rewrite asyncHandler_fst, issueBook_fines. apply fs_same.
  - rewrite asyncHandler_fst. apply returnBook_step.
  - apply (updateBookAvailability_pres (fun s' => FineStep (fines s) (fines s')));
      [ intros c s' H; exact H | apply fs_same ].
  - rewrite asyncHandler_fst, extendDueDate_fines. apply fs_same.
  - rewrite asyncHandler_fst. apply createFine_step.
  - apply fineRequest_step.
  - apply (queueRequest_pres (fun s' => FineStep (fines s) (fines s')));
      [ intros c s' H; exact H | apply fs_same ].
Qed.

Lemma fines_invariant (I : list Fine.t -> Prop) :
  (forall c c', FineStep c c' -> I c -> I c') ->
  forall rs s, I (fines s) -> I (fines (serve rs s)).
Proof.
  intros Hstep. induction rs as [| r rs IH]; intros s H; [exact H |].
  cbn [serve fold_left]. apply IH. apply (Hstep (fines s)); [ | exact H ].
  apply handle_fine_step.
Qed.

Lemma findById_deleteOne_other {D} (id : D -> ObjectId) i j c :
  i <> j ->
  Coll.findById id j (Coll.deleteOne id i c) = Coll.findById id j c.
Proof.
  intros Hne. unfold Coll.findById, Coll.deleteOne, Coll.hasId.
  induction c as [| x c IH]; simpl; [reflexivity |].
  destruct (Nat.eqb_spec (id x) i) as [Hi | Hi]; simpl.
  - destruct (Nat.eqb_spec (id x) j); [congruence | exact IH].
  - destruct (Nat.eqb_spec (id x) j); [reflexivity | exact IH].
Qed.

Lemma FineStep_keeps_paid c c' id f :
  FineStep c c' ->
  Coll.findById Fine._id id c = Some f ->
  Fine.paymentStatus f = PaymentStatus.paid ->
  Coll.findById Fine._id id c' = Some f.
Proof.
  intros Hstep Hfind Hpaid.
  destruct Hstep as [ | f0 Hnew _ _ _ _
                      | f0 f' Hf0 Hpen _ _ _ _ _
                      | f0 f' Hf0 Hnp _ _ _ _ _ _
                      | i f0 Hf0 Hnp ].
  - exact Hfind.
  - apply findById_insertOne_old. exact Hfind.
  - destruct (Nat.eq_dec (Fine._id f') id) as [Heq | Hne].
    + rewrite Heq, Hfind in Hf0. injection Hf0 as <-. congruence.
    + rewrite findById_replaceOne_other by exact Hne. exact Hfind.
  - destruct (Nat.eq_dec (Fine._id f') id) as [Heq | Hne].
    + rewrite Heq, Hfind in Hf0. injection Hf0 as <-. contradiction.
    + rewrite findById_replaceOne_other by exact Hne. exact Hfind.
  - destruct (Nat.eq_dec i id) as [Heq | Hne].
    + rewrite Heq, Hfind in Hf0. injection Hf0 as <-. contradiction.
    + rewrite findById_deleteOne_other by exact Hne. exact Hfind.
Qed.

(** X10. A paid fine is final: whatever requests of the lifecycle follow
    (payments, waivers, updates, deletions, new fines, returns, ...), the
    fine stays stored under its identifier exactly as it was paid. *)
Theorem paid_fine_is_final rs s id f :
  Coll.findById Fine._id id (fines s) = Some f ->
  Fine.paymentStatus f = PaymentStatus.paid ->
  Coll.findById Fine._id id (fines (serve rs s)) = Some f.
Proof.
  intros Hfind Hpaid.
  apply (fines_invariant (fun c => Coll.findById Fine._id id c = Some f));
    [ | exact Hfind ].
  intros c c' Hstep H. exact (FineStep_keeps_paid c c' id f Hstep H Hpaid).
Qed.

Lemma paid_fine_is_final_witness :
  Coll.findById Fine._id 3000 (fines (serve tamperWithPaid paidStore))
  = Coll.findById Fine._id 3000 (fines paidStore)
  /\ option_map Fine.paymentStatus
       (Coll.findById Fine._id 3000 (fines paidStore))
     = Some PaymentStatus.paid.
Proof.
  split; [ | vm_compute; reflexivity ].
  replace (Coll.findById Fine._id 3000 (fines paidStore))
    with (Some (Fine.mk 3000 1 1000 1%Q Reason.overdue PaymentStatus.paid
                  (Some (16 * msPerDay)) (Some PaymentMethod.cash) (Some 9%nat)
                  None (16 * msPerDay)))
    by (vm_compute; reflexivity).
  apply (paid_fine_is_final tamperWithPaid paidStore 3000).
  - vm_compute. reflexivity.
  - reflexivity.
Defined.

Lemma fineWf_pending_dates f :
  fineWf f -> Fine.paymentStatus f = PaymentStatus.pending ->
  Fine.paymentDate f = None /\ Fine.processedBy f = None.
Proof.
  intros [_ [Hd Hp]] Hst. split.
  - destruct (Fine.paymentDate f); [ | reflexivity ].
    assert (H : Fine.paymentStatus f = PaymentStatus.paid)
      by (apply Hd; discriminate).
    congruence.
  - destruct (Fine.processedBy f); [ | reflexivity ].
    exfalso. destruct Hp as [Hp _].
    apply Hp; [ intros H; discriminate H | exact Hst ].
Qed.

Lemma FineStep_wf c c' :
  FineStep c c' ->
  NoDup (map Fine._id c) /\ Forall fineWf c ->
  NoDup (map Fine._id c') /\ Forall fineWf c'.
Proof.
  intros Hstep [Hnd Hall].
  destruct Hstep as [ | f Hnew Hpen Hdate Hby Hamt
                      | f f' Hf Hpen Hnpen Hsame Hamt Hby Hdate
                      | f f' Hf Hnp Hu Ht Hst Hdate Hby Hamt
                      | i f Hf Hnp ].
  - auto.
  - split; [ apply NoDup_ids_insertOne; assumption | ].
    unfold Coll.insertOne. apply Forall_app. split; [exact Hall |].
    constructor; [ | constructor ].
    split; [ apply Qle_bool_iff; exact Hamt | ].
    rewrite Hpen, Hdate, Hby. split; split; intros H; congruence.
  - split; [ rewrite ids_replaceOne; exact Hnd | ].
    apply replaceOne_Forall; [ | exact Hall ].
    destruct (findById_some _ _ _ _ Hf) as [_ Hin].
    rewrite Forall_forall in Hall.
    destruct (fineWf_pending_dates f (Hall f Hin) Hpen) as [Hd0 _].
    split; [ apply Qle_bool_iff; exact Hamt | ].
    split.
    + destruct Hdate as [[Hst Hd] | [Hst Hd]].
      * split; auto.
      * rewrite Hst, Hd, Hd0. split; intros H; congruence.
    + split; auto.
  - split; [ rewrite ids_replaceOne; exact Hnd | ].
    apply replaceOne_Forall; [ | exact Hall ].
    destruct (findById_some _ _ _ _ Hf) as [_ Hin].
    rewrite Forall_forall in Hall.
    destruct (Hall f Hin) as [_ [Hd Hp]].
    split; [ apply Qle_bool_iff; exact Hamt | ].
    rewrite Hst, Hdate, Hby. split; assumption.
  - split; [ apply NoDup_ids_filter; exact Hnd | ].
    rewrite Forall_forall in *. intros x Hx. apply Hall.
    unfold Coll.deleteOne in Hx. apply filter_In in Hx. tauto.
Qed.

Lemma sum_from (l : list Fine.t) : forall a : Q,
  (fold_left (fun sum fine => sum + Fine.amount fine) l a
   == a + fold_left (fun sum fine => sum + Fine.amount fine) l 0)%Q.
Proof.
  induction l as [| x l IH]; intros a; simpl.
  - ring.
  - rewrite IH. rewrite (IH (0 + Fine.amount x)%Q). ring.
Qed.

Lemma sum_nonneg (l : list Fine.t) :
  Forall (fun f => Qle 0 (Fine.amount f)) l ->
  Qle 0 (fold_left (fun sum fine => sum + Fine.amount fine)%Q l 0%Q).
Proof.
  induction l as [| x l IH]; intros Hall; simpl.
  - apply Qle_refl.
  - inversion Hall as [| ? ? Hx Hl]; subst.
    rewrite sum_from. specialize (IH Hl).
    assert (H : Qle 0 (0 + Fine.amount x)) by (rewrite Qplus_0_l; exact Hx).
    apply (Qplus_le_compat 0 _ 0 _ H) in IH. rewrite Qplus_0_l in IH.
    exact IH.
Qed.

(** X11. From a store of well-formed fines, after any sequence of
    lifecycle requests fine identifiers are unique and every stored fine
    has a non-negative amount, a payment date exactly when it is paid and
    a processing staff member exactly when it is paid or waived; the
    outstanding total of every borrower is non-negative. *)
Theorem fines_stay_well_formed rs s :
  finesWf s ->
  NoDup (map Fine._id (fines (serve rs s)))
  /\ (forall f, In f (fines (serve rs s)) ->
        Qle 0 (Fine.amount f)
        /\ (Fine.paymentDate f <> None
            <-> Fine.paymentStatus f = PaymentStatus.paid)
        /\ (Fine.processedBy f <> None
            <-> Fine.paymentStatus f <> PaymentStatus.pending))
  /\ forall u, Qle 0 (totalOutstanding u (serve rs s)).
Proof.
  intros Hwf.
  assert (H : NoDup (map Fine._id (fines (serve rs s)))
              /\ Forall fineWf (fines (serve rs s))).
  { apply (fines_invariant
             (fun c => NoDup (map Fine._id c) /\ Forall fineWf c));
      [ intros c c'; apply FineStep_wf | exact Hwf ]. }
  destruct H as [Hnd Hall]. split; [exact Hnd |]. split.
  - rewrite Forall_forall in Hall. exact Hall.
  - intros u. unfold totalOutstanding. apply sum_nonneg.
    rewrite Forall_forall in *. intros f Hf. apply filter_In in Hf.
    destruct Hf as [Hin _]. apply (Hall f Hin).
Qed.

Lemma fines_stay_well_formed_witness :
  NoDup (map Fine._id (fines (serve busyDay demoStore)))
  /\ (forall f, In f (fines (serve busyDay demoStore)) ->
        Qle 0 (Fine.amount f)
        /\ (Fine.paymentDate f <> None
            <-> Fine.paymentStatus f = PaymentStatus.paid)
        /\ (Fine.processedBy f <> None
            <-> Fine.paymentStatus f <> PaymentStatus.pending))
  /\ forall u, Qle 0 (totalOutstanding u (serve busyDay demoStore)).
Proof.
  apply (fines_stay_well_formed busyDay demoStore).
  split; [ apply NoDup_nil | apply Forall_nil ].
Defined.







Lemma find_none_Forall (tx : ObjectId) (c : list Fine.t) :
  isSome (find (fun f => Nat.eqb (Fine.transactionId f) tx) c) = false
  <-> Forall (fun f => Fine.transactionId f <> tx) c.
Proof.
  rewrite isSome_find. induction c as [| x c IH]; simpl.
  - split; [ constructor | reflexivity ].
  - destruct (Nat.eqb_spec (Fine.transactionId x) tx) as [Heq | Hne]; simpl.
    + split; [ discriminate | ].
      intros H. inversion H; subst. contradiction.
    + rewrite IH. split; [ constructor; assumption | ].
      intros H. inversion H; assumption.
Qed.

(** X13. createFine succeeds exactly when the user and the loan exist, no
    fine is stored for the loan yet, the amount is not negative and the
    new identifier is unused; it then appends one pending fine with the
    borrower, loan, amount and reason of the request and no payment
    data, and otherwise changes nothing. *)
Theorem createFine_succeeds_iff env body s :
  let s' := fst (asyncHandler (createFine env body) s) in
  let ok := succeeded (snd (asyncHandler (createFine env body) s)) in
  (ok = true <->
     isSome (Coll.findById User._id (cf_userId body) (users s)) = true
     /\ isSome (Coll.findById Transaction._id (cf_transactionId body)
                              (transactions s)) = true
     /\ Forall (fun f => Fine.transactionId f <> cf_transactionId body)
               (fines s)
     /\ Qle 0 (cf_amount body)
     /\ Coll.findById Fine._id (newObjectId env) (fines s) = None)
  /\ (ok = true ->
      exists f,
        s' = set_fines (fines s ++ [f])%list s
        /\ Fine._id f = newObjectId env
        /\ Fine.userId f = cf_userId body
        /\ Fine.transactionId f = cf_transactionId body
        /\ Fine.amount f = cf_amount body
        /\ Fine.reason f = cf_reason body
        /\ Fine.paymentStatus f = PaymentStatus.pending
        /\ Fine.paymentDate f = None
        /\ Fine.paymentMethod f = None
        /\ Fine.processedBy f = None)
  /\ (ok = false -> s' = s).
Proof.
  cbv zeta. unfold asyncHandler, createFine, Users.findById,
    Transactions.findById, Fines.findOne.
  cbv [bind gets].
  destruct (Coll.findById User._id (cf_userId body) (users s)) as [u |].
  2: { cbn. split; [ split; [ discriminate | intros [H _]; discriminate ] | ].
       split; [ discriminate | reflexivity ]. }
  cbv [orElse ret].
  destruct (Coll.findById Transaction._id (cf_transactionId body)
              (transactions s)) as [t |].
  2: { cbn. split; [ split; [ discriminate | intros [_ [H _]]; discriminate ] | ].
       split; [ discriminate | reflexivity ]. }
  cbv [when_].
  pose proof (find_none_Forall (cf_transactionId body) (fines s)) as Hex.
  destruct (isSome (find _ (fines s))) eqn:Hfound.
  { cbn. split; [ split; [ discriminate | ] | split; [ discriminate | reflexivity ] ].
    intros [_ [_ [H _]]]. apply Hex in H. discriminate. }
  cbv [ret].
  destruct (Fines_create_cases env (cf_userId body) (cf_transactionId body)
              (cf_amount body) (cf_reason body) (cf_notes body) s)
    as [[e He] | [Hv [Hnew Hrun]]].
  - rewrite He. cbn. split; [ split; [ discriminate | ] | split; [ discriminate | reflexivity ] ].
    intros [_ [_ [_ [Hamt Hnew]]]]. exfalso. revert He.
    unfold Fines.create, Fines.validate, Coll.insertNew.
    cbv [bind gets check ret throw modify].
    cbn [Fine.amount Fines.preSave Fine.paymentStatus Fine.paymentDate Fine._id].
    apply Qle_bool_iff in Hamt. rewrite Hamt, Hnew. discriminate.
  - rewrite Hrun. cbn. split; [ split; [ intros _ | reflexivity ] | ].
    + repeat split; auto. * apply Hex. reflexivity. * apply Qle_bool_iff. exact Hv.
    + split; [ intros _ | discriminate ].
      eexists. split; [ reflexivity | repeat split ].
Qed.

(** * Reservations *)

Lemma updateReservationPriorities_exact book s :
  collectionWf (reservations s) ->
  updateReservationPriorities book s
  = (set_reservations (rerankedQueue book (reservations s)) s, Next tt).
Proof.
  intros [Hnd [Hpre Hu]]. unfold rerankedQueue.
  set (c := reservations s).
  set (F := filter (Reservations.isActiveFor book) c).
  set (l := Reservations.sortByDate F).
  assert (Hperm : Permutation l F) by apply sortByDate_perm.
  assert (Hndl : NoDup (map Reservation._id l)).
  { apply (Permutation_NoDup (l := map Reservation._id F)).
    - apply Permutation_map, Permutation_sym, Hperm.
    - apply NoDup_ids_filter. exact Hnd. }
  assert (Hin : forall x, In x l -> In x c).
  { intros x Hx. apply (Permutation_in _ Hperm) in Hx.
    apply filter_In in Hx. apply Hx. }
  unfold updateReservationPriorities, Reservations.findSorted.
  cbv [bind gets]. fold c. fold F. fold l.
  apply renumber_run; auto; try lia.
  intros x Hx. rewrite Forall_forall in Hpre. apply Hpre. apply (Hin x Hx).
Qed.

(** A reservation leaves its queue: the save of the closed document, then
    the re-ranking of the book's queue, then the reply. *)
Lemma leave_run r r' s code ok msg :
  collectionWf (reservations s) ->
  Coll.findById Reservation._id (Reservation._id r') (reservations s) = Some r ->
  Reservation.userId r' = Reservation.userId r ->
  Reservation.bookId r' = Reservation.bookId r ->
  Reservations.isActive r' = false ->
  let h : Handler unit :=
    (Reservations.save r' ;;
     updateReservationPriorities (Reservation.bookId r) ;;
     json code ok msg) in
  (exists e, h s = (s, Thrown e))
  \/ (Reservations.preSave r' = None
      /\ h s
         = (set_reservations
              (rerankedQueue (Reservation.bookId r)
                 (Coll.replaceOne Reservation._id r' (reservations s))) s,
            Sent (mkResponse code ok msg))).
Proof.
  intros Hwf Hfind Huser Hbook Hina h. subst h.
  destruct (findById_some _ _ _ _ Hfind) as [Hid Hin].
  destruct (Reservations_save_cases r' s) as [[e He] | [Hs Hp]].
  - left. exists e. unfold bind at 1. rewrite He. reflexivity.
  - right. split; [exact Hp |].
    destruct (leave_active_set r r' s Hwf Hin (eq_sym Hid) Huser Hbook Hina Hp)
      as [Hwf1 _].
    unfold bind at 1. rewrite Hs. unfold bind at 1.
    rewrite (updateReservationPriorities_exact _ _ Hwf1).
    reflexivity.
Qed.

Lemma cancelReservation_effect env user id s :
  collectionWf (reservations s) ->
  (fst (cancelReservation env user id s) = s
   /\ succeeded (snd (asyncHandler (cancelReservation env user id) s)) = false)
  \/ exists r,
       Coll.findById Reservation._id id (reservations s) = Some r
       /\ Reservations.isActive r = true
       /\ Nat.eqb (Reservation.userId r) (auth_id user)
          || isStaff (auth_role user) = true
       /\ Reservations.preSave r = None
       /\ cancelReservation env user id s
          = (set_reservations
               (rerankedQueue (Reservation.bookId r)
                  (Coll.replaceOne Reservation._id
                     (Reservations.with_status ResStatus.cancelled (now env) r)
                     (reservations s))) s,
             Sent (mkResponse 200 true "Reservation cancelled successfully")).
Proof.
  intros Hwf. unfold asyncHandler.
  assert (Hrun : forall r,
    Coll.findById Reservation._id id (reservations s) = Some r ->
    cancelReservation env user id s
    = (if negb (Nat.eqb (Reservation.userId r) (auth_id user))
          && negb (isStaff (auth_role user))
       then (s, Sent (mkResponse 403 false "Access denied"))
       else if Reservations.isActive r
       then (Reservations.save
               (Reservations.with_status ResStatus.cancelled (now env) r) ;;
             updateReservationPriorities (Reservation.bookId r) ;;
             json 200 true "Reservation cancelled successfully") s
       else (s, Sent (mkResponse 400 false
                        "Can only cancel active reservations")))).
  { intros r Hr. unfold cancelReservation, Reservations.findById.
    cbv [bind gets]. rewrite Hr. cbv [orElse ret when_].
    destruct (negb _ && negb _); [reflexivity |].
    destruct (Reservations.isActive r); reflexivity. }
  destruct (Coll.findById Reservation._id id (reservations s)) as [r |] eqn:Hr.
  2: { left. unfold cancelReservation, Reservations.findById.
       cbv [bind gets]. rewrite Hr. split; reflexivity. }
  rewrite (Hrun r eq_refl). clear Hrun.
  destruct (findById_some _ _ _ _ Hr) as [Hid _].
  rewrite <- negb_orb.
  destruct (Nat.eqb (Reservation.userId r) (auth_id user)
            || isStaff (auth_role user)) eqn:Hmay;
    [ | left; split; reflexivity ].
  cbn [negb].
  destruct (Reservations.isActive r) eqn:Hact; [ | left; split; reflexivity ].
  assert (Hr' : Coll.findById Reservation._id
                  (Reservation._id
                     (Reservations.with_status ResStatus.cancelled (now env) r))
                  (reservations s) = Some r)
    by (cbn [Reservations.with_status Reservation._id]; rewrite Hid; exact Hr).
  destruct (leave_run r (Reservations.with_status ResStatus.cancelled (now env) r)
              s 200 true "Reservation cancelled successfully" Hwf Hr'
              eq_refl eq_refl eq_refl)
    as [[e H] | [Hp H]]; [ left; rewrite H; split; reflexivity | right ].
  exists r. repeat (split; [ first [ reflexivity | assumption ] | ]).
  exact H.
Qed.

Lemma fulfillReservation_effect env staff id s :
  collectionWf (reservations s) ->
  (fst (fulfillReservation env staff id s) = s
   /\ succeeded (snd (asyncHandler (fulfillReservation env staff id) s)) = false)
  \/ exists r b,
       Coll.findById Reservation._id id (reservations s) = Some r
       /\ Reservations.isActive r = true
       /\ Coll.findById Book._id (Reservation.bookId r) (books s) = Some b
       /\ 0 < Book.availableCopies b
       /\ fulfillReservation env staff id s
          = (set_reservations
               (rerankedQueue (Reservation.bookId r)
                  (Coll.replaceOne Reservation._id
                     (Reservations.fulfilled_by (auth_id staff) (now env) r)
                     (reservations s))) s,
             Sent (mkResponse 200 true "Reservation fulfilled successfully")).
Proof.
  intros Hwf. unfold asyncHandler.
  assert (Hrun : forall r b,
    Coll.findById Reservation._id id (reservations s) = Some r ->
    Coll.findById Book._id (Reservation.bookId r) (books s) = Some b ->
    fulfillReservation env staff id s
    = (if Reservations.isActive r
       then if Book.availableCopies b <=? 0
            then (s, Sent (mkResponse 400 false "Book is not available"))
            else (Reservations.save
                    (Reservations.fulfilled_by (auth_id staff) (now env) r) ;;
                  updateReservationPriorities (Reservation.bookId r) ;;
                  json 200 true "Reservation fulfilled successfully") s
       else (s, Sent (mkResponse 400 false
                        "Can only fulfill active reservations")))).
  { intros r b Hr Hb. unfold fulfillReservation, Reservations.findById,
      Books.findById.
    cbv [bind gets]. rewrite Hr. cbv [orElse ret when_].
    destruct (Reservations.isActive r); [ | reflexivity ].
    cbn [negb]. rewrite Hb.
    destruct (Book.availableCopies b <=? 0); reflexivity. }
  destruct (Coll.findById Reservation._id id (reservations s)) as [r |] eqn:Hr.
  2: { left. unfold fulfillReservation, Reservations.findById.
       cbv [bind gets]. rewrite Hr. split; reflexivity. }
  destruct (Coll.findById Book._id (Reservation.bookId r) (books s)) as [b |]
    eqn:Hb.
  2: { left. unfold fulfillReservation, Reservations.findById, Books.findById.
       cbv [bind gets]. rewrite Hr. cbv [orElse ret when_].
       destruct (Reservations.isActive r); [ | split; reflexivity ].
       cbn [negb]. rewrite Hb. split; reflexivity. }
  rewrite (Hrun r b eq_refl Hb). clear Hrun.
  destruct (findById_some _ _ _ _ Hr) as [Hid _].
  destruct (Reservations.isActive r) eqn:Hact; [ | left; split; reflexivity ].
  destruct (Z.leb_spec (Book.availableCopies b) 0) as [Hle | Hlt];
    [ left; split; reflexivity | ].
  assert (Hr' : Coll.findById Reservation._id
                  (Reservation._id
                     (Reservations.fulfilled_by (auth_id staff) (now env) r))
                  (reservations s) = Some r)
    by (cbn [Reservations.fulfilled_by Reservation._id]; rewrite Hid; exact Hr).
  destruct (leave_run r (Reservations.fulfilled_by (auth_id staff) (now env) r)
              s 200 true "Reservation fulfilled successfully" Hwf Hr'
              eq_refl eq_refl eq_refl)
    as [[e H'] | [Hp H']]; [ left; rewrite H'; split; reflexivity | right ].
  exists r, b. repeat (split; [ first [ reflexivity | assumption ] | ]).
  exact H'.
Qed.

Lemma createReservation_effect env user body s :
  (fst (createReservation env user body s) = s
   /\ succeeded (snd (asyncHandler (createReservation env user body) s)) = false)
  \/ exists r,
       Reservation._id r = newObjectId env
       /\ Reservation.userId r = auth_id user
       /\ Reservation.bookId r = reserve_bookId body
       /\ Reservations.isActive r = true
       /\ Reservations.preSave r = None
       /\ Reservations.uniqueIndex r (reservations s) = None
       /\ Coll.findById Reservation._id (Reservation._id r) (reservations s)
          = None
       /\ Coll.countDocuments (Reservations.isActiveOf (auth_id user))
                              (reservations s)
          < reservationLimit (auth_role user)
       /\ createReservation env user body s
          = (set_reservations (Coll.insertOne r (reservations s)) s,
             Sent (mkResponse 201 true "Reservation created successfully")).
Proof.
  unfold asyncHandler, createReservation, Books.findById, Reservations.findOne,
    Transactions.findOne, Reservations.countDocuments.
  cbv [bind gets].
  destruct (Coll.findById Book._id (reserve_bookId body) (books s)) as [b |];
    [ | left; split; reflexivity ].
  cbn [orElse ret].
  destruct ((Book.availableCopies b >? 0) && _); [left; split; reflexivity |].
  cbn [when_ ret].
  destruct (isSome (find _ (reservations s))); [left; split; reflexivity |].
  cbn [when_ ret].
  destruct (isSome (find _ (transactions s))); [left; split; reflexivity |].
  cbn [when_ ret].
  destruct (_ >=? _) eqn:Hlim; [left; split; reflexivity |].
  cbn [when_ ret].
  match goal with
  | |- context [Reservations.create ?e ?u ?b ?x ?p ?s] =>
      destruct (Reservations_create_cases e u b x p s)
        as [[err ->] | [-> [Hp [Hu Hnew]]]]
  end; [left; split; reflexivity | right].
  cbn [json fst]. eexists. repeat split; try eassumption; try reflexivity.
  rewrite Z.geb_leb in Hlim. apply Z.leb_gt in Hlim. exact Hlim.
Qed.

Lemma findById_map {D} (id : D -> ObjectId) (g : D -> D) i c :
  (forall x, id (g x) = id x) ->
  Coll.findById id i (map g c) = option_map g (Coll.findById id i c).
Proof.
  intros Hg. unfold Coll.findById, Coll.hasId.
  induction c as [| x c IH]; simpl; [reflexivity |].
  rewrite Hg. destruct (Nat.eqb (id x) i); [reflexivity | exact IH].
Qed.

Lemma reranked_sameButPriority l i x : sameButPriority x (reranked l i x).
Proof.
  unfold reranked, sameButPriority.
  destruct (rankIn l i (Reservation._id x)); repeat split.
Qed.

Lemma sameButPriority_refl x : sameButPriority x x.
Proof. repeat split. Qed.

Lemma swept_fields at_ x :
  let y := if isExpiredAt at_ x
           then Reservations.with_status ResStatus.expired at_ x else x in
  Reservation._id y = Reservation._id x
  /\ Reservation.userId y = Reservation.userId x
  /\ Reservation.bookId y = Reservation.bookId x
  /\ Reservations.preSave y = Reservations.preSave x
  /\ (Reservations.isActive y = true -> Reservations.isActive x = true).
Proof.
  cbv zeta. destruct (isExpiredAt at_ x); repeat split; auto.
  discriminate.
Qed.

Lemma queueRequest_step op s :
  collectionWf (reservations s) ->
  QueueStep (reservations s) (reservations (fst (queueRequest op s))).
Proof.
  intros Hwf.
  destruct op as [env user body | env user id | env staff id | env];
    cbn [queueRequest]; rewrite asyncHandler_fst.
  - destruct (createReservation_effect env user body s)
      as [[-> _] | [r [_ [_ [_ [Hact [Hp [Hu [Hnew [_ ->]]]]]]]]]];
      [ apply qs_same | ].
    cbn [fst reservations set_reservations]. apply qs_joined; assumption.
  - destruct (cancelReservation_effect env user id s Hwf)
      as [[-> _] | [r [Hr [Hact [_ [Hp ->]]]]]]; [ apply qs_same | ].
    cbn [fst reservations set_reservations].
    destruct (findById_some _ _ _ _ Hr) as [Hid _].
    apply (qs_left _ r (Reservations.with_status ResStatus.cancelled (now env) r));
      auto.
    cbn [Reservations.with_status Reservation._id]. rewrite Hid. exact Hr.
  - destruct (fulfillReservation_effect env staff id s Hwf)
      as [[-> _] | [r [b [Hr [Hact [_ [_ ->]]]]]]]; [ apply qs_same | ].
    cbn [fst reservations set_reservations].
    destruct (findById_some _ _ _ _ Hr) as [Hid Hin].
    apply (qs_left _ r (Reservations.fulfilled_by (auth_id staff) (now env) r));
      auto.
    + cbn [Reservations.fulfilled_by Reservation._id]. rewrite Hid. exact Hr.
    + destruct Hwf as [_ [Hpre _]]. rewrite Forall_forall in Hpre.
      apply (Hpre r Hin).
  - rewrite <- asyncHandler_fst, autoExpire_run.
    cbn [reservations set_reservations]. apply qs_swept.
Qed.

Lemma issueBook_reservations env staff body s :
  reservations (fst (issueBook env staff body s)) = reservations s.
Proof.
  destruct (issueBook_effect env staff body s)
    as [-> | [book [_ [_ [_ [[_ ->] | [_ ->]]]]]]]; reflexivity.
Qed.

Lemma returnBook_reservations env staff id notes s :
  reservations (fst (returnBook env staff id notes s)) = reservations s.
Proof.
  destruct (returnBook_effect env staff id notes s)
    as [-> | [t [fa [s0 [_ [_ [Haf Hrest]]]]]]]; [reflexivity |].
  destruct (afterFine_frame _ _ _ _ _ Haf) as [_ [_ [_ [H0 _]]]].
  destruct Hrest as [-> | [_ Hrel]]; [exact H0 |].
  destruct (afterRelease_frame _ _ _ _ Hrel) as [_ [_ [_ ->]]]. exact H0.
Qed.

Lemma extendDueDate_reservations env id body s :
  reservations (fst (extendDueDate env id body s)) = reservations s.
Proof.
  destruct (extendDueDate_effect env id body s)
    as [-> | [t [due [notes [_ [_ [_ [_ ->]]]]]]]]; reflexivity.
Qed.

(** Only the reservation requests write reservations. *)
Lemma handle_reservations r s :
  (forall op, r <> Queue op) ->
  reservations (fst (handle r s)) = reservations s.
Proof.
  intros Hq.
  destruct r as [[env staff body | env staff id notes | env id body]
                | env id body | env body | op id | op]; cbn [handle ledgerRequest].
  - rewrite asyncHandler_fst. apply issueBook_reservations.
  - rewrite asyncHandler_fst. apply returnBook_reservations.
  - apply (updateBookAvailability_pres
             (fun s' => reservations s' = reservations s));
      [ intros c s' H; exact H | reflexivity ].
  - rewrite asyncHandler_fst. apply extendDueDate_reservations.
  - apply (createFine_pres (fun s' => reservations s' = reservations s));
      [ intros c s' H; exact H | reflexivity ].
  - apply (fineRequest_pres (fun s' => reservations s' = reservations s));
      [ intros c s' H; exact H | reflexivity ].
  - exfalso. apply (Hq op). reflexivity.
Qed.

Lemma handle_queue_step r s :
  collectionWf (reservations s) ->
  QueueStep (reservations s) (reservations (fst (handle r s))).
Proof.
  intros Hwf. destruct r as [ | | | | op];
    try (rewrite handle_reservations by discriminate; apply qs_same).
  cbn [handle]. apply queueRequest_step. exact Hwf.
Qed.

Lemma QueueStep_wf c c' :
  QueueStep c c' -> collectionWf c -> collectionWf c'.
Proof.
  intros Hstep Hwf.
  destruct Hstep as [ | r Hp Hui Hnew Hact
                      | r r' Hr Hact Hina Huser Hbook Hp
                      | at_ ].
  - exact Hwf.
  - destruct Hwf as [Hnd [Hpre Hu]].
    split; [ apply NoDup_ids_insertOne; assumption | split ].
    + unfold Coll.insertOne. apply Forall_app. split; [exact Hpre |].
      constructor; [exact Hp | constructor].
    + unfold Coll.insertOne. intros a b Ha Hb Haa Hba Huser Hbook.
      apply in_app_or in Ha, Hb.
      destruct Ha as [Ha | [<- | []]], Hb as [Hb | [<- | []]].
      * apply Hu; auto.
      * apply (uniqueIndex_none_inv _ _ a Hui); auto.
      * symmetry. apply (uniqueIndex_none_inv _ _ b Hui); auto.
      * reflexivity.
  - destruct (findById_some _ _ _ _ Hr) as [Hid Hin].
    unfold rerankedQueue. apply collectionWf_reranked.
    apply (leave_active_set r r' (mkStore [] [] [] [] c)); auto.
  - destruct Hwf as [Hnd [Hpre Hu]]. unfold swept.
    split; [ | split ].
    + rewrite map_map.
      rewrite (map_ext _ Reservation._id); [exact Hnd |].
      intros x. apply (swept_fields at_ x).
    + apply Forall_map. eapply Forall_impl; [ | exact Hpre ].
      intros x Hx. destruct (swept_fields at_ x) as [_ [_ [_ [-> _]]]].
      exact Hx.
    + apply uniqueActive_map; [ | exact Hu ].
      intros x _. destruct (swept_fields at_ x) as [H1 [H2 [H3 [_ H4]]]].
      auto.
Qed.

Lemma collection_kept rs : forall s,
  collectionWf (reservations s) -> collectionWf (reservations (serve rs s)).
Proof.
  induction rs as [| r rs IH]; intros s Hwf; [exact Hwf |].
  cbn [serve fold_left]. apply IH.
  apply (QueueStep_wf (reservations s)); [ | exact Hwf ].
  apply handle_queue_step. exact Hwf.
Qed.

(** X14. The reservation requests write reservations only: creating,
    cancelling, fulfilling and sweeping leave the users, the books with
    their copy counts, the loans and the fines as they were - fulfilling
    a reservation neither issues the book nor takes a copy off the
    shelf. *)
Theorem queue_requests_write_reservations_only op s :
  users (fst (queueRequest op s)) = users s
  /\ books (fst (queueRequest op s)) = books s
  /\ transactions (fst (queueRequest op s)) = transactions s
  /\ fines (fst (queueRequest op s)) = fines s.
Proof.
  apply (queueRequest_pres
           (fun s' => users s' = users s /\ books s' = books s
                      /\ transactions s' = transactions s
                      /\ fines s' = fines s)).
  - intros c s' H. exact H.
  - repeat split.
Qed.

(** X15. From a well-formed reservation collection, after any sequence of
    lifecycle requests - the expiry sweep included - reservation
    identifiers are unique, every reservation expires after it was made,
    and no borrower has two active reservations for the same book. *)
Theorem reservations_stay_well_formed rs s :
  collectionWf (reservations s) ->
  NoDup (map Reservation._id (reservations (serve rs s)))
  /\ (forall r, In r (reservations (serve rs s)) ->
        Reservation.reservationDate r < Reservation.expiryDate r)
  /\ (forall a b,
        In a (reservations (serve rs s)) -> In b (reservations (serve rs s)) ->
        Reservations.isActive a = true -> Reservations.isActive b = true ->
        Reservation.userId a = Reservation.userId b ->
        Reservation.bookId a = Reservation.bookId b ->
        a = b).
Proof.
  intros Hwf. destruct (collection_kept rs s Hwf) as [Hnd [Hpre Hu]].
  split; [exact Hnd |]. split.
  - intros r Hr. rewrite Forall_forall in Hpre. specialize (Hpre r Hr).
    unfold Reservations.preSave in Hpre.
    destruct (Z.leb_spec (Reservation.expiryDate r)
                         (Reservation.reservationDate r));
      [discriminate | assumption].
  - intros a b Ha Hb Haa Hba Huser Hbook.
    apply (NoDup_ids_eq Reservation._id _ a b Hnd Ha Hb).
    apply Hu; assumption.
Qed.

Lemma reservations_stay_well_formed_witness :
  NoDup (map Reservation._id
           (reservations (serve (map Queue sweepThenReserve) queueStore)))
  /\ (forall r,
        In r (reservations (serve (map Queue sweepThenReserve) queueStore)) ->
        Reservation.reservationDate r < Reservation.expiryDate r)
  /\ (forall a b,
        In a (reservations (serve (map Queue sweepThenReserve) queueStore)) ->
        In b (reservations (serve (map Queue sweepThenReserve) queueStore)) ->
        Reservations.isActive a = true -> Reservations.isActive b = true ->
        Reservation.userId a = Reservation.userId b ->
        Reservation.bookId a = Reservation.bookId b ->
        a = b).
Proof.
  apply (reservations_stay_well_formed (map Queue sweepThenReserve) queueStore).
  split; [ apply NoDup_nil | split; [ apply Forall_nil | ] ].
  intros a b [].
Defined.

(** X16. A stored reservation keeps everything but its priority -
    borrower, book, dates, status, fulfilment - through any request that
    is not a cancellation of it by its owner or by staff, its fulfilment,
    or a sweep after its expiry date: no other borrower and no other
    request can close or alter it. *)
Theorem reservation_protected req s id r :
  collectionWf (reservations s) ->
  Coll.findById Reservation._id id (reservations s) = Some r ->
  mayClose req id r = false ->
  exists r',
    Coll.findById Reservation._id id (reservations (fst (handle req s)))
    = Some r'
    /\ sameButPriority r r'.
Proof.
  intros Hwf Hr Hmay.
  assert (Hsame : forall s', reservations s' = reservations s ->
            exists r', Coll.findById Reservation._id id (reservations s')
                       = Some r' /\ sameButPriority r r').
  { intros s' ->. exists r. split; [exact Hr | apply sameButPriority_refl]. }
  assert (Hleft : forall r0' b s',
            Reservation._id r0' <> id ->
            reservations s'
            = rerankedQueue b
                (Coll.replaceOne Reservation._id r0' (reservations s)) ->
            exists r', Coll.findById Reservation._id id (reservations s')
                       = Some r' /\ sameButPriority r r').
  { intros r0' b s' Hne ->. unfold rerankedQueue.
    rewrite findById_map by (intros x; apply reranked_fields).
    rewrite findById_replaceOne_other by exact Hne. rewrite Hr.
    eexists. split; [reflexivity | apply reranked_sameButPriority]. }
  destruct req as [ | | | | [env user body | env user id' | env staff id' | env]];
    try (apply Hsame; apply handle_reservations; discriminate);
    cbn [handle queueRequest]; rewrite asyncHandler_fst.
  - destruct (createReservation_effect env user body s)
      as [[-> _] | [r0 [_ [_ [_ [_ [_ [_ [Hnew [_ ->]]]]]]]]]];
      [ apply Hsame; reflexivity | ].
    cbn [fst reservations set_reservations].
    exists r. split; [ | apply sameButPriority_refl ].
    apply findById_insertOne_old. exact Hr.
  - destruct (cancelReservation_effect env user id' s Hwf)
      as [[-> _] | [r0 [Hr0 [_ [Hok [_ ->]]]]]];
      [ apply Hsame; reflexivity | ].
    cbn [fst]. cbn [mayClose] in Hmay.
    destruct (Nat.eqb_spec id' id) as [-> | Hne].
    + rewrite Hr in Hr0. injection Hr0 as <-.
      rewrite Hok in Hmay. discriminate.
    + apply (Hleft (Reservations.with_status ResStatus.cancelled (now env) r0)
                   (Reservation.bookId r0)); [ | reflexivity ].
      cbn [Reservations.with_status Reservation._id].
      destruct (findById_some _ _ _ _ Hr0) as [-> _]. exact Hne.
  - destruct (fulfillReservation_effect env staff id' s Hwf)
      as [[-> _] | [r0 [b [Hr0 [_ [_ [_ ->]]]]]]];
      [ apply Hsame; reflexivity | ].
    cbn [fst]. cbn [mayClose] in Hmay. apply Nat.eqb_neq in Hmay.
    apply (Hleft (Reservations.fulfilled_by (auth_id staff) (now env) r0)
                 (Reservation.bookId r0)); [ | reflexivity ].
    cbn [Reservations.fulfilled_by Reservation._id].
    destruct (findById_some _ _ _ _ Hr0) as [-> _]. exact Hmay.
  - rewrite <- asyncHandler_fst, autoExpire_run.
    cbn [reservations set_reservations].
    rewrite findById_map by (intros x; apply (swept_fields (now env) x)).
    rewrite Hr. cbn [option_map mayClose] in *.
    unfold isExpiredAt. rewrite Hmay, andb_false_r.
    exists r. split; [reflexivity | apply sameButPriority_refl].
Qed.

Lemma reservation_protected_witness :
  exists r',
    Coll.findById Reservation._id 2001
      (reservations
         (fst (handle (Queue (CancelReservation (mkEnv 3 0) borrower2 2001))
                      twoQueued)))
    = Some r'
    /\ sameButPriority
         (Reservation.mk 2001 1 100 0 10 ResStatus.active 1 None None 0) r'.
Proof.
  apply (reservation_protected
           (Queue (CancelReservation (mkEnv 3 0) borrower2 2001)) twoQueued 2001).
  - apply (collection_kept (map Queue twoReservations) queueStore).
    split; [ apply NoDup_nil | split; [ apply Forall_nil | ] ].
    intros a b [].
  - vm_compute. reflexivity.
  - reflexivity.
Defined.

Lemma filter_none {A} (p : A -> bool) l :
  (forall x, In x l -> p x = false) -> filter p l = [].
Proof.
  induction l as [| x l IH]; intros H; simpl; [reflexivity |].
  rewrite (H x (or_introl eq_refl)). apply IH.
  intros y Hy. apply H. right. exact Hy.
Qed.

(** X17. The expiry sweep is idempotent: right after a sweep, a second
    sweep at the same or an earlier time finds nothing to expire - it
    reports 0 reservations and leaves the store as it is. *)
Theorem sweep_twice_changes_nothing env env2 s :
  now env2 <= now env ->
  asyncHandler (autoExpireReservations env2)
    (fst (asyncHandler (autoExpireReservations env) s))
  = (fst (asyncHandler (autoExpireReservations env) s),
     Json (mkResponse 200 true "0 reservations expired")).
Proof.
  intros Hle.
  pose proof (autoExpire_expires_all env s) as Hall.
  set (s1 := fst (asyncHandler (autoExpireReservations env) s)) in *.
  clearbody s1.
  assert (Hno : forall r, In r (reservations s1) ->
                          isExpiredAt (now env2) r = false).
  { rewrite forallb_forall in Hall. intros r Hr. specialize (Hall r Hr).
    apply negb_true_iff in Hall. unfold isExpiredAt in *.
    destruct (Reservations.isActive r); [ | reflexivity ].
    cbn [andb] in *. apply Z.ltb_ge in Hall. apply Z.ltb_ge. lia. }
  unfold asyncHandler, autoExpireReservations, Reservations.updateMany,
    Reservations.countDocuments, Coll.countDocuments.
  cbv [bind gets modify ret json].
  rewrite (filter_none _ _ Hno).
  rewrite (map_ext_in _ (fun r => r)), map_id, store_eta; [reflexivity |].
  intros r Hr. rewrite (Hno r Hr). reflexivity.
Qed.

Lemma sweep_twice_changes_nothing_witness :
  asyncHandler (autoExpireReservations sweepEnv)
    (fst (asyncHandler (autoExpireReservations sweepEnv) twoQueued))
  = (fst (asyncHandler (autoExpireReservations sweepEnv) twoQueued),
     Json (mkResponse 200 true "0 reservations expired")).
Proof.
  apply (sweep_twice_changes_nothing sweepEnv sweepEnv twoQueued).
  apply Z.le_refl.
Defined.

(** ** Sorting *)

Section SortFacts.
Context {D : Type} (key : D -> Z).

Lemma insertBy_perm d l : Permutation (insertBy key d l) (d :: l).
Proof.
  induction l as [| x l IH]; simpl; [apply Permutation_refl |].
  destruct (key d <? key x); [apply Permutation_refl |].
  apply (perm_trans (l' := x :: d :: l));
    [ apply perm_skip; exact IH | apply perm_swap ].
Qed.

Lemma sortBy_perm l : Permutation (sortBy key l) l.
Proof.
  induction l as [| x l IH]; simpl; [apply Permutation_refl |].
  apply (perm_trans (l' := x :: sortBy key l));
    [ apply insertBy_perm | apply perm_skip; exact IH ].
Qed.

Lemma insertBy_sorted d l :
  StronglySorted (fun a b => key a <= key b) l ->
  StronglySorted (fun a b => key a <= key b) (insertBy key d l).
Proof.
  induction l as [| x l IH]; intros Hs; simpl.
  - constructor; constructor.
  - inversion Hs as [| ? ? Hs' Hall]; subst.
    destruct (Z.ltb_spec (key d) (key x)) as [Hlt | Hge].
    + constructor; [exact Hs |].
      constructor; [lia |].
      eapply Forall_impl; [ | exact Hall ]. intros a Ha. simpl in Ha. lia.
    + constructor; [ apply IH; exact Hs' | ].
      apply (Permutation_Forall (Permutation_sym (insertBy_perm d l))).
      constructor; [ simpl; lia | exact Hall ].
Qed.

Lemma sortBy_sorted l :
  StronglySorted (fun a b => key a <= key b) (sortBy key l).
Proof.
  induction l as [| x l IH]; simpl; [constructor |].
  apply insertBy_sorted. exact IH.
Qed.

Lemma sorted_keys l :
  StronglySorted (fun a b => key a <= key b) l ->
  StronglySorted Z.le (map key l).
Proof.
  induction 1 as [| a l Hs IH Hall]; simpl; constructor; [exact IH |].
  apply Forall_map. exact Hall.
Qed.
End SortFacts.

Lemma sorted_perm_eq (l1 : list Z) : forall l2,
  StronglySorted Z.le l1 -> StronglySorted Z.le l2 ->
  Permutation l1 l2 -> l1 = l2.
Proof.
  induction l1 as [| a l1 IH]; intros l2 H1 H2 Hp.
  - apply Permutation_nil in Hp. symmetry. exact Hp.
  - destruct l2 as [| b l2];
      [ apply Permutation_sym, Permutation_nil in Hp; discriminate | ].
    inversion H1 as [| ? ? H1' Ha]; subst.
    inversion H2 as [| ? ? H2' Hb]; subst.
    assert (Hab : a = b).
    { assert (Hin1 : In b (a :: l1))
        by (apply (Permutation_in _ (Permutation_sym Hp)); left; reflexivity).
      assert (Hin2 : In a (b :: l2))
        by (apply (Permutation_in _ Hp); left; reflexivity).
      rewrite Forall_forall in Ha, Hb.
      destruct Hin1 as [-> | Hin1]; [reflexivity |].
      destruct Hin2 as [-> | Hin2]; [reflexivity |].
      specialize (Ha b Hin1). specialize (Hb a Hin2). lia. }
    subst b. f_equal. apply IH; auto.
    apply (Permutation_cons_inv (a := a)). exact Hp.
Qed.

Lemma ranks_sorted n : StronglySorted Z.le (ranks n).
Proof.
  unfold ranks. generalize 1%nat.
  induction n as [| n IH]; intros a; simpl; constructor; [apply IH |].
  apply Forall_map. apply Forall_forall. intros k Hk.
  apply in_seq in Hk. lia.
Qed.

(** X18. While the queue of a book is ranked 1..N, getBookReservationQueue
    lists exactly the active reservations of the book, in the order of
    their priorities: the i-th entry has priority i, and queueLength is
    N. *)
Theorem queue_listing_in_order book s :
  queueInvariant book s ->
  Permutation (getBookReservationQueue book s)
              (filter (Reservations.isActiveFor book) (reservations s))
  /\ map Reservation.priority (getBookReservationQueue book s)
     = ranks (List.length (getBookReservationQueue book s)).
Proof.
  intros Hq. unfold getBookReservationQueue.
  set (F := filter (Reservations.isActiveFor book) (reservations s)).
  pose proof (sortBy_perm Reservation.priority F) as Hperm.
  split; [exact Hperm |].
  apply sorted_perm_eq.
  - apply sorted_keys, sortBy_sorted.
  - apply ranks_sorted.
  - unfold queueInvariant, activePriorities in Hq. fold F in Hq.
    rewrite length_map in Hq.
    rewrite (Permutation_length Hperm).
    apply (perm_trans (l' := map Reservation.priority F));
      [ apply Permutation_map; exact Hperm | exact Hq ].
Qed.

Lemma queue_listing_in_order_witness :
  Permutation (getBookReservationQueue 100 twoQueued)
              (filter (Reservations.isActiveFor 100) (reservations twoQueued))
  /\ map Reservation.priority (getBookReservationQueue 100 twoQueued)
     = ranks (List.length (getBookReservationQueue 100 twoQueued)).
Proof.
  apply (queue_listing_in_order 100 twoQueued).
  unfold queueInvariant.
  replace (activePriorities 100 twoQueued) with [1; 2]
    by (vm_compute; reflexivity).
  apply Permutation_refl.
Defined.

(** ** First come, first served *)

Lemma insertByDate_insertBy r l :
  Reservations.insertByDate r l = insertBy Reservation.reservationDate r l.
Proof.
  induction l as [| x l IH]; simpl; [reflexivity |].
  rewrite IH. reflexivity.
Qed.

Lemma sortByDate_sortBy l :
  Reservations.sortByDate l = sortBy Reservation.reservationDate l.
Proof.
  induction l as [| x l IH]; simpl; [reflexivity |].
  rewrite insertByDate_insertBy, IH. reflexivity.
Qed.

Lemma rankIn_lower l : forall i id k, rankIn l i id = Some k -> i < k.
Proof.
  induction l as [| a l IH]; intros i id k; cbn [rankIn]; [discriminate |].
  destruct (Nat.eqb (Reservation._id a) id).
  - intros H. injection H as <-. lia.
  - intros H. apply IH in H. lia.
Qed.

Lemma rankIn_In l : forall i x,
  In x l -> exists k, rankIn l i (Reservation._id x) = Some k.
Proof.
  induction l as [| a l IH]; intros i x Hx; [contradiction |].
  cbn [rankIn].
  destruct (Nat.eqb (Reservation._id a) (Reservation._id x)) eqn:Heq;
    [ eexists; reflexivity | ].
  destruct Hx as [-> | Hx]; [ rewrite Nat.eqb_refl in Heq; discriminate | ].
  apply IH. exact Hx.
Qed.

Lemma rank_order l :
  NoDup (map Reservation._id l) ->
  StronglySorted
    (fun a b => Reservation.reservationDate a <= Reservation.reservationDate b) l ->
  forall i x y kx ky,
    In x l -> In y l ->
    Reservation.reservationDate x < Reservation.reservationDate y ->
    rankIn l i (Reservation._id x) = Some kx ->
    rankIn l i (Reservation._id y) = Some ky ->
    kx < ky.
Proof.
  induction l as [| a l IH]; intros Hnd Hs i x y kx ky Hx Hy Hlt Hkx Hky;
    [contradiction |].
  pose proof Hnd as Hnd0.
  inversion Hnd as [| ? ? Hnotin Hnd']; subst.
  inversion Hs as [| ? ? Hs' Hall]; subst.
  rewrite Forall_forall in Hall.
  cbn [rankIn] in Hkx, Hky.
  destruct (Nat.eqb_spec (Reservation._id a) (Reservation._id x)) as [Hax | Hax];
    destruct (Nat.eqb_spec (Reservation._id a) (Reservation._id y)) as [Hay | Hay].
  - assert (x = a) by (apply (NoDup_ids_eq Reservation._id (a :: l));
                       auto; left; reflexivity).
    assert (y = a) by (apply (NoDup_ids_eq Reservation._id (a :: l));
                       auto; left; reflexivity).
    subst. lia.
  - injection Hkx as <-. apply rankIn_lower in Hky. lia.
  - assert (y = a) by (apply (NoDup_ids_eq Reservation._id (a :: l));
                       auto; left; reflexivity).
    subst y. destruct Hx as [-> | Hx]; [congruence |].
    specialize (Hall x Hx). simpl in Hall. lia.
  - destruct Hx as [-> | Hx]; [congruence |].
    destruct Hy as [-> | Hy]; [congruence |].
    apply (IH Hnd' Hs' (i + 1) x y); assumption.
Qed.

(** X19. A cancellation or a fulfilment that succeeds leaves the queue of
    its book ranked 1..N - whatever the priorities were before, a sweep
    included - and ranked first come, first served: of two active
    reservations of the book, the one made earlier has the smaller
    priority. *)
Theorem rerank_first_come_first_served op s book :
  collectionWf (reservations s) ->
  closedBook op s = Some book ->
  succeeded (snd (queueRequest op s)) = true ->
  queueInvariant book (fst (queueRequest op s))
  /\ forall x y,
       In x (reservations (fst (queueRequest op s))) ->
       In y (reservations (fst (queueRequest op s))) ->
       Reservations.isActiveFor book x = true ->
       Reservations.isActiveFor book y = true ->
       Reservation.reservationDate x < Reservation.reservationDate y ->
       Reservation.priority x < Reservation.priority y.
Proof.
  intros Hwf Hbook Hok.
  assert (Hform : exists r r',
    Coll.findById Reservation._id (Reservation._id r') (reservations s) = Some r
    /\ Reservation.bookId r = book
    /\ Reservation.userId r' = Reservation.userId r
    /\ Reservation.bookId r' = Reservation.bookId r
    /\ Reservations.isActive r' = false
    /\ Reservations.preSave r' = None
    /\ fst (queueRequest op s)
       = set_reservations
           (rerankedQueue book
              (Coll.replaceOne Reservation._id r' (reservations s))) s).
  { destruct op as [env user body | env user id | env staff id | env];
      cbn [closedBook queueRequest] in *; try discriminate.
    - destruct (cancelReservation_effect env user id s Hwf)
        as [[_ Hf] | [r [Hr [_ [_ [Hp Hrun]]]]]]; [congruence |].
      rewrite Hr in Hbook. injection Hbook as Hb.
      destruct (findById_some _ _ _ _ Hr) as [Hid _].
      exists r, (Reservations.with_status ResStatus.cancelled (now env) r).
      rewrite asyncHandler_fst, Hrun, Hb.
      cbn [Reservations.with_status Reservation._id]. rewrite Hid.
      repeat split; auto.
    - destruct (fulfillReservation_effect env staff id s Hwf)
        as [[_ Hf] | [r [b [Hr [_ [_ [_ Hrun]]]]]]]; [congruence |].
      rewrite Hr in Hbook. injection Hbook as Hb.
      destruct (findById_some _ _ _ _ Hr) as [Hid Hin].
      exists r, (Reservations.fulfilled_by (auth_id staff) (now env) r).
      rewrite asyncHandler_fst, Hrun, Hb.
      cbn [Reservations.fulfilled_by Reservation._id]. rewrite Hid.
      repeat split; auto.
      destruct Hwf as [_ [Hpre _]]. rewrite Forall_forall in Hpre.
      apply (Hpre r Hin). }
  destruct Hform as [r [r' [Hr [Hb [Huser [Hbk [Hina [Hp ->]]]]]]]].
  destruct (findById_some _ _ _ _ Hr) as [Hid Hin].
  set (c1 := Coll.replaceOne Reservation._id r' (reservations s)).
  assert (Hwf1 : collectionWf c1).
  { apply (leave_active_set r r' s Hwf Hin (eq_sym Hid) Huser Hbk Hina Hp). }
  split.
  - destruct (updateReservationPriorities_run book (set_reservations c1 s) Hwf1)
      as [s' [Hrun [_ [Hq _]]]].
    rewrite (updateReservationPriorities_exact book (set_reservations c1 s) Hwf1)
      in Hrun.
    injection Hrun as <-. exact Hq.
  - cbn [reservations set_reservations]. unfold rerankedQueue.
    set (l := Reservations.sortByDate
                (filter (Reservations.isActiveFor book) c1)).
    assert (Hperm : Permutation l (filter (Reservations.isActiveFor book) c1))
      by apply sortByDate_perm.
    assert (Hndl : NoDup (map Reservation._id l)).
    { apply (Permutation_NoDup
               (l := map Reservation._id
                       (filter (Reservations.isActiveFor book) c1))).
      - apply Permutation_map, Permutation_sym, Hperm.
      - apply NoDup_ids_filter. apply Hwf1. }
    assert (Hsorted : StronglySorted
              (fun a b => Reservation.reservationDate a
                          <= Reservation.reservationDate b) l).
    { unfold l. rewrite sortByDate_sortBy. apply sortBy_sorted. }
    assert (Hrank : forall x,
              In x (map (reranked l 0) c1) ->
              Reservations.isActiveFor book x = true ->
              exists x0, In x0 l
                /\ Reservation.reservationDate x = Reservation.reservationDate x0
                /\ rankIn l 0 (Reservation._id x0)
                   = Some (Reservation.priority x)).
    { intros x Hx Hact. apply in_map_iff in Hx. destruct Hx as [x0 [<- Hx0]].
      rewrite isActiveFor_reranked in Hact.
      assert (Hl : In x0 l).
      { apply (Permutation_in _ (Permutation_sym Hperm)).
        apply filter_In. split; assumption. }
      exists x0. split; [exact Hl |]. split.
      - destruct (reranked_sameButPriority l 0 x0) as [_ [_ [_ [H _]]]].
        exact H.
      - destruct (rankIn_In l 0 x0 Hl) as [k Hk].
        rewrite (reranked_priority l 0 x0 k Hk). exact Hk. }
    intros x y Hx Hy Hax Hay Hlt.
    destruct (Hrank x Hx Hax) as [x0 [Hx0 [Hdx Hkx]]].
    destruct (Hrank y Hy Hay) as [y0 [Hy0 [Hdy Hky]]].
    apply (rank_order l Hndl Hsorted 0 x0 y0); auto. lia.
Qed.

Lemma rerank_first_come_first_served_witness :
  queueInvariant 100 (fst (queueRequest cancelSecond brokenQueue))
  /\ forall x y,
       In x (reservations (fst (queueRequest cancelSecond brokenQueue))) ->
       In y (reservations (fst (queueRequest cancelSecond brokenQueue))) ->
       Reservations.isActiveFor 100 x = true ->
       Reservations.isActiveFor 100 y = true ->
       Reservation.reservationDate x < Reservation.reservationDate y ->
       Reservation.priority x < Reservation.priority y.
Proof.
  apply (rerank_first_come_first_served cancelSecond brokenQueue 100).
  - apply (collection_kept (map Queue sweepThenReserve) queueStore).
    split; [ apply NoDup_nil | split; [ apply Forall_nil | ] ].
    intros a b [].
  - vm_compute. reflexivity.
  - vm_compute. reflexivity.
Defined.

(** * Paginated listings *)

Lemma ceil_div a b :
  0 < b -> Qceiling (inject_Z a / inject_Z b) = - ((- a) / b).
Proof.
  intros Hb. destruct b as [| p | p]; try lia.
  unfold Qceiling, Qfloor, Qdiv, Qmult, Qinv, Qopp, inject_Z. simpl.
  rewrite Z.mul_1_r. reflexivity.
Qed.

Lemma limitOf_valid q :
  validatePagination q = true -> 1 <= limitOf q <= 100.
Proof.
  unfold validatePagination, limitOf, orDefault. intros H.
  apply andb_prop in H. destruct H as [_ H].
  destruct (q_limit q) as [l |]; [ | lia ].
  apply andb_prop in H. destruct H as [H1 H2].
  apply Z.leb_le in H1, H2.
  destruct (Z.eqb_spec l 0); lia.
Qed.

Lemma firstn_plus {A} (a b : nat) : forall l : list A,
  firstn (a + b) l = (firstn a l ++ firstn b (skipn a l))%list.
Proof.
  induction a as [| a IH]; intros l; [reflexivity |].
  destruct l as [| x l]; simpl.
  - rewrite firstn_nil. reflexivity.
  - rewrite IH. reflexivity.
Qed.

Lemma chunks_concat {A} (k : nat) (l : list A) (n : nat) :
  List.concat (map (fun j => firstn k (skipn (j * k) l)) (seq 0 n))
  = firstn (n * k) l.
Proof.
  induction n as [| n IH]; [reflexivity |].
  rewrite seq_S, map_app, concat_app, IH. simpl.
  rewrite app_nil_r. rewrite (Nat.add_comm k (n * k)).
  symmetry. apply firstn_plus.
Qed.

(** X20. Pagination loses and repeats nothing: for a limit that
    validatePagination accepts, the pages 1 .. pages of a listing, one
    after the other, are the whole listing in its order; every page
    holds at most limit entries and every page after the last is
    empty. *)
Theorem pages_cover_listing {D} (lim : option Z) (l : list D) :
  validatePagination (mkPageQuery None lim) = true ->
  List.concat (allPages lim l) = l
  /\ (forall p, 1 <= p ->
        Z.of_nat (List.length (skipLimit (mkPageQuery (Some p) lim) l))
        <= limitOf (mkPageQuery None lim))
  /\ (forall p,
        p_pages (pagination (mkPageQuery None lim) (Z.of_nat (List.length l)))
        < p ->
        skipLimit (mkPageQuery (Some p) lim) l = []).
Proof.
  intros Hv. pose proof (limitOf_valid _ Hv) as Hk.
  unfold allPages, pagination, skipLimit. cbn [p_pages].
  assert (Hlim : forall p, limitOf (mkPageQuery (Some p) lim)
                           = limitOf (mkPageQuery None lim)) by reflexivity.
  set (k := limitOf (mkPageQuery None lim)) in *.
  rewrite ceil_div by lia.
  set (len := Z.of_nat (List.length l)).
  pose proof (Z.div_mod (- len) k ltac:(lia)) as Hdm.
  pose proof (Z.mod_pos_bound (- len) k ltac:(lia)) as Hm.
  set (n := - ((- len) / k)) in *.
  assert (Hn : len <= n * k /\ 0 <= n).
  { unfold n. split; [nia |].
    assert ((- len) / k <= 0) by (apply Z.div_le_upper_bound; lia). lia. }
  destruct Hn as [Hcover Hn0].
  assert (Hpage : forall p, 1 <= p ->
            pageOf (mkPageQuery (Some p) lim) = p).
  { intros p Hp. unfold pageOf, orDefault. cbn [q_page].
    destruct (Z.eqb_spec p 0); [lia | reflexivity]. }
  split; [ | split ].
  - unfold ranks. rewrite map_map.
    rewrite <- seq_shift, map_map.
    rewrite (map_ext _
      (fun j => firstn (Z.to_nat k) (skipn (j * Z.to_nat k) l))).
    + rewrite chunks_concat. apply firstn_all2.
      apply Nat2Z.inj_le. rewrite Nat2Z.inj_mul, !Z2Nat.id by lia.
      exact Hcover.
    + intros j. rewrite Hlim, Hpage by lia. do 2 f_equal.
      rewrite Z2Nat.inj_mul by lia.
      replace (Z.of_nat (S j) - 1) with (Z.of_nat j) by lia.
      rewrite Nat2Z.id. reflexivity.
  - intros p Hp. rewrite Hlim.
    pose proof (firstn_le_length (Z.to_nat k)
                  (skipn (Z.to_nat ((pageOf (mkPageQuery (Some p) lim) - 1) * k)) l)).
    lia.
  - intros p Hp. rewrite Hlim, Hpage by lia.
    rewrite skipn_all2; [ apply firstn_nil | ].
    apply Nat2Z.inj_le. rewrite Z2Nat.id by nia. fold len. nia.
Qed.

Lemma pages_cover_listing_witness :
  List.concat (allPages (Some 2) [1; 2; 3; 4; 5]) = [1; 2; 3; 4; 5]
  /\ allPages (Some 2) [1; 2; 3; 4; 5] = [[1; 2]; [3; 4]; [5]].
Proof.
  split; [ | vm_compute; reflexivity ].
  apply (pages_cover_listing (Some 2) [1; 2; 3; 4; 5]). reflexivity.
Defined.

Lemma sorted_skipn {A} (R : A -> A -> Prop) n : forall l,
  StronglySorted R l -> StronglySorted R (skipn n l).
Proof.
  induction n as [| n IH]; intros l Hs; [exact Hs |].
  destruct l as [| x l]; [exact Hs |].
  inversion Hs; subst. simpl. apply IH. assumption.
Qed.

Lemma sorted_firstn {A} (R : A -> A -> Prop) n : forall l,
  StronglySorted R l -> StronglySorted R (firstn n l).
Proof.
  induction n as [| n IH]; intros l Hs; [constructor |].
  destruct l as [| x l]; [constructor |].
  inversion Hs as [| ? ? Hs' Hall]; subst. simpl.
  constructor; [ apply IH; exact Hs' | ].
  rewrite Forall_forall in *. intros y Hy. apply Hall.
  rewrite <- (firstn_skipn n l). apply in_or_app. left. exact Hy.
Qed.

Lemma skipLimit_In {D} q (l : list D) x : In x (skipLimit q l) -> In x l.
Proof.
  unfold skipLimit. intros H.
  rewrite <- (firstn_skipn (Z.to_nat ((pageOf q - 1) * limitOf q)) l).
  apply in_or_app. right.
  rewrite <- (firstn_skipn (Z.to_nat (limitOf q)) (skipn _ l)).
  apply in_or_app. left. exact H.
Qed.

(** X21. For a query validatePagination accepts, getOverdueTransactions
    lists only loans that are issued and past their due date, each with
    overdueDays = ceil((now - dueDate) / 1 day), which is at least 1; the
    page is in the order of the due dates, the longest overdue first, and
    total counts all overdue loans. *)
Theorem overdue_listing env q s :
  validatePagination q = true ->
  (forall t d, In (t, d) (fst (getOverdueTransactions env q s)) ->
     In t (transactions s)
     /\ Transaction.status t = TxStatus.issued
     /\ Transaction.dueDate t < now env
     /\ d = ceilDays (now env - Transaction.dueDate t)
     /\ 1 <= d)
  /\ StronglySorted Z.le
       (map (fun x => Transaction.dueDate (fst x))
            (fst (getOverdueTransactions env q s)))
  /\ p_total (snd (getOverdueTransactions env q s))
     = Z.of_nat (List.length (filter (isOverdue (now env)) (transactions s))).
Proof.
  intros _. unfold getOverdueTransactions. cbn [fst snd].
  split; [ | split ].
  - intros t d Hin. apply in_map_iff in Hin.
    destruct Hin as [t0 [Heq Hin]]. injection Heq as -> <-.
    apply skipLimit_In in Hin.
    apply (Permutation_in _ (sortBy_perm _ _)) in Hin.
    apply filter_In in Hin. destruct Hin as [Hin Ho].
    unfold isOverdue in Ho. apply andb_prop in Ho. destruct Ho as [Hst Hdue].
    apply Z.ltb_lt in Hdue.
    split; [exact Hin |]. split.
    + destruct (Transaction.status t); try discriminate; reflexivity.
    + split; [exact Hdue |]. split; [reflexivity |].
      apply ceilDays_pos. lia.
  - rewrite map_map. cbn [fst].
    apply sorted_keys. unfold skipLimit.
    apply sorted_firstn, sorted_skipn, sortBy_sorted.
  - reflexivity.
Qed.

Lemma overdue_listing_witness :
  fst (getOverdueTransactions lateEnv firstPageOfFive lateStore)
  = [(lateLoan, 1)]
  /\ StronglySorted Z.le
       (map (fun x => Transaction.dueDate (fst x))
            (fst (getOverdueTransactions lateEnv firstPageOfFive lateStore))).
Proof.
  split; [ vm_compute; reflexivity | ].
  apply (overdue_listing lateEnv firstPageOfFive lateStore). reflexivity.
Defined.

(** X22. The sweep expires what getExpiredReservations lists: the count
    autoExpireReservations reports is the total of the listing at that
    instant, and after the sweep the listing is empty, with total 0 and
    0 pages. *)
Theorem sweep_clears_expired_listing env q s :
  validatePagination q = true ->
  snd (asyncHandler (autoExpireReservations env) s)
  = Json (mkResponse 200 true
            (showZ (p_total (snd (getExpiredReservations env q s)))
             ++ " reservations expired"))
  /\ getExpiredReservations env q
       (fst (asyncHandler (autoExpireReservations env) s))
     = ([], mkPagination (pageOf q) (limitOf q) 0 0).
Proof.
  intros Hv. split; [reflexivity |].
  pose proof (autoExpire_expires_all env s) as Hall.
  set (s1 := fst (asyncHandler (autoExpireReservations env) s)) in *.
  clearbody s1.
  assert (Hno : filter (isExpiredAt (now env)) (reservations s1) = []).
  { apply filter_none. rewrite forallb_forall in Hall.
    intros r Hr. apply negb_true_iff. apply Hall. exact Hr. }
  unfold getExpiredReservations, Coll.countDocuments. rewrite Hno.
  unfold skipLimit, pagination. cbn [sortBy fold_right List.length].
  rewrite skipn_nil, firstn_nil.
  pose proof (limitOf_valid q Hv) as Hk.
  rewrite ceil_div by lia. reflexivity.
Qed.

Lemma sweep_clears_expired_listing_witness :
  snd (asyncHandler (autoExpireReservations sweepEnv) twoQueued)
  = Json (mkResponse 200 true "1 reservations expired")
  /\ getExpiredReservations sweepEnv firstPageOfFive
       (fst (asyncHandler (autoExpireReservations sweepEnv) twoQueued))
     = ([], mkPagination 1 5 0 0).
Proof.
  destruct (sweep_clears_expired_listing sweepEnv firstPageOfFive twoQueued
              eq_refl) as [H1 H2].
  split; [ | exact H2 ].
  rewrite H1. vm_compute. reflexivity.
Defined.

(** * Staff adjustment of the copy counts *)

(** X23. updateBookAvailability on a stored book succeeds exactly when the
    resulting counts (those of the request, the stored one for a count
    left out) satisfy 0 <= availableCopies <= totalCopies; it then stores
    exactly these counts on that book and changes nothing else, and
    otherwise changes nothing at all. In particular totalCopies cannot be
    lowered below the stored availableCopies without sending both. *)
Theorem availability_update_iff env id body s b :
  Coll.findById Book._id id (books s) = Some b ->
  let total := fst (requestedCopies body b) in
  let available := snd (requestedCopies body b) in
  let s' := fst (asyncHandler (updateBookAvailability env id body) s) in
  let ok := succeeded (snd (asyncHandler (updateBookAvailability env id body) s)) in
  (ok = true <-> 0 <= available <= total)
  /\ (ok = true ->
      Coll.findById Book._id id (books s')
      = Some (Books.with_copies total available (now env) b)
      /\ (forall j, j <> id ->
            Coll.findById Book._id j (books s')
            = Coll.findById Book._id j (books s))
      /\ users s' = users s /\ transactions s' = transactions s
      /\ fines s' = fines s /\ reservations s' = reservations s)
  /\ (ok = false -> s' = s).
Proof.
  intros Hb. cbv zeta. unfold requestedCopies. cbn [fst snd].
  destruct (findById_some _ _ _ _ Hb) as [Hid _].
  set (total := match body_totalCopies body with
                | Some v => v | None => Book.totalCopies b end).
  set (available := match body_availableCopies body with
                    | Some v => v | None => Book.availableCopies b end).
  set (b' := Books.with_copies total available (now env) b).
  assert (Hrun : updateBookAvailability env id body s
                 = (Books.save b' ;;
                    json 200 true "Book availability updated successfully") s).
  { unfold updateBookAvailability, Books.findById. cbv [bind gets].
    rewrite Hb. reflexivity. }
  unfold asyncHandler. rewrite Hrun. unfold bind.
  assert (Hinv : copiesInvariant b' <-> 0 <= available <= total) by reflexivity.
  destruct (Z.le_gt_cases 0 available) as [H0 | H0];
    [ destruct (Z.le_gt_cases available total) as [H1 | H1] | ].
  - assert (Hb' : Coll.findById Book._id (Book._id b') (books s) = Some b)
      by (cbn [b' Books.with_copies Book._id]; rewrite Hid; exact Hb).
    rewrite (Books_save_ok b' b s (conj H0 H1) Hb').
    cbn [json fst snd succeeded success books set_books users transactions
         fines reservations].
    split; [ split; [ intros _; split; assumption | reflexivity ] | ].
    split; [ intros _ | discriminate ].
    split.
    + apply (findById_replaceOne_same _ _ _ _ b); [exact Hb |].
      cbn [b' Books.with_copies Book._id]. exact Hid.
    + split; [ | repeat split ].
      intros j Hj. apply findById_replaceOne_other.
      cbn [b' Books.with_copies Book._id]. congruence.
  - destruct (Books_save_rejects b' s) as [e ->];
      [ intros [_ H]; cbn in H; lia | ].
    cbn. split; [ split; [discriminate | lia] | ].
    split; [ discriminate | reflexivity ].
  - destruct (Books_save_rejects b' s) as [e ->];
      [ intros [H _]; cbn in H; lia | ].
    cbn. split; [ split; [discriminate | lia] | ].
    split; [ discriminate | reflexivity ].
Qed.

Lemma availability_update_iff_witness :
  succeeded
    (snd (asyncHandler
            (updateBookAvailability (mkEnv 5 0) 100
               (mkAvailabilityBody None (Some 0))) demoStore))
  = false
  /\ fst (asyncHandler
            (updateBookAvailability (mkEnv 5 0) 100
               (mkAvailabilityBody None (Some 0))) demoStore)
     = demoStore.
Proof.
  destruct (availability_update_iff (mkEnv 5 0) 100
              (mkAvailabilityBody None (Some 0)) demoStore
              (Book.mk 100 1 1 BookStatus.available 0) eq_refl)
    as [_ [_ H]].
  split; [ reflexivity | apply H; reflexivity ].
Defined.
